(** * Memory Palace AI service: a shallow embedding of the service glue

    The repository wraps seven machine-learning models behind HTTP handlers.
    What the services themselves decide is embedded here:

    - [Analysis]: [ProactiveAnalysisService] (prompt, model call, validation
      of the model's reply, default result);
    - [Chat]: [ChatService] (prompt construction, interpretation of the
      model's reply as a [DirectorResponse]);
    - [Face]: [FaceRecognitionService.identify_people];
    - [Vision]: the caption clean-up of [VisionService.generate_caption];
    - [Services] and [App]: the constructors of the seven services, the
      start-up, the health check and the routes of app.py;
    - [Files]: the temporary files of [TranscriptionService.transcribe_audio]
      and [TtsService.generate_speech], with their two routes.

    The models and the libraries around them (the Ollama client, [json],
    pydantic's field coercion, [face_recognition], BLIP) are not code of the
    repository: they are section variables, and every call to one of them is
    recorded in a trace.  Python exceptions are values of [res]. *)

From Stdlib Require Import ZArith String Ascii Bool Lia.
From Stdlib Require Import Floats.SpecFloat.
From stdpp Require Import gmap strings list fin_maps pretty.

Set Warnings "-register-all,-clear-no-such-hyp".
Open Scope string_scope.
Open Scope list_scope.

(** ** Python values, exceptions and the few builtins the services use *)

Module Py.

(** A value as [json.loads] builds it: [None], [bool], [int] (unbounded),
    [float] (binary64, as a [spec_float]), [str], [list] and [dict] with
    string keys. *)
Inductive pyval : Type :=
| VNone
| VBool (b : bool)
| VInt (z : Z)
| VFloat (f : spec_float)
| VStr (s : string)
| VList (l : list pyval)
| VDict (d : gmap string pyval).

(** Exception classes.  All of them derive from [Exception];
    [JSONDecodeError] derives from [ValueError]. *)
Inductive exn : Type :=
| Exception
| TypeError
| ValueError
| JSONDecodeError
| OverflowError
| AttributeError
| IndexError
| ValidationError
| RuntimeError (msg : string).

Definition exn_eqb (a b : exn) : bool :=
  match a, b with
  | Exception, Exception | TypeError, TypeError | ValueError, ValueError
  | JSONDecodeError, JSONDecodeError | OverflowError, OverflowError
  | AttributeError, AttributeError | IndexError, IndexError
  | ValidationError, ValidationError => true
  | RuntimeError _, RuntimeError _ => true
  | _, _ => false
  end.

(** [isinstance e cls]: the class of [e] is [cls] or derives from it. *)
Definition isinstance_exn (e cls : exn) : bool :=
  match cls with
  | Exception => true
  | ValueError => exn_eqb e ValueError || exn_eqb e JSONDecodeError
  | _ => exn_eqb e cls
  end.

(** The outcome of an expression: a value, or a raised exception. *)
Inductive res (A : Type) : Type :=
| Ok (a : A)
| Raise (e : exn).
Arguments Ok {A} a.
Arguments Raise {A} e.

#[global] Instance res_ret : MRet res := λ A a, Ok a.
#[global] Instance res_bind : MBind res := λ A B f r,
  match r with
  | Ok a => f a
  | Raise e => Raise e
  end.

(** [try: body except (c1, c2, ...): handler] on a pure body. *)
Definition try_except {A} (body : res A) (classes : list exn) (handler : res A) : res A :=
  match body with
  | Ok a => Ok a
  | Raise e => if existsb (isinstance_exn e) classes then handler else Raise e
  end.

(** *** Numbers *)

Definition prec : Z := 53.
Definition emax : Z := 1024.

(** The binary64 nearest to an integer (ties to even); an integer beyond the
    largest finite float rounds to an infinity. *)
Definition Z2SF (z : Z) : spec_float := binary_normalize prec emax z 0 false.

(** The builtin [float(x)].  [float_of_str] is the builtin on a [str], which
    answers [None] where Python raises [ValueError].  An [int] too large for a
    float raises [OverflowError]. *)
Definition py_float (float_of_str : string → option spec_float) (v : pyval) : res spec_float :=
  match v with
  | VFloat f => Ok f
  | VBool b => Ok (Z2SF (if b then 1 else 0))
  | VInt z =>
      match Z2SF z with
      | S754_infinity _ => Raise OverflowError
      | f => Ok f
      end
  | VStr s =>
      match float_of_str s with
      | Some f => Ok f
      | None => Raise ValueError
      end
  | VNone | VList _ | VDict _ => Raise TypeError
  end.

(** [a < b] on numbers; an [int] compared with a [float] is compared by value
    (exact here: the only integers compared with floats are 0 and 5). *)
Definition num_lt (a b : pyval) : bool :=
  match a, b with
  | VInt x, VInt y => (x <? y)%Z
  | VInt x, VFloat g => SFltb (Z2SF x) g
  | VFloat f, VInt y => SFltb f (Z2SF y)
  | VFloat f, VFloat g => SFltb f g
  | _, _ => false
  end.

Definition num_le (a b : pyval) : bool :=
  match a, b with
  | VInt x, VInt y => (x <=? y)%Z
  | VInt x, VFloat g => SFleb (Z2SF x) g
  | VFloat f, VInt y => SFleb f (Z2SF y)
  | VFloat f, VFloat g => SFleb f g
  | _, _ => false
  end.

(** [min(a, b)] keeps [a] unless [b < a]; [max(a, b)] keeps [a] unless
    [b > a]: the builtins replace their candidate only on a strict
    comparison, so a NaN second argument is never chosen. *)
Definition py_min (a b : pyval) : pyval := if num_lt b a then b else a.
Definition py_max (a b : pyval) : pyval := if num_lt a b then b else a.

(** [d.get(key)] and [d.get(key, default)]. *)
Definition dict_get (d : gmap string pyval) (key : string) (dflt : pyval) : pyval :=
  default dflt (d !! key).

(** [v == "literal"]: only a [str] equals a [str]. *)
Definition eq_str (v : pyval) (s : string) : bool :=
  match v with
  | VStr t => String.eqb t s
  | _ => false
  end.

(** *** Text *)

Definition nl : string := String "010"%char EmptyString.
Definition dq : string := String "034"%char EmptyString.

(** [', '.join(xs)] and the like. *)
Definition join (sep : string) (xs : list string) : string := String.concat sep xs.

(** Text is modelled as ASCII.  On a text of 7-bit characters [lower],
    [strip] and [capitalize] below are [str.lower], [str.strip] and
    [str.capitalize]; what the builtins do to the other characters (case
    mappings of letters beyond 127, some of which change the length, and the
    blanks beyond 127) is not modelled: the functions below leave such a
    character alone.  A theorem that says what one of them makes of a text
    assumes [is_ascii] of that text. *)
Definition is_ascii_char (c : ascii) : bool := (nat_of_ascii c <? 128)%nat.

Fixpoint is_ascii (s : string) : bool :=
  match s with
  | EmptyString => true
  | String c s' => is_ascii_char c && is_ascii s'
  end.

Definition is_upper (c : ascii) : bool :=
  let n := nat_of_ascii c in (65 <=? n)%nat && (n <=? 90)%nat.
Definition is_lower (c : ascii) : bool :=
  let n := nat_of_ascii c in (97 <=? n)%nat && (n <=? 122)%nat.
Definition lower_char (c : ascii) : ascii :=
  if is_upper c then ascii_of_nat (nat_of_ascii c + 32) else c.
Definition upper_char (c : ascii) : ascii :=
  if is_lower c then ascii_of_nat (nat_of_ascii c - 32) else c.

(** The blanks of [str.isspace] below 128: TAB, LF, VT, FF, CR, the four
    separators FS, GS, RS, US and the space. *)
Definition is_space (c : ascii) : bool :=
  let n := nat_of_ascii c in
  ((9 <=? n)%nat && (n <=? 13)%nat) || ((28 <=? n)%nat && (n <=? 32)%nat).

Fixpoint map_string (f : ascii → ascii) (s : string) : string :=
  match s with
  | EmptyString => EmptyString
  | String c s' => String (f c) (map_string f s')
  end.

Definition lower (s : string) : string := map_string lower_char s.

(** [s.startswith(p)], [s.endswith(p)] and [needle in hay]. *)
Definition startswith (s p : string) : bool := String.prefix p s.

Definition endswith (s p : string) : bool :=
  let n := String.length s in
  let m := String.length p in
  (m <=? n)%nat && String.eqb (String.substring (n - m) m s) p.

Fixpoint contains (needle hay : string) : bool :=
  String.prefix needle hay ||
  match hay with
  | EmptyString => false
  | String _ hay' => contains needle hay'
  end.

(** [s[n:]]. *)
Fixpoint drop_string (n : nat) (s : string) : string :=
  match n, s with
  | O, _ => s
  | S n', String _ s' => drop_string n' s'
  | S _, EmptyString => EmptyString
  end.

Fixpoint lstrip (s : string) : string :=
  match s with
  | String c s' => if is_space c then lstrip s' else s
  | EmptyString => EmptyString
  end.

Fixpoint rstrip (s : string) : string :=
  match s with
  | EmptyString => EmptyString
  | String c s' =>
      match rstrip s' with
      | EmptyString => if is_space c then EmptyString else String c EmptyString
      | t => String c t
      end
  end.

Definition strip (s : string) : string := rstrip (lstrip s).

(** [s.capitalize()]: the first character in upper case, every other
    character in lower case. *)
Definition capitalize (s : string) : string :=
  match s with
  | EmptyString => EmptyString
  | String c s' => String (upper_char c) (lower s')
  end.

(** [enumerate(xs)]. *)
Definition enumerate {A} (xs : list A) : list (nat * A) := imap (λ i x, (i, x)) xs.

End Py.
Export Py.

(** ** External calls and their trace *)

Module Effects.

(** One entry per call that leaves the service. *)
Inductive event : Type :=
| EvChat (prompt : string)
| EvB64decode (data : string)
| EvLoadImage
| EvFaceLocations
| EvFaceEncodings
| EvCompareFaces
| EvCaption.

(** A computation reads the trace so far and returns its outcome with the
    extended trace. *)
Definition M (A : Type) : Type := list event → res A * list event.

#[global] Instance M_ret : MRet M := λ A a t, (Ok a, t).
#[global] Instance M_bind : MBind M := λ A B f m t,
  match m t with
  | (Ok a, t') => f a t'
  | (Raise e, t') => (Raise e, t')
  end.

Definition raise {A} (e : exn) : M A := λ t, (Raise e, t).

(** An external call: it is logged, then its outcome is the callee's. *)
Definition call {A} (ev : event) (r : res A) : M A := λ t, (r, t ++ [ev]).

(** A pure step that may raise. *)
Definition lift {A} (r : res A) : M A := λ t, (r, t).

(** [try: body] followed by [except cls as e: handler] clauses, tried in
    order; an exception no clause matches goes on to the caller. *)
Fixpoint select_handler {A} (e : exn) (clauses : list (exn * (exn → M A))) : option (M A) :=
  match clauses with
  | [] => None
  | (cls, h) :: rest => if isinstance_exn e cls then Some (h e) else select_handler e rest
  end.

Definition try_catch {A} (body : M A) (clauses : list (exn * (exn → M A))) : M A := λ t,
  match body t with
  | (Ok a, t') => (Ok a, t')
  | (Raise e, t') =>
      match select_handler e clauses with
      | Some h => h t'
      | None => (Raise e, t')
      end
  end.

(** [try: body finally: fin]. *)
Definition try_finally {A} (body : M A) (fin : M unit) : M A := λ t,
  match body t with
  | (r, t') =>
      match fin t' with
      | (Ok _, t'') => (r, t'')
      | (Raise e, t'') => (Raise e, t'')
      end
  end.

Definition is_chat (ev : event) : bool :=
  match ev with
  | EvChat _ => true
  | _ => false
  end.

(** How many times the chat model was invoked along a trace. *)
Definition count_chat (t : list event) : nat := length (List.filter is_chat t).

End Effects.
Export Effects.

(** ** services/proactive_analysis_service.py *)

Module Analysis.

(** The dictionary both [_validate_analysis_result] and
    [_get_default_analysis] return: four fixed keys. *)
Record AnalysisResult : Type := mkAnalysis {
  anniversary_type : pyval;
  seasonal_tags : list pyval;
  proactive_score : pyval;
  reasoning : pyval
}.

Definition _get_default_analysis : AnalysisResult :=
  {| anniversary_type := VNone;
     seasonal_tags := [];
     proactive_score := VInt 0;
     reasoning := VStr "Analysis failed, using default values." |}.

Section Service.

(** [float(s)] on a string (decimal to binary64), [json.loads], and
    [client.chat(...)['message']['content']] for a given prompt. *)
Variable float_of_str : string → option spec_float.
Variable json_loads : string → res pyval.
Variable client_chat : string → res string.

Definition _construct_analysis_prompt (memory_title memory_description memory_type : string)
    (memory_date memory_location : option string) (people_present : option (list string)) : string :=
  let prompt := "You are a memory analysis AI. Analyze the given memory for proactive trigger potential based on Anniversary type, Seasonal relevance, and a Proactive score (0-5)." in
  let prompt := prompt +:+ nl +:+ nl +:+ "MEMORY TO ANALYZE:" in
  let prompt := prompt +:+ nl +:+ "Title: " +:+ dq +:+ memory_title +:+ dq in
  let prompt := prompt +:+ nl +:+ "Description: " +:+ dq +:+ memory_description +:+ dq in
  let prompt := prompt +:+ nl +:+ "Type: " +:+ memory_type in
  let prompt :=
    match memory_date with
    | Some (String c s) => prompt +:+ nl +:+ "Date: " +:+ String c s
    | _ => prompt
    end in
  let prompt :=
    match memory_location with
    | Some (String c s) => prompt +:+ nl +:+ "Location: " +:+ String c s
    | _ => prompt
    end in
  let prompt :=
    match people_present with
    | Some (p :: ps) => prompt +:+ nl +:+ "People Present: " +:+ join ", " (p :: ps)
    | _ => prompt
    end in
  prompt +:+ nl +:+ nl
    +:+ "ANNIVERSARY TYPES (select ONE or null): " +:+ dq +:+ "work" +:+ dq +:+ ", " +:+ dq +:+ "graduation" +:+ dq
    +:+ ", " +:+ dq +:+ "birthday" +:+ dq +:+ ", " +:+ dq +:+ "wedding" +:+ dq +:+ ", " +:+ dq +:+ "anniversary" +:+ dq
    +:+ ", " +:+ dq +:+ "retirement" +:+ dq +:+ ", " +:+ dq +:+ "death" +:+ dq +:+ "." +:+ nl
    +:+ "SEASONAL TAGS (only if EXPLICITLY mentioned): christmas, halloween, thanksgiving, birthday, vacation, summer, winter, etc." +:+ nl
    +:+ "PROACTIVE SCORE (0-5): 5 for major life events, 3 for holidays, 1 for casual events, 0 for mundane." +:+ nl +:+ nl
    +:+ "CRITICAL: Respond with ONLY a JSON object in this exact format:" +:+ nl
    +:+ "{" +:+ nl
    +:+ "  " +:+ dq +:+ "anniversary_type" +:+ dq +:+ ": " +:+ dq +:+ "work" +:+ dq +:+ "," +:+ nl
    +:+ "  " +:+ dq +:+ "seasonal_tags" +:+ dq +:+ ": [" +:+ dq +:+ "competition" +:+ dq +:+ ", " +:+ dq +:+ "sports" +:+ dq +:+ "]," +:+ nl
    +:+ "  " +:+ dq +:+ "proactive_score" +:+ dq +:+ ": 4," +:+ nl
    +:+ "  " +:+ dq +:+ "reasoning" +:+ dq +:+ ": " +:+ dq +:+ "Brief explanation of your analysis." +:+ dq +:+ nl
    +:+ "}".

(** Lines 89-108.  [raw_result] is the dictionary [json.loads] built. *)
Definition _validate_analysis_result (raw_result : gmap string pyval) : res AnalysisResult :=
  let anniversary_type := dict_get raw_result "anniversary_type" VNone in
  let anniversary_type := if eq_str anniversary_type "null" then VNone else anniversary_type in
  let seasonal_tags := dict_get raw_result "seasonal_tags" (VList []) in
  let seasonal_tags :=
    match seasonal_tags with
    | VList l => l
    | _ => []
    end in
  let proactive_score := dict_get raw_result "proactive_score" (VInt 0) in
  proactive_score ←
    try_except
      (f ← py_float float_of_str proactive_score;
       mret (py_max (VInt 0) (py_min (VInt 5) (VFloat f))))
      [ValueError; TypeError]
      (mret (VInt 0));
  mret {| anniversary_type := anniversary_type;
          seasonal_tags := take 3 seasonal_tags;
          proactive_score := proactive_score;
          reasoning := dict_get raw_result "reasoning" (VStr "No reasoning provided.") |}.

(** [raw_result.get(...)] on what [json.loads] returned: only a [dict] has
    [get]; on any other value the attribute lookup raises. *)
Definition validate_loaded (analysis_result : pyval) : res AnalysisResult :=
  match analysis_result with
  | VDict d => _validate_analysis_result d
  | _ => Raise AttributeError
  end.

(** Lines 59-87. *)
Definition analyze_memory (_is_ready : bool)
    (memory_title memory_description memory_type : string)
    (memory_date memory_location : option string) (people_present : option (list string))
    : M AnalysisResult :=
  if negb _is_ready then mret _get_default_analysis
  else
    try_catch
      (let prompt := _construct_analysis_prompt memory_title memory_description memory_type
                       memory_date memory_location people_present in
       raw_json ← call (EvChat prompt) (client_chat prompt);
       analysis_result ← lift (json_loads raw_json);
       lift (validate_loaded analysis_result))
      [(JSONDecodeError, λ e, mret _get_default_analysis);
       (Exception, λ e, mret _get_default_analysis)].

End Service.

(** *** The validation step in the words of the specification *)

(** What the validation step does with the score. *)
Definition score_of (float_of_str : string → option spec_float) (raw_result : gmap string pyval)
    : res pyval :=
  match py_float float_of_str (dict_get raw_result "proactive_score" (VInt 0)) with
  | Ok f => Ok (py_max (VInt 0) (py_min (VInt 5) (VFloat f)))
  | Raise OverflowError => Raise OverflowError
  | Raise _ => Ok (VInt 0)
  end.

(** The score of a reply is an integer too large for a float. *)
Definition score_overflows (d : gmap string pyval) : Prop :=
  ∃ z s, d !! "proactive_score" = Some (VInt z) ∧ Z2SF z = S754_infinity s.

End Analysis.

(** ** models/ai_models.py: the classes the chat service uses *)

Module MemoryContext.
Record t : Type := mk { memory_id : string; type : string; description : string }.
End MemoryContext.

Module PatientContext.
Record t : Type := mk { name : string; age : option Z; description : string }.
End PatientContext.

Module ChatRequest.
Record t : Type := mk {
  query : string;
  context_memories : list MemoryContext.t;
  patient_context : option PatientContext.t;
  conversation_type : option string
}.
End ChatRequest.

Module Scene.
Record t : Type := mk { memory_id : string; narration : string }.
End Scene.

(** [DirectorResponse = Union[CinematicShow, NarrativeResponse]]; the
    [response_type] field of each class is the constructor. *)
Inductive DirectorResponse : Type :=
| CinematicShow (show_title : string) (scenes : list Scene.t)
| NarrativeResponse (message : string).

(** ** services/chat_service.py *)

Module Chat.

Definition q (s : string) : string := dq +:+ s +:+ dq.

Definition photo_recognition_query : string :=
  "The user showed me a photo I recognize. Please describe the following memory to them in a warm, narrative style. Do not make it a cinematic show.".

(** [mem.type in ['photo', 'video']]. *)
Definition is_visual (mem : MemoryContext.t) : bool :=
  String.eqb (MemoryContext.type mem) "photo" || String.eqb (MemoryContext.type mem) "video".

(** [[mem for mem in request.context_memories if mem.type in ['photo', 'video']]]. *)
Definition visual_memories (request : ChatRequest.t) : list MemoryContext.t :=
  List.filter is_visual (ChatRequest.context_memories request).

(** Lines 50-69: the [if]/[elif] on the conversation type. *)
Definition mode_section (request : ChatRequest.t) (prompt : string) : string :=
  let conversation_type := ChatRequest.conversation_type request in
  if bool_decide (conversation_type = Some "casual") then
    let prompt := prompt +:+ nl +:+ nl +:+ "--- CASUAL CONVERSATION MODE ---" in
    let prompt := prompt +:+ nl +:+ "The user is having a casual conversation with no specific memories provided." in
    let prompt := prompt +:+ nl +:+ "Respond warmly and naturally using NARRATIVE format." in
    prompt +:+ nl +:+ "You can ask how they're feeling, what they'd like to talk about, or just be a friendly companion."
  else if bool_decide (conversation_type = Some "memory_based") then
    let prompt := prompt +:+ nl +:+ nl +:+ "--- MEMORY CONVERSATION MODE ---" in
    let prompt := prompt +:+ nl +:+ "The user is asking about memories. Relevant memories have been provided below." in
    let has_visual := existsb is_visual (ChatRequest.context_memories request) in
    if has_visual then
      let visual_count := length (List.filter is_visual (ChatRequest.context_memories request)) in
      let prompt := prompt +:+ nl +:+ "Since " +:+ pretty visual_count +:+ " visual memories (photos/videos) are available, use CINEMATIC format." in
      let prompt := prompt +:+ nl +:+ "You MUST create exactly " +:+ pretty visual_count +:+ " scenes - one for each visual memory provided." in
      prompt +:+ nl +:+ "DO NOT skip any memories. Include ALL " +:+ pretty visual_count +:+ " visual memories as separate scenes."
    else
      let prompt := prompt +:+ nl +:+ "Only text/voice memories are available, so use NARRATIVE format." in
      prompt +:+ nl +:+ "Weave the memory information naturally into your response."
  else prompt.

(** Lines 71-73. *)
Definition override_section (request : ChatRequest.t) (prompt : string) : string :=
  if String.eqb (ChatRequest.query request) photo_recognition_query then
    let prompt := prompt +:+ nl +:+ nl +:+ "--- PHOTO RECOGNITION OVERRIDE ---" in
    prompt +:+ nl +:+ "This is a specific photo the user showed. Use NARRATIVE format to describe this specific memory warmly."
  else prompt.

(** Lines 75-82. *)
Definition rules_section (prompt : string) : string :=
  let prompt := prompt +:+ nl +:+ nl +:+ "--- IMPORTANT RULES ---" in
  let prompt := prompt +:+ nl +:+ "- Base responses ONLY on the provided memory descriptions and Patient Status notes." in
  let prompt := prompt +:+ nl +:+ "- If a person's relationship is in parentheses (e.g., 'Kate (Daughter)'), use it in your narration, for example, by saying 'your daughter, Kate'." in
  let prompt := prompt +:+ nl +:+ "- CRITICAL: If any memory description refers to 'You', it means the patient. Treat 'You' as referring to the patient and respond accordingly." in
  let prompt := prompt +:+ nl +:+ "- For cinematic shows: memory_id must match exactly from the provided memories" in
  let prompt := prompt +:+ nl +:+ "- Show titles should be personal and address the patient in second person" in
  let prompt := prompt +:+ nl +:+ "- IMPORTANT: For video memories, keep the narration SHORT and concise. Video narrations should be brief and to the point." in
  prompt +:+ nl +:+ "- DO NOT hallucinate details not present in the memory descriptions".

(** Lines 84-91: returns [patient_name] and the extended prompt. *)
Definition patient_section (request : ChatRequest.t) (prompt : string) : string * string :=
  let patient_name := EmptyString in
  match ChatRequest.patient_context request with
  | Some patient_context =>
      let patient_name := PatientContext.name patient_context in
      let prompt := prompt +:+ nl +:+ nl +:+ "--- PATIENT INFO ---" +:+ nl +:+ "Name: " +:+ PatientContext.name patient_context in
      let prompt :=
        match PatientContext.age patient_context with
        | Some a => if (a =? 0)%Z then prompt else prompt +:+ nl +:+ "Age: " +:+ pretty a
        | None => prompt
        end in
      let prompt :=
        match PatientContext.description patient_context with
        | EmptyString => prompt
        | notes => prompt +:+ nl +:+ "Notes: " +:+ notes
        end in
      (patient_name, prompt)
  | None => (patient_name, prompt)
  end.

(** Lines 101-104, for a name and a description of ASCII characters (see
    [lower]). *)
Definition patient_is_present (patient_name : string) (mem : MemoryContext.t) : bool :=
  let description := lower (MemoryContext.description mem) in
  contains (lower patient_name) description
  || contains " you " description
  || startswith description "you "
  || endswith description " you".

(** Lines 96-109: the body of the loop over [enumerate(request.context_memories)]. *)
Definition memory_entry (patient_name : string) (prompt : string) (i : nat) (mem : MemoryContext.t) : string :=
  let prompt := prompt +:+ nl +:+ "Memory " +:+ pretty (i + 1)%nat +:+ " (ID: " +:+ MemoryContext.memory_id mem +:+ "):" in
  let prompt := prompt +:+ nl +:+ MemoryContext.description mem in
  let prompt :=
    match patient_name with
    | EmptyString => prompt
    | _ =>
        if patient_is_present patient_name mem then
          prompt +:+ nl +:+ "Patient Status: PRESENT. The patient, " +:+ patient_name +:+ ", is in this memory. You MUST refer to him as " +:+ q "you" +:+ "."
        else
          prompt +:+ nl +:+ "Patient Status: NOT PRESENT. The patient is NOT in this memory. You MUST refer to all people by their names."
    end in
  prompt +:+ nl.

(** Lines 114-117: the body of the loop over [enumerate(visual_memories)]. *)
Definition scene_entry (prompt : string) (i : nat) (mem : MemoryContext.t) : string :=
  let prompt := prompt +:+ nl +:+ "- Scene " +:+ pretty (i + 1)%nat +:+ ": memory_id '" +:+ MemoryContext.memory_id mem +:+ "' (" +:+ MemoryContext.type mem +:+ ")" in
  if String.eqb (MemoryContext.type mem) "video" then prompt +:+ " - KEEP NARRATION SHORT" else prompt.

(** A [for i, x in enumerate(xs)] loop that rebinds [prompt]. *)
Definition for_enumerate {A} (body : string → nat → A → string) (xs : list A) (prompt : string) : string :=
  foldl (λ prompt ix, body prompt ix.1 ix.2) prompt (enumerate xs).

(** Lines 93-121. *)
Definition memories_section (request : ChatRequest.t) (patient_name : string) (prompt : string) : string :=
  match ChatRequest.context_memories request with
  | _ :: _ =>
      let visual_memories := List.filter is_visual (ChatRequest.context_memories request) in
      let prompt := prompt +:+ nl +:+ nl +:+ "--- RELEVANT MEMORIES ---" in
      let prompt := for_enumerate (memory_entry patient_name) (ChatRequest.context_memories request) prompt in
      match visual_memories with
      | _ :: _ =>
          let prompt := prompt +:+ nl +:+ "--- MANDATORY SCENE CREATION ---" in
          let prompt := prompt +:+ nl +:+ "You MUST create " +:+ pretty (length visual_memories) +:+ " scenes using these exact memory IDs:" in
          let prompt := for_enumerate scene_entry visual_memories prompt in
          prompt +:+ nl +:+ "DO NOT create fewer than " +:+ pretty (length visual_memories) +:+ " scenes. Each visual memory MUST have its own scene."
      | [] => prompt
      end
  | [] =>
      let prompt := prompt +:+ nl +:+ nl +:+ "--- NO RELEVANT MEMORIES ---" in
      prompt +:+ nl +:+ "No specific memories were found related to this query."
  end.

(** Lines 123-128. *)
Definition respond_section (request : ChatRequest.t) (prompt : string) : string :=
  let prompt := prompt +:+ nl +:+ nl +:+ "--- RESPOND NOW ---" in
  let prompt := prompt +:+ nl +:+ "User Query: '" +:+ ChatRequest.query request +:+ "'" in
  if bool_decide (ChatRequest.conversation_type request = Some "casual") then
    prompt +:+ nl +:+ "Provide a warm, casual response using NARRATIVE format."
  else
    prompt +:+ nl +:+ "Provide an appropriate response based on the memories and rules above.".

(** Lines 43-48. *)
Definition preamble : string :=
  let prompt := "You are an AI assistant for a system called 'The Memory Palace', speaking to an elderly user with memory loss. Your tone must be warm, gentle, patient, and reassuring." in
  let prompt := prompt +:+ nl +:+ nl +:+ "--- JSON OUTPUT STRUCTURE ---" in
  let prompt := prompt +:+ nl +:+ "Your entire response MUST be a single, valid JSON object. Choose the appropriate format:" in
  let prompt := prompt +:+ nl +:+ "1. NARRATIVE: {" +:+ q "response_type" +:+ ": " +:+ q "narrative" +:+ ", " +:+ q "message" +:+ ": " +:+ q "Your response" +:+ "}" in
  prompt +:+ nl +:+ "2. CINEMATIC: {" +:+ q "response_type" +:+ ": " +:+ q "cinematic_show" +:+ ", " +:+ q "show_title" +:+ ": " +:+ q "Title" +:+ ", " +:+ q "scenes" +:+ ": [{" +:+ q "memory_id" +:+ ": " +:+ q "id" +:+ ", " +:+ q "narration" +:+ ": " +:+ q "text" +:+ "}]}".

(** Lines 40-131. *)
Definition _construct_prompt (request : ChatRequest.t) : string :=
  let prompt := preamble in
  let prompt := mode_section request prompt in
  let prompt := override_section request prompt in
  let prompt := rules_section prompt in
  let '(patient_name, prompt) := patient_section request prompt in
  let prompt := memories_section request patient_name prompt in
  respond_section request prompt.

(** *** The prompt in the words of the specification *)

Definition concat_all (xs : list string) : string := foldr String.append EmptyString xs.

(** The scene instruction for the [i]-th visual memory (counted from 0): its
    number, its identifier, its category, and the request for a short
    narration when it is a video. *)
Definition scene_instruction (i : nat) (mem : MemoryContext.t) : string :=
  nl +:+ "- Scene " +:+ pretty (S i) +:+ ": memory_id '" +:+ MemoryContext.memory_id mem
     +:+ "' (" +:+ MemoryContext.type mem +:+ ")"
     +:+ (if bool_decide (MemoryContext.type mem = "video") then " - KEEP NARRATION SHORT" else EmptyString).

(** The scene-creation block: one instruction per visual memory, in order. *)
Definition scene_block (visual : list MemoryContext.t) : string :=
  nl +:+ "--- MANDATORY SCENE CREATION ---"
     +:+ nl +:+ "You MUST create " +:+ pretty (length visual) +:+ " scenes using these exact memory IDs:"
     +:+ concat_all (imap scene_instruction visual)
     +:+ nl +:+ "DO NOT create fewer than " +:+ pretty (length visual) +:+ " scenes. Each visual memory MUST have its own scene.".

(** The override section for the photo-recognition query. *)
Definition override_text : string :=
  nl +:+ nl +:+ "--- PHOTO RECOGNITION OVERRIDE ---"
     +:+ nl +:+ "This is a specific photo the user showed. Use NARRATIVE format to describe this specific memory warmly.".

(** The sentences with which a prompt requires the cinematic format or the
    creation of scenes. *)
Definition cinematic_requirements : list string :=
  ["use CINEMATIC format."; "You MUST create"; "MANDATORY SCENE CREATION"].

Definition requires_cinematic (prompt : string) : bool :=
  existsb (λ sentence, contains sentence prompt) cinematic_requirements.

(** *** The reply of the model *)

Definition not_available_message : string :=
  "Error: The AI Director service is not available or the configured model is not installed.".

Definition apology_message : string :=
  "I'm sorry, I had a little trouble organizing my thoughts.".

Section Service.

(** The Ollama client and [json.loads], as in [Analysis], and the two
    coercions pydantic applies before it rejects a field (they differ between
    pydantic releases): [coerce_str] is consulted for a [str] field whose value
    is not a [str], [coerce_model] for a model field whose value is not a
    [dict]; both answer [None] to reject. *)
Variable json_loads : string → res pyval.
Variable client_chat : string → res string.
Variable coerce_str : pyval → option string.
Variable coerce_model : pyval → option (gmap string pyval).

(** A required field of a model built with [Model( **data)]. *)
Definition required (data : gmap string pyval) (key : string) : res pyval :=
  match data !! key with
  | Some v => Ok v
  | None => Raise ValidationError
  end.

Definition str_field (v : pyval) : res string :=
  match v with
  | VStr s => Ok s
  | _ =>
      match coerce_str v with
      | Some s => Ok s
      | None => Raise ValidationError
      end
  end.

(** [response_type: Literal[tag] = tag]: absent, or exactly the tag. *)
Definition literal_field (data : gmap string pyval) (key tag : string) : res unit :=
  match data !! key with
  | None => Ok tt
  | Some v => if eq_str v tag then Ok tt else Raise ValidationError
  end.

(** [Scene( **data)]: [memory_id: str], [narration: str]. *)
Definition Scene_init (data : gmap string pyval) : res Scene.t :=
  memory_id ← required data "memory_id" ≫= str_field;
  narration ← required data "narration" ≫= str_field;
  mret (Scene.mk memory_id narration).

(** One element of [scenes: List[Scene]]. *)
Definition scene_item (v : pyval) : res Scene.t :=
  match v with
  | VDict d => Scene_init d
  | _ =>
      match coerce_model v with
      | Some d => Scene_init d
      | None => Raise ValidationError
      end
  end.

Fixpoint scene_items (vs : list pyval) : res (list Scene.t) :=
  match vs with
  | [] => Ok []
  | v :: vs' =>
      match scene_item v, scene_items vs' with
      | Ok sc, Ok scs => Ok (sc :: scs)
      | _, _ => Raise ValidationError
      end
  end.

(** [CinematicShow( **data)]: [show_title: str], [scenes: List[Scene]]. *)
Definition CinematicShow_init (data : gmap string pyval) : res DirectorResponse :=
  literal_field data "response_type" "cinematic_show";;
  show_title ← required data "show_title" ≫= str_field;
  scenes ← required data "scenes";
  match scenes with
  | VList vs => scs ← scene_items vs; mret (CinematicShow show_title scs)
  | _ => Raise ValidationError
  end.

(** [NarrativeResponse( **data)]: [message: str]. *)
Definition NarrativeResponse_init (data : gmap string pyval) : res DirectorResponse :=
  literal_field data "response_type" "narrative";;
  message ← required data "message" ≫= str_field;
  mret (NarrativeResponse message).

(** What the model's reply is once parsed, for a given prompt. *)
Definition parsed_reply (prompt : string) : res pyval :=
  raw ← client_chat prompt; json_loads raw.

(** [response_data.get("response_type")]: only a [dict] has [get]. *)
Definition get_response_type (response_data : pyval) : res pyval :=
  match response_data with
  | VDict d => Ok (dict_get d "response_type" VNone)
  | _ => Raise AttributeError
  end.

(** Lines 153-160, after [json.loads]. *)
Definition interpret (response_data : pyval) : res DirectorResponse :=
  rt ← get_response_type response_data;
  match response_data with
  | VDict d =>
      if eq_str rt "cinematic_show" then CinematicShow_init d
      else if eq_str rt "narrative" then NarrativeResponse_init d
      else Raise ValueError
  | _ => Raise AttributeError
  end.

(** [stats.finish()] and the log line of the [finally] block: they read the
    clock and write the log, nothing else. *)
Definition stats_finish : M unit := mret tt.

(** Lines 133-167. *)
Definition generate_response (_is_ready : bool) (request : ChatRequest.t) : M DirectorResponse :=
  if negb _is_ready then mret (NarrativeResponse not_available_message)
  else
    let prompt := _construct_prompt request in
    try_finally
      (try_catch
         (raw_json_output ← call (EvChat prompt) (client_chat prompt);
          response_data ← lift (json_loads raw_json_output);
          lift (interpret response_data))
         [(Exception, λ e, mret (NarrativeResponse apology_message))])
      stats_finish.

End Service.

End Chat.

(** ** services/face_recognition_service.py *)

Module KnownFacePayload.
Record t : Type := mk { person_id : Z; name : string; avatar_base_64 : string }.
End KnownFacePayload.

(** The dictionaries [{"person_id": ..., "name": ...}] kept as metadata and
    returned as recognized people. *)
Module Person.
Record t : Type := mk { person_id : Z; name : string }.
End Person.

Module Face.

(** [tolerance=0.6], the binary64 nearest to 0.6. *)
Definition tolerance : spec_float := S754_finite false 5404319552844595 (-53).

Section Service.

(** [base64.b64decode], and from [face_recognition]: [load_image_file],
    [face_locations] (with the service's model), [face_encodings] (with or
    without given locations) and [face_distance], the Euclidean distance
    that [compare_faces] thresholds. *)
Context {bytes image location encoding : Type}.
Variable b64decode : string → res bytes.
Variable load_image_file : bytes → res image.
Variable face_locations : image → res (list location).
Variable face_encodings : image → option (list location) → res (list encoding).
Variable face_distance : encoding → encoding → spec_float.

(** [face_recognition.compare_faces(known, face, tolerance)]:
    [list(face_distance(known, face) <= tolerance)]. *)
Definition compare_faces (known_face_encodings : list encoding) (face_encoding : encoding)
    (tol : spec_float) : list bool :=
  map (λ known, SFleb (face_distance known face_encoding) tol) known_face_encodings.

(** Lines 45-47, the three calls on one avatar. *)
Definition avatar_encodings_of (person_data : KnownFacePayload.t) : M (list encoding) :=
  avatar_bytes ← call (EvB64decode (KnownFacePayload.avatar_base_64 person_data))
                   (b64decode (KnownFacePayload.avatar_base_64 person_data));
  avatar_image ← call EvLoadImage (load_image_file avatar_bytes);
  call EvFaceEncodings (face_encodings avatar_image None).

(** Lines 43-52: the loop that fills [known_face_encodings] and
    [known_face_metadata]; an avatar that fails is logged and skipped. *)
Fixpoint load_known (known_faces_payload : list KnownFacePayload.t)
    (known_face_encodings : list encoding) (known_face_metadata : list Person.t)
    : M (list encoding * list Person.t) :=
  match known_faces_payload with
  | [] => mret (known_face_encodings, known_face_metadata)
  | person_data :: rest =>
      '(known_face_encodings, known_face_metadata) ←
        try_catch
          (avatar_encodings ← avatar_encodings_of person_data;
           match avatar_encodings with
           | first :: _ =>
               mret (known_face_encodings ++ [first],
                     known_face_metadata ++
                       [Person.mk (KnownFacePayload.person_id person_data)
                                  (KnownFacePayload.name person_data)])
           | [] => mret (known_face_encodings, known_face_metadata)
           end)
          [(Exception, λ e, mret (known_face_encodings, known_face_metadata))];
      load_known rest known_face_encodings known_face_metadata
  end.

(** Lines 58-61, the four calls on the photo to check. *)
Definition unknown_encodings_of (photo_to_check_base64 : string) : M (list encoding) :=
  unknown_image_bytes ← call (EvB64decode photo_to_check_base64) (b64decode photo_to_check_base64);
  unknown_image ← call EvLoadImage (load_image_file unknown_image_bytes);
  unknown_face_locations ← call EvFaceLocations (face_locations unknown_image);
  call EvFaceEncodings (face_encodings unknown_image (Some unknown_face_locations)).

(** [matches.index(True)]. *)
Fixpoint index_true (matches : list bool) : option nat :=
  match matches with
  | [] => None
  | true :: _ => Some 0%nat
  | false :: rest => S <$> index_true rest
  end.

(** [any(p['person_id'] == person_id for p in recognized_people)]. *)
Definition already_recognized (person_id : Z) (recognized_people : list Person.t) : bool :=
  existsb (λ p, (Person.person_id p =? person_id)%Z) recognized_people.

(** Lines 68-74: the body of the loop over the faces of the photo. *)
Definition match_face (known_face_encodings : list encoding) (known_face_metadata : list Person.t)
    (recognized_people : list Person.t) (face_encoding : encoding) : M (list Person.t) :=
  matches ← call EvCompareFaces (Ok (compare_faces known_face_encodings face_encoding tolerance));
  if existsb (λ b : bool, b) matches then
    match index_true matches with
    | None => raise ValueError
    | Some first_match_index =>
        match known_face_metadata !! first_match_index with
        | None => raise IndexError
        | Some match_metadata =>
            let person_id := Person.person_id match_metadata in
            if negb (already_recognized person_id recognized_people) then
              mret (recognized_people ++ [Person.mk person_id (Person.name match_metadata)])
            else mret recognized_people
        end
    end
  else mret recognized_people.

Fixpoint match_faces (known_face_encodings : list encoding) (known_face_metadata : list Person.t)
    (unknown_face_encodings : list encoding) (recognized_people : list Person.t) : M (list Person.t) :=
  match unknown_face_encodings with
  | [] => mret recognized_people
  | face_encoding :: rest =>
      recognized_people ← match_face known_face_encodings known_face_metadata recognized_people face_encoding;
      match_faces known_face_encodings known_face_metadata rest recognized_people
  end.

(** Lines 35-75. *)
Definition identify_people (_is_ready : bool) (photo_to_check_base64 : string)
    (known_faces_payload : list KnownFacePayload.t) : M (list Person.t) :=
  if negb _is_ready then raise (RuntimeError "Face Recognition service is not ready.")
  else
    match known_faces_payload with
    | [] => mret []
    | _ :: _ =>
        '(known_face_encodings, known_face_metadata) ← load_known known_faces_payload [] [];
        match known_face_encodings with
        | [] => mret []
        | _ :: _ =>
            processed ←
              try_catch
                (unknown_face_encodings ← unknown_encodings_of photo_to_check_base64;
                 mret (Some unknown_face_encodings))
                [(Exception, λ e, mret None)];
            match processed with
            | None => mret []
            | Some unknown_face_encodings =>
                match_faces known_face_encodings known_face_metadata unknown_face_encodings []
            end
        end
    end.

(** *** The matching in the words of the specification *)

(** The outcome of decoding, loading and encoding an avatar, and of
    decoding, loading, locating and encoding the photo to check. *)
Definition avatar_result (person_data : KnownFacePayload.t) : res (list encoding) :=
  avatar_bytes ← b64decode (KnownFacePayload.avatar_base_64 person_data);
  avatar_image ← load_image_file avatar_bytes;
  face_encodings avatar_image None.

Definition probe_result (photo_to_check_base64 : string) : res (list encoding) :=
  unknown_image_bytes ← b64decode photo_to_check_base64;
  unknown_image ← load_image_file unknown_image_bytes;
  unknown_face_locations ← face_locations unknown_image;
  face_encodings unknown_image (Some unknown_face_locations).

(** The references retained: those whose image yielded a face encoding, in
    the order of the list, each with its first encoding and its identity. *)
Definition retained_reference (person_data : KnownFacePayload.t) : option (encoding * Person.t) :=
  match avatar_result person_data with
  | Ok (first :: _) =>
      Some (first, Person.mk (KnownFacePayload.person_id person_data)
                             (KnownFacePayload.name person_data))
  | _ => None
  end.

Definition retained (known_faces_payload : list KnownFacePayload.t) : list (encoding * Person.t) :=
  omap retained_reference known_faces_payload.

(** The comparison at the fixed tolerance. *)
Definition within_tolerance (known face : encoding) : bool :=
  SFleb (face_distance known face) tolerance.

(** The first reference, in reference order, that matches a face. *)
Definition first_match (refs : list (encoding * Person.t)) (face : encoding) : option Person.t :=
  snd <$> List.find (λ ref, within_tolerance ref.1 face) refs.

(** Keep, of each identity, the first occurrence only. *)
Fixpoint first_occurrences (seen : list Z) (people : list Person.t) : list Person.t :=
  match people with
  | [] => []
  | p :: rest =>
      if bool_decide (Person.person_id p ∈ seen) then first_occurrences seen rest
      else p :: first_occurrences (seen ++ [Person.person_id p]) rest
  end.

(** Record the match of one face unless its identity is recorded already. *)
Definition record_match (recognized_people : list Person.t) (matched : option Person.t)
    : list Person.t :=
  match matched with
  | Some p =>
      if already_recognized (Person.person_id p) recognized_people then recognized_people
      else recognized_people ++ [p]
  | None => recognized_people
  end.

(** The identities recognized in a photo whose faces are [faces]. *)
Definition recognized (refs : list (encoding * Person.t)) (faces : list encoding) : list Person.t :=
  first_occurrences [] (omap (first_match refs) faces).

End Service.

End Face.

(** ** services/vision_service.py *)

Module Vision.

Definition artifact_prefix : string := "arafed image of".

(** Lines 71-74: what is done to the decoded caption, for a caption of
    ASCII characters (see [lower], [strip] and [capitalize]). *)
Definition clean_caption (caption : string) : string :=
  let caption :=
    if startswith (lower caption) artifact_prefix
    then strip (drop_string (String.length artifact_prefix) caption)
    else caption in
  capitalize caption.

Section Service.

(** Lines 61-69 as one call: open the image, run the processor and the
    model, decode the first output. *)
Variable blip_caption : list Byte.byte → res string.

(** Lines 55-81; the [except] clause logs the exception and raises it
    again. *)
Definition generate_caption (_is_ready has_model has_processor : bool)
    (image_bytes : list Byte.byte) : M string :=
  if negb _is_ready || negb has_model || negb has_processor
  then raise (RuntimeError "Vision service is not ready.")
  else
    try_catch
      (caption ← call EvCaption (blip_caption image_bytes);
       mret (clean_caption caption))
      [(Exception, λ e, raise e)].

End Service.

(** *** The clean-up in the words of the specification *)



Fixpoint all_space (s : string) : bool :=
  match s with
  | EmptyString => true
  | String c s' => is_space c && all_space s'
  end.



End Vision.

(** ** Concrete replies and stand-ins for the external calls

    Used to run the services on explicit inputs. *)

Module Scenario.

(** A [float(s)] that reads unsigned decimal integers ("4", "12") and
    rejects every other string: a stand-in for the builtin, enough to run
    the validation on concrete replies. *)
Fixpoint digits_value (s : string) (acc : Z) : option Z :=
  match s with
  | EmptyString => Some acc
  | String c s' =>
      let n := nat_of_ascii c in
      if (48 <=? n)%nat && (n <=? 57)%nat
      then digits_value s' (10 * acc + Z.of_nat (n - 48))%Z
      else None
  end.

Definition float_of_digits (s : string) : option spec_float :=
  match s with
  | EmptyString => None
  | _ => Z2SF <$> digits_value s 0
  end.

(** A [json.loads] given by a table of replies; any other text is rejected. *)
Fixpoint loads_from (table : list (string * pyval)) (raw : string) : res pyval :=
  match table with
  | [] => Raise JSONDecodeError
  | (text, v) :: rest => if String.eqb raw text then Ok v else loads_from rest raw
  end.

(** A chat model that answers every prompt the same way. *)
Definition chat_const (reply : res string) : string → res string := λ _, reply.

(** pydantic without lax coercions. *)
Definition no_str : pyval → option string := λ _, None.
Definition no_model : pyval → option (gmap string pyval) := λ _, None.

Definition narrative_hi_raw : string :=
  "{" +:+ Chat.q "response_type" +:+ ":" +:+ Chat.q "narrative" +:+ "," +:+ Chat.q "message" +:+ ":" +:+ Chat.q "Hi" +:+ "}".
Definition narrative_hi : gmap string pyval :=
  <["response_type" := VStr "narrative"]> (<["message" := VStr "Hi"]> ∅).

Definition cinematic_bare_raw : string :=
  "{" +:+ Chat.q "response_type" +:+ ":" +:+ Chat.q "cinematic_show" +:+ "}".
Definition cinematic_bare : gmap string pyval :=
  <["response_type" := VStr "cinematic_show"]> ∅.

Definition cinematic_one_raw : string :=
  "{" +:+ Chat.q "response_type" +:+ ":" +:+ Chat.q "cinematic_show" +:+ "," +:+ Chat.q "show_title" +:+ ":" +:+ Chat.q "Your day" +:+ ","
      +:+ Chat.q "scenes" +:+ ":[{" +:+ Chat.q "memory_id" +:+ ":" +:+ Chat.q "m1" +:+ "," +:+ Chat.q "narration" +:+ ":" +:+ Chat.q "The sea" +:+ "}]}".
Definition cinematic_one : gmap string pyval :=
  <["response_type" := VStr "cinematic_show"]>
    (<["show_title" := VStr "Your day"]>
       (<["scenes" := VList [VDict (<["memory_id" := VStr "m1"]> (<["narration" := VStr "The sea"]> ∅))]]> ∅)).

Definition malformed_raw : string := "{not json".

(** A reply whose score is the integer 10^400, beyond every binary64. *)
Definition overflow_raw : string :=
  "{" +:+ Chat.q "anniversary_type" +:+ ":" +:+ Chat.q "work" +:+ "," +:+ Chat.q "seasonal_tags" +:+ ":[" +:+ Chat.q "summer" +:+ "],"
      +:+ Chat.q "proactive_score" +:+ ":" +:+ pretty (10 ^ 400)%Z +:+ "}".
Definition overflow_reply : gmap string pyval :=
  <["anniversary_type" := VStr "work"]>
    (<["seasonal_tags" := VList [VStr "summer"]]>
       (<["proactive_score" := VInt (10 ^ 400)]> ∅)).

(** A reply with a score out of range and tags that are no list. *)
Definition out_of_range_reply : gmap string pyval :=
  <["proactive_score" := VInt 9]> (<["seasonal_tags" := VStr "not-a-list"]> ∅).

(** A reply with five tags and the score as a string. *)
Definition five_tags_reply : gmap string pyval :=
  <["proactive_score" := VStr "4"]>
    (<["seasonal_tags" := VList [VStr "a"; VStr "b"; VStr "c"; VStr "d"; VStr "e"]]>
       (<["anniversary_type" := VStr "null"]> ∅)).

(** A reply with an anniversary label outside the prompt's list. *)
Definition promotion_raw : string :=
  "{" +:+ Chat.q "anniversary_type" +:+ ":" +:+ Chat.q "promotion" +:+ "," +:+ Chat.q "proactive_score" +:+ ":9}".
Definition promotion_reply : gmap string pyval :=
  <["anniversary_type" := VStr "promotion"]> (<["proactive_score" := VInt 9]> ∅).

Definition json_loads : string → res pyval :=
  loads_from [(narrative_hi_raw, VDict narrative_hi);
              (cinematic_bare_raw, VDict cinematic_bare);
              (cinematic_one_raw, VDict cinematic_one);
              (overflow_raw, VDict overflow_reply);
              (promotion_raw, VDict promotion_reply)].

(** A toy face library: an image is a text, every character of it is a face,
    the encoding of a face is its character code, and two encodings are at a
    distance of a tenth of their difference. *)
Definition b64decode (data : string) : res string :=
  if String.eqb data "not base64" then Raise ValueError else Ok data.
Definition load_image_file (data : string) : res string :=
  if String.eqb data "not an image" then Raise (RuntimeError "cannot identify image file")
  else Ok data.
Definition face_locations (img : string) : res (list nat) := Ok (seq 0 (String.length img)).
Definition face_encodings (img : string) (locs : option (list nat)) : res (list Z) :=
  Ok ((λ c, Z.of_nat (nat_of_ascii c)) <$> list_ascii_of_string img).
Definition face_distance (a b : Z) : spec_float :=
  SFdiv prec emax (Z2SF (Z.abs (a - b))) (Z2SF 10).

Definition known_faces : list KnownFacePayload.t :=
  [KnownFacePayload.mk 1 "Eve" "e";
   KnownFacePayload.mk 2 "Bob" "b";
   KnownFacePayload.mk 3 "Zed" "not base64";
   KnownFacePayload.mk 4 "Ann" EmptyString].

(** Chat requests. *)
Definition beach : MemoryContext.t := MemoryContext.mk "m1" "photo" "Kate at the beach".
Definition party : MemoryContext.t := MemoryContext.mk "m2" "video" "A birthday party".
Definition letter : MemoryContext.t := MemoryContext.mk "m3" "text" "A letter from Tom".

Definition casual_with_photo : ChatRequest.t :=
  ChatRequest.mk "How are you today?" [beach] None (Some "casual").
Definition override_with_photo : ChatRequest.t :=
  ChatRequest.mk Chat.photo_recognition_query [beach] None (Some "memory_based").
Definition memory_request : ChatRequest.t :=
  ChatRequest.mk "Tell me about last summer" [beach; letter; party] None (Some "memory_based").

End Scenario.

(** ** The returned dictionaries and the prescribed reply shapes *)

Module Shapes.

(** The dictionary [_validate_analysis_result] returns, key by key
    (lines 103-108). *)
Definition analysis_dict (r : Analysis.AnalysisResult) : gmap string pyval :=
  <["anniversary_type" := Analysis.anniversary_type r]>
    (<["seasonal_tags" := VList (Analysis.seasonal_tags r)]>
       (<["proactive_score" := Analysis.proactive_score r]>
          (<["reasoning" := Analysis.reasoning r]> ∅))).

(** The two reply shapes the director's prompt prescribes (lines 47-48 of
    chat_service.py): [{"response_type": "narrative", "message": ...}] and
    [{"response_type": "cinematic_show", "show_title": ..., "scenes":
    [{"memory_id": ..., "narration": ...}]}]. *)
Definition scene_dict (sc : Scene.t) : pyval :=
  VDict (<["memory_id" := VStr (Scene.memory_id sc)]>
           (<["narration" := VStr (Scene.narration sc)]> ∅)).

Definition response_dict (r : DirectorResponse) : gmap string pyval :=
  match r with
  | NarrativeResponse message =>
      <["response_type" := VStr "narrative"]> (<["message" := VStr message]> ∅)
  | CinematicShow show_title scenes =>
      <["response_type" := VStr "cinematic_show"]>
        (<["show_title" := VStr show_title]>
           (<["scenes" := VList (scene_dict <$> scenes)]> ∅))
  end.

(** The scores the validation step can return: the integers 0 and 5, and
    the floats strictly between them. *)
Definition validated_score (v : pyval) : Prop :=
  v = VInt 0 ∨ v = VInt 5
  ∨ ∃ f, v = VFloat f ∧ SFltb f (Z2SF 5) = true ∧ SFltb (Z2SF 0) f = true.

(** The score lies in [0, 5]. *)
Definition score_in_range (v : pyval) : Prop :=
  num_le (VInt 0) v = true ∧ num_le v (VInt 5) = true.

End Shapes.

(** ** The parts of the director's prompt, written out *)

Module PromptShapes.
Import Chat.

(** The name the memories section works with: the patient's, or the empty
    string without a patient context (lines 84-86). *)
Definition patient_name_of (request : ChatRequest.t) : string :=
  match ChatRequest.patient_context request with
  | Some patient_context => PatientContext.name patient_context
  | None => EmptyString
  end.

(** The status line of a memory, absent without a patient name. *)
Definition status_line (patient_name : string) (mem : MemoryContext.t) : string :=
  match patient_name with
  | EmptyString => EmptyString
  | _ =>
      if patient_is_present patient_name mem then
        nl +:+ "Patient Status: PRESENT. The patient, " +:+ patient_name
           +:+ ", is in this memory. You MUST refer to him as " +:+ q "you" +:+ "."
      else
        nl +:+ "Patient Status: NOT PRESENT. The patient is NOT in this memory. You MUST refer to all people by their names."
  end.

(** The entry of the [i]-th context memory (counted from 0). *)
Definition listed_memory (patient_name : string) (i : nat) (mem : MemoryContext.t) : string :=
  nl +:+ "Memory " +:+ pretty (S i) +:+ " (ID: " +:+ MemoryContext.memory_id mem +:+ "):"
     +:+ nl +:+ MemoryContext.description mem
     +:+ status_line patient_name mem +:+ nl.

(** The last line of the prompt. *)
Definition closing_instruction (request : ChatRequest.t) : string :=
  if bool_decide (ChatRequest.conversation_type request = Some "casual")
  then "Provide a warm, casual response using NARRATIVE format."
  else "Provide an appropriate response based on the memories and rules above.".

End PromptShapes.

(** ** The calls of the avatar loop *)

Module FaceTrace.

(** An event the loop over the known faces can log: the decoding of one of
    the avatars given, the loading of an image, the encoding of its faces. *)
Definition avatar_event (known_faces_payload : list KnownFacePayload.t) (ev : event) : Prop :=
  match ev with
  | EvB64decode data => data ∈ (KnownFacePayload.avatar_base_64 <$> known_faces_payload)
  | EvLoadImage | EvFaceEncodings => True
  | _ => False
  end.

End FaceTrace.

(** ** The service objects and their construction *)

Module Services.

(** What each constructor leaves in the object, as far as the methods look
    at it.  [__init__] sets the fields and calls [_initialize]; the argument
    of each constructor is the outcome of the loading done inside the [try]
    of [_initialize]. *)
Record ChatService : Type := mkChat { chat_is_ready : bool }.
Record ProactiveAnalysisService : Type := mkProactive { proactive_is_ready : bool }.
Record VisionService : Type :=
  mkVision { vision_is_ready : bool; vision_model : bool; vision_processor : bool }.
Record TranscriptionService : Type := mkTranscription { transcription_is_ready : bool; pipe : bool }.
Record FaceRecognitionService : Type := mkFace { face_is_ready : bool }.
Record EmbeddingService : Type := mkEmbedding { embedding_is_ready : bool }.
Record TtsService : Type := mkTts { tts_is_ready : bool; _model : bool }.

(** chat_service.py, lines 17-35: a failure is logged, the object stays, not
    ready. *)
Definition new_ChatService (show : res unit) : ChatService :=
  match show with
  | Ok _ => mkChat true
  | Raise _ => mkChat false
  end.

(** proactive_analysis_service.py, lines 11-27. *)
Definition new_ProactiveAnalysisService (show : res unit) : ProactiveAnalysisService :=
  match show with
  | Ok _ => mkProactive true
  | Raise _ => mkProactive false
  end.

(** vision_service.py, lines 16-49: the processor is loaded, then the model;
    the [except] clause logs and raises again, so a failure leaves the
    constructor with the exception. *)
Definition new_VisionService (load_processor load_model : res unit) : res VisionService :=
  match load_processor with
  | Raise e => Raise e
  | Ok _ =>
      match load_model with
      | Raise e => Raise e
      | Ok _ => Ok (mkVision true true true)
      end
  end.

(** transcription_service.py, lines 14-42. *)
Definition new_TranscriptionService (load : res unit) : TranscriptionService :=
  match load with
  | Ok _ => mkTranscription true true
  | Raise _ => mkTranscription false false
  end.

(** face_recognition_service.py, lines 18-30. *)
Definition new_FaceRecognitionService (probe : res unit) : FaceRecognitionService :=
  match probe with
  | Ok _ => mkFace true
  | Raise _ => mkFace false
  end.

(** embedding_service.py, lines 11-29. *)
Definition new_EmbeddingService (load : res unit) : EmbeddingService :=
  match load with
  | Ok _ => mkEmbedding true
  | Raise _ => mkEmbedding false
  end.

(** tts_service.py, lines 13-29: the [except] clause raises again. *)
Definition new_TtsService (load : res unit) : res TtsService :=
  match load with
  | Ok _ => Ok (mkTts true true)
  | Raise e => Raise e
  end.

End Services.

(** ** app.py *)

Module App.
Import Services.

(** The outcomes of the loading each constructor attempts. *)
Record Loads : Type := mkLoads {
  load_chat : res unit;
  load_proactive : res unit;
  load_vision_processor : res unit;
  load_vision_model : res unit;
  load_transcription : res unit;
  load_face : res unit;
  load_embedding : res unit;
  load_tts : res unit
}.

(** The global service variables, [None] until assigned (lines 50-56). *)
Record Globals : Type := mkGlobals {
  chat_service : option ChatService;
  proactive_analysis_service : option ProactiveAnalysisService;
  vision_service : option VisionService;
  transcription_service : option TranscriptionService;
  face_recognition_service : option FaceRecognitionService;
  embedding_service : option EmbeddingService;
  tts_service : option TtsService
}.

Definition no_services : Globals := mkGlobals None None None None None None None.

(** Lines 59-82, up to the [yield]: the seven assignments in order inside one
    [try]; an exception ends them and is logged, the application starts all
    the same. *)
Definition lifespan (loads : Loads) : Globals :=
  let chat_service := Some (new_ChatService (load_chat loads)) in
  let proactive_analysis_service := Some (new_ProactiveAnalysisService (load_proactive loads)) in
  match new_VisionService (load_vision_processor loads) (load_vision_model loads) with
  | Raise _ => mkGlobals chat_service proactive_analysis_service None None None None None
  | Ok vision =>
      let vision_service := Some vision in
      let transcription_service := Some (new_TranscriptionService (load_transcription loads)) in
      let face_recognition_service := Some (new_FaceRecognitionService (load_face loads)) in
      let embedding_service := Some (new_EmbeddingService (load_embedding loads)) in
      match new_TtsService (load_tts loads) with
      | Raise _ =>
          mkGlobals chat_service proactive_analysis_service vision_service transcription_service
            face_recognition_service embedding_service None
      | Ok tts =>
          mkGlobals chat_service proactive_analysis_service vision_service transcription_service
            face_recognition_service embedding_service (Some tts)
      end
  end.

(** [svc.is_ready() if svc else False]. *)
Definition ready_if {S} (is_ready : S → bool) (svc : option S) : bool :=
  match svc with
  | Some s => is_ready s
  | None => false
  end.

(** [HealthResponse], without its timestamp (a reading of the clock). *)
Record HealthResponse : Type := mkHealth {
  status : string;
  services : list (string * bool);
  version : string
}.

(** Lines 97-116. *)
Definition health_check (g : Globals) : HealthResponse :=
  let services_status :=
    [("chat_conversation", ready_if chat_is_ready (chat_service g));
     ("proactive_analysis", ready_if proactive_is_ready (proactive_analysis_service g));
     ("blip_vision", ready_if vision_is_ready (vision_service g));
     ("whisper_transcription", ready_if transcription_is_ready (transcription_service g));
     ("face_recognition", ready_if face_is_ready (face_recognition_service g));
     ("nomic_embedding", ready_if embedding_is_ready (embedding_service g));
     ("gtts_tts", ready_if tts_is_ready (tts_service g))] in
  let all_healthy := forallb (λ entry, entry.2) services_status in
  {| status := if all_healthy then "healthy" else "degraded";
     services := services_status;
     version := "5.0.0" |}.

(** What a route answers: a body (status 200), or an error with its status
    code and detail, which is the form of an [HTTPException] and of the JSON
    response of the global handler. *)
Inductive answer (A : Type) : Type :=
| Respond (body : A)
| HTTPException (status_code : nat) (detail : string).
Arguments Respond {A} body.
Arguments HTTPException {A} status_code detail.

(** [MemoryAnalysisResponse] (models/ai_models.py, lines 35-39). *)
Record MemoryAnalysisResponse : Type := mkResponse {
  anniversary_type : option string;
  seasonal_tags : list string;
  proactive_score : spec_float;
  reasoning : string
}.

(** The bodies of the recognition and captioning routes. *)
Record Recognition : Type := mkRecognition { recognized_people : list Person.t }.
Record Description : Type := mkDescription { caption : string }.

Section Routes.

(** The external calls of the services, as in their modules; [str(e)] for an
    exception; and pydantic's coercion for a [float] field whose value is
    neither a float nor an integer a float can hold. *)
Variable float_of_str : string → option spec_float.
Variable json_loads : string → res pyval.
Variable director_chat : string → res string.
Variable analysis_chat : string → res string.
Variable coerce_str : pyval → option string.
Variable coerce_model : pyval → option (gmap string pyval).
Variable coerce_float : pyval → option spec_float.
Variable exn_text : exn → string.
Context {bytes image location encoding : Type}.
Variable b64decode : string → res bytes.
Variable load_image_file : bytes → res image.
Variable face_locations : image → res (list location).
Variable face_encodings : image → option (list location) → res (list encoding).
Variable face_distance : encoding → encoding → spec_float.
Variable blip_caption : list Byte.byte → res string.

(** Lines 119-131. *)
Definition chat (g : Globals) (request : ChatRequest.t) : M (answer DirectorResponse) :=
  match chat_service g with
  | None => mret (HTTPException 503 "Conversation service is not available.")
  | Some svc =>
      if negb (chat_is_ready svc)
      then mret (HTTPException 503 "Conversation service is not available.")
      else
        response ← Chat.generate_response json_loads director_chat coerce_str coerce_model
                     (chat_is_ready svc) request;
        mret (Respond response)
  end.

(** A field [Optional[str] = None], [List[str] = []], [float = 0.0] and
    [str = ""] of a model built with [Model( **data)]. *)
Definition optional_str_field (data : gmap string pyval) (key : string) : res (option string) :=
  match data !! key with
  | None | Some VNone => Ok None
  | Some v => s ← Chat.str_field coerce_str v; mret (Some s)
  end.

Fixpoint str_items (vs : list pyval) : res (list string) :=
  match vs with
  | [] => Ok []
  | v :: vs' =>
      match Chat.str_field coerce_str v, str_items vs' with
      | Ok s, Ok ss => Ok (s :: ss)
      | _, _ => Raise ValidationError
      end
  end.

Definition str_list_field (data : gmap string pyval) (key : string) : res (list string) :=
  match data !! key with
  | None => Ok []
  | Some (VList vs) => str_items vs
  | Some _ => Raise ValidationError
  end.

Definition float_value (v : pyval) : res spec_float :=
  let lax :=
    match coerce_float v with
    | Some f => Ok f
    | None => Raise ValidationError
    end in
  match v with
  | VFloat f => Ok f
  | VInt z =>
      match Z2SF z with
      | S754_infinity _ => lax
      | f => Ok f
      end
  | _ => lax
  end.

Definition float_field (data : gmap string pyval) (key : string) : res spec_float :=
  match data !! key with
  | None => Ok (Z2SF 0)
  | Some v => float_value v
  end.

Definition str_default_field (data : gmap string pyval) (key : string) : res string :=
  match data !! key with
  | None => Ok EmptyString
  | Some v => Chat.str_field coerce_str v
  end.

(** [MemoryAnalysisResponse( **result)]. *)
Definition MemoryAnalysisResponse_init (data : gmap string pyval) : res MemoryAnalysisResponse :=
  anniversary_type ← optional_str_field data "anniversary_type";
  seasonal_tags ← str_list_field data "seasonal_tags";
  proactive_score ← float_field data "proactive_score";
  reasoning ← str_default_field data "reasoning";
  mret (mkResponse anniversary_type seasonal_tags proactive_score reasoning).

(** Lines 134-162; [request] holds the six fields of [MemoryAnalysisRequest]. *)
Definition analyze_memory (g : Globals)
    (title description type : string) (date location : option string)
    (people_present : option (list string)) : M (answer MemoryAnalysisResponse) :=
  match proactive_analysis_service g with
  | None => mret (HTTPException 503 "Memory analysis service is not available.")
  | Some svc =>
      if negb (proactive_is_ready svc)
      then mret (HTTPException 503 "Memory analysis service is not available.")
      else
        try_catch
          (result ← Analysis.analyze_memory float_of_str json_loads analysis_chat
                      (proactive_is_ready svc) title description type date location
                      people_present;
           body ← lift (MemoryAnalysisResponse_init (Shapes.analysis_dict result));
           mret (Respond body))
          [(Exception, λ e, mret (HTTPException 500 (exn_text e)))]
  end.

(** Lines 208-220: no [try] here, what the service raises leaves the route. *)
Definition describe_image (g : Globals) (image_bytes : list Byte.byte) : M (answer Description) :=
  match vision_service g with
  | None => mret (HTTPException 503 "Image captioning service is not available.")
  | Some svc =>
      if negb (vision_is_ready svc)
      then mret (HTTPException 503 "Image captioning service is not available.")
      else
        caption ← Vision.generate_caption blip_caption (vision_is_ready svc) (vision_model svc)
                    (vision_processor svc) image_bytes;
        mret (Respond (mkDescription caption))
  end.

(** Lines 242-259. *)
Definition recognize_people_in_photo (g : Globals) (photo_to_check_base64 : string)
    (known_faces : list KnownFacePayload.t) : M (answer Recognition) :=
  match face_recognition_service g with
  | None => mret (HTTPException 503 "Face recognition service is not available.")
  | Some svc =>
      if negb (face_is_ready svc)
      then mret (HTTPException 503 "Face recognition service is not available.")
      else
        try_catch
          (recognized_people ←
             Face.identify_people b64decode load_image_file face_locations face_encodings
               face_distance (face_is_ready svc) photo_to_check_base64 known_faces;
           mret (Respond (mkRecognition recognized_people)))
          [(Exception, λ e, mret (HTTPException 500 (exn_text e)))]
  end.

(** Lines 262-268: the handler of the exceptions no route handled. *)
Definition global_exception_handler {A} (exc : exn) : answer A :=
  HTTPException 500 ("Internal server error: " +:+ exn_text exc).

(** A route as served: its answer, or the global handler's. *)
Definition served {A} (route : M (answer A)) : M (answer A) :=
  try_catch route [(Exception, λ exc, mret (global_exception_handler exc))].

End Routes.

End App.

(** ** Start-up outcomes and sample applications *)

Module Samples.
Import App.

Definition succeeded {A} (r : res A) : bool :=
  match r with
  | Ok _ => true
  | Raise _ => false
  end.

(** The response model's form of the default analysis. *)
Definition typed_default : MemoryAnalysisResponse :=
  {| anniversary_type := None;
     seasonal_tags := [];
     proactive_score := Z2SF 0;
     reasoning := "Analysis failed, using default values." |}.

Definition all_loaded : Loads :=
  mkLoads (Ok tt) (Ok tt) (Ok tt) (Ok tt) (Ok tt) (Ok tt) (Ok tt) (Ok tt).

(** The captioning model cannot be loaded; everything else could be. *)
Definition vision_down : Loads :=
  mkLoads (Ok tt) (Ok tt) (Ok tt) (Raise (RuntimeError "no disk space")) (Ok tt) (Ok tt) (Ok tt) (Ok tt).

(** A [str(e)] for the samples. *)
Definition exn_name (e : exn) : string :=
  match e with
  | Exception => "Exception"
  | TypeError => "TypeError"
  | ValueError => "ValueError"
  | JSONDecodeError => "JSONDecodeError"
  | OverflowError => "OverflowError"
  | AttributeError => "AttributeError"
  | IndexError => "IndexError"
  | ValidationError => "ValidationError"
  | RuntimeError msg => msg
  end.

Definition no_float : pyval → option spec_float := λ _, None.

(** A reply with a score beyond the range and five tags. *)
Definition excessive_reply : gmap string pyval :=
  <["anniversary_type" := VStr "birthday"]>
    (<["seasonal_tags" := VList [VStr "a"; VStr "b"; VStr "c"; VStr "d"; VStr "e"]]>
       (<["proactive_score" := VInt 9]> (<["reasoning" := VStr "A birthday."]> ∅))).

(** A request that names the patient, with a text memory that mentions
    him and a video that does not. *)
Definition request_with_patient : ChatRequest.t :=
  ChatRequest.mk "What is this?" [Scenario.letter; Scenario.party]
    (Some (PatientContext.mk "Tom" None EmptyString)) (Some "memory_based").

(** A reply whose anniversary type is a list. *)
Definition list_anniversary_reply : gmap string pyval :=
  <["anniversary_type" := VList [VStr "work"; VStr "birthday"]]> (<["proactive_score" := VInt 3]> ∅).

End Samples.

(** ** services/transcription_service.py and services/tts_service.py

    The two services pass their data to the model through a temporary file.
    Their computations read and change the files on disk. *)

Module Files.
Import Services App.

(** What can be raised there: the exceptions of [exn], those of the
    operating system and of the arithmetic.  Each derives from [Exception]. *)
Inductive failure : Type :=
| Builtin (e : exn)
| FileNotFoundError (path : string)
| OSError (msg : string)
| ZeroDivisionError.

Inductive outcome (A : Type) : Type :=
| Returned (a : A)
| Raised (e : failure).
Arguments Returned {A} a.
Arguments Raised {A} e.

(** The files, by path. *)
Abbreviation disk := (gmap string (list Byte.byte)).

Definition F (A : Type) : Type := disk → outcome A * disk.

#[global] Instance F_ret : MRet F := λ A a d, (Returned a, d).
#[global] Instance F_bind : MBind F := λ A B f m d,
  match m d with
  | (Returned a, d') => f a d'
  | (Raised e, d') => (Raised e, d')
  end.

Definition fail {A} (e : failure) : F A := λ d, (Raised e, d).

Definition pure_step {A} (r : outcome A) : F A := λ d, (r, d).

(** [try: body except Exception as e: handler]. *)
Definition try_except {A} (body : F A) (handler : failure → F A) : F A := λ d,
  match body d with
  | (Returned a, d') => (Returned a, d')
  | (Raised e, d') => handler e d'
  end.

(** [try: body finally: fin]. *)
Definition finally {A} (body : F A) (fin : F unit) : F A := λ d,
  match body d with
  | (r, d') =>
      match fin d' with
      | (Returned _, d'') => (r, d'')
      | (Raised e, d'') => (Raised e, d'')
      end
  end.

(** [os.path.exists(path)], [os.unlink(path)] and
    [open(path, 'rb').read()]. *)
Definition path_exists (path : string) : F bool := λ d,
  (Returned (bool_decide (is_Some (d !! path))), d).

Definition unlink (path : string) : F unit := λ d,
  match d !! path with
  | Some _ => (Returned tt, delete path d)
  | None => (Raised (FileNotFoundError path), d)
  end.

Definition read_file (path : string) : F (list Byte.byte) := λ d,
  match d !! path with
  | Some data => (Returned data, d)
  | None => (Raised (FileNotFoundError path), d)
  end.

(** *** Arithmetic of the duration *)

(** [a / b] on integers: the binary64 nearest to the quotient.  The
    quotient is cut to at least 56 bits, the last one telling whether
    anything was cut off, and rounded once. *)
Definition true_div (a b : Z) : outcome spec_float :=
  if (b =? 0)%Z then Raised ZeroDivisionError
  else
    let negative := xorb (a <? 0)%Z (b <? 0)%Z in
    let n := Z.abs a in
    let d := Z.abs b in
    if (n =? 0)%Z then Returned (S754_zero negative)
    else
      let k := Z.max 0 (Z.log2 d - Z.log2 n + 56) in
      let q := (n * 2 ^ k / d)%Z in
      let sticky := if (n * 2 ^ k mod d =? 0)%Z then 0%Z else 1%Z in
      let m := (2 * q + sticky)%Z in
      match binary_normalize prec emax (if negative then - m else m) (- k - 1) false with
      | S754_infinity _ => Raised (Builtin OverflowError)
      | f => Returned f
      end.

(** [int(x)] on a float: towards zero. *)
Definition py_int (x : spec_float) : outcome Z :=
  match x with
  | S754_zero _ => Returned 0%Z
  | S754_infinity _ => Raised (Builtin OverflowError)
  | S754_nan => Raised (Builtin ValueError)
  | S754_finite negative m e =>
      let magnitude := if (0 <=? e)%Z then (Z.pos m * 2 ^ e)%Z else (Z.pos m / 2 ^ (- e))%Z in
      Returned (if negative then (- magnitude)%Z else magnitude)
  end.

(** tts_service.py, line 53: [int((len(audio_data) / sample_rate) * 1000)]. *)
Definition duration_ms_of (frames : nat) (sample_rate : Z) : outcome Z :=
  match true_div (Z.of_nat frames) sample_rate with
  | Returned seconds => py_int (SFmul prec emax seconds (Z2SF 1000))
  | Raised e => Raised e
  end.

(** *** The transcription service *)

(** [Union[str, bytes]]. *)
Inductive audio : Type :=
| AudioPath (path : string)
| AudioBytes (data : list Byte.byte).

(** The dictionary [transcribe_audio] returns. *)
Record Transcript : Type := mkTranscript { text : string; chunks : pyval }.

(** Lines 64-67: [.get] needs a dictionary and [.strip] a string. *)
Definition transcript_of (result : pyval) : outcome Transcript :=
  match result with
  | VDict d =>
      match dict_get d "text" (VStr "") with
      | VStr s => Returned (mkTranscript (strip s) (dict_get d "chunks" (VList [])))
      | _ => Raised (Builtin AttributeError)
      end
  | _ => Raised (Builtin AttributeError)
  end.

(** Lines 57-67 once the pipeline has run: its exception, or its result
    read. *)
Definition transcribed (r : outcome pyval) : outcome Transcript :=
  match r with
  | Returned result => transcript_of result
  | Raised e => Raised e
  end.

Section Temporary.

(** [tempfile] chooses the name of a new file with the given suffix, or
    fails. *)
Variable temp_name : disk → string → outcome string.

(** [NamedTemporaryFile(delete=False, suffix=...)]: the file is created,
    empty, and stays when it is closed. *)
Definition NamedTemporaryFile (suffix : string) : F string := λ d,
  match temp_name d suffix with
  | Returned path => (Returned path, <[path := []]> d)
  | Raised e => (Raised e, d)
  end.

Section Transcription.

(** A write that fails raises and leaves some of the data in the file. *)
Variable write_failure : list Byte.byte → option (failure * list Byte.byte).

(** The Whisper pipeline on a path. *)
Variable pipe_call : string → F pyval.

Definition write (path : string) (data : list Byte.byte) : F unit := λ d,
  match write_failure data with
  | None => (Returned tt, <[path := data]> d)
  | Some (e, kept) => (Raised e, <[path := kept]> d)
  end.

(** Lines 47-70; the [except] clause logs the exception and raises it
    again. *)
Definition transcribe_audio (svc : TranscriptionService) (audio_data : audio) : F Transcript :=
  if negb (transcription_is_ready svc) || negb (pipe svc)
  then fail (Builtin (RuntimeError "Transcription service is not ready."))
  else
    try_except
      (result ←
         match audio_data with
         | AudioBytes data =>
             temp_file_path ←
               (temp_file ← NamedTemporaryFile ".webm";
                _ ← write temp_file data;
                mret temp_file);
             finally (pipe_call temp_file_path) (unlink temp_file_path)
         | AudioPath path => pipe_call path
         end;
       pure_step (transcript_of result))
      (λ e, fail e).

End Transcription.

Section Speech.

(** [self._model.tts_to_file(text=..., file_path=...)], and [sf.read] on
    the bytes of a file: the number of frames and the sample rate. *)
Variable tts_to_file : string → string → F unit.
Variable sf_read : list Byte.byte → outcome (nat * Z).

(** Lines 34-61. *)
Definition generate_speech (svc : TtsService) (text : string) : F (list Byte.byte * Z) :=
  if negb (tts_is_ready svc) || negb (_model svc)
  then fail (Builtin (RuntimeError "TTS service is not available."))
  else
    try_except
      (temp_file_path ← NamedTemporaryFile ".wav";
       finally
         (_ ← tts_to_file text temp_file_path;
          audio_bytes ← read_file temp_file_path;
          read ← pure_step (sf_read audio_bytes);
          duration_ms ← pure_step (duration_ms_of read.1 read.2);
          mret (audio_bytes, duration_ms))
         (present ← path_exists temp_file_path;
          if present : bool then unlink temp_file_path else mret tt))
      (λ e, fail e).

(** Lines 49-55 once the model has run, on the files it left. *)
Definition spoken (path : string) (run : outcome unit * disk) : outcome (list Byte.byte * Z) :=
  match run with
  | (Returned _, d') =>
      match d' !! path with
      | Some audio_bytes =>
          match sf_read audio_bytes with
          | Returned read =>
              match duration_ms_of read.1 read.2 with
              | Returned duration_ms => Returned (audio_bytes, duration_ms)
              | Raised e => Raised e
              end
          | Raised e => Raised e
          end
      | None => Raised (FileNotFoundError path)
      end
  | (Raised e, _) => Raised e
  end.

End Speech.

End Temporary.

(** *** The two routes of app.py *)

(** The [StreamingResponse] of the speech route. *)
Record Streaming : Type := mkStreaming {
  content : list Byte.byte;
  media_type : string;
  headers : list (string * string)
}.

Section Routes.

Variable temp_name : disk → string → outcome string.
Variable write_failure : list Byte.byte → option (failure * list Byte.byte).
Variable pipe_call : string → F pyval.
Variable tts_to_file : string → string → F unit.
Variable sf_read : list Byte.byte → outcome (nat * Z).

(** [str(e)]. *)
Variable failure_text : failure → string.

(** app.py, lines 182-206. *)
Definition generate_speech_route (g : Globals) (text : string) : F (answer Streaming) :=
  match tts_service g with
  | None => mret (HTTPException 503 "Text-to-Speech service is not available.")
  | Some svc =>
      if negb (tts_is_ready svc)
      then mret (HTTPException 503 "Text-to-Speech service is not available.")
      else
        try_except
          (spoken ← generate_speech temp_name tts_to_file sf_read svc text;
           let headers := [("X-Audio-Duration-Ms", pretty spoken.2)] in
           mret (Respond (mkStreaming spoken.1 "audio/mp3" headers)))
          (λ e, mret (HTTPException 500 (failure_text e)))
  end.

(** app.py, lines 223-239: no [try] here. *)
Definition transcribe_audio_route (g : Globals) (audio_bytes : list Byte.byte)
    : F (answer Transcript) :=
  match transcription_service g with
  | None => mret (HTTPException 503 "Audio transcription service is not available.")
  | Some svc =>
      if negb (transcription_is_ready svc)
      then mret (HTTPException 503 "Audio transcription service is not available.")
      else
        transcription_result ←
          transcribe_audio temp_name write_failure pipe_call svc (AudioBytes audio_bytes);
        mret (Respond transcription_result)
  end.

(** app.py, lines 262-268, for these routes. *)
Definition served {A} (route : F (answer A)) : F (answer A) :=
  try_except route
    (λ exc, mret (HTTPException 500 ("Internal server error: " +:+ failure_text exc))).

End Routes.

(** *** Stand-ins for the samples *)

(** The name the samples get from [tempfile]. *)
Definition sample_temp_name : disk → string → outcome string :=
  λ _ suffix, Returned ("/tmp/tmpk3x" +:+ suffix).

(** A pipeline that needs its file to exist and answers one sentence. *)
Definition sample_pipe : string → F pyval := λ path d,
  match d !! path with
  | Some _ => (Returned (VDict (<["text" := VStr " Hello there. "]> ∅)), d)
  | None => (Raised (FileNotFoundError path), d)
  end.

(** A pipeline that cannot decode its file. *)
Definition failing_pipe : string → F pyval := λ path d,
  (Raised (Builtin (RuntimeError "ffmpeg could not decode the audio")), d).

(** A speech model that writes three bytes, and one that fails after
    removing its output file. *)
Definition sample_tts : string → string → F unit := λ _ path d,
  (Returned tt, <[path := [Byte.x52; Byte.x49; Byte.x46]]> d).

Definition failing_tts : string → string → F unit := λ _ path d,
  (Raised (Builtin (RuntimeError "vocoder failed")), delete path d).

Definition sample_sf_read : list Byte.byte → outcome (nat * Z) :=
  λ _, Returned (Z.to_nat 33075, 22050%Z).

Definition some_disk : disk := <["/srv/notes.txt" := [Byte.x68; Byte.x69]]> ∅.

Definition failure_name (e : failure) : string :=
  match e with
  | Builtin e => Samples.exn_name e
  | FileNotFoundError path => "No such file or directory: " +:+ path
  | OSError msg => msg
  | ZeroDivisionError => "division by zero"
  end.

End Files.

(** * Properties *)

(** ** Proactive analysis *)

Module AnalysisFacts.
Import Analysis.

Lemma SFltb_SFleb f g : SFltb f g = true → SFleb f g = true.
Proof. unfold SFltb, SFleb. by destruct (SFcompare f g) as [[]|]. Qed.

(** [max(0, min(5, f))] lies in [0, 5] for every float, NaN and the
    infinities included. *)
Lemma clamp_in_range f :
  let v := py_max (VInt 0) (py_min (VInt 5) (VFloat f)) in
  num_le (VInt 0) v = true ∧ num_le v (VInt 5) = true.
Proof.
  unfold py_max, py_min. cbn [num_lt].
  destruct (SFltb f (Z2SF 5)) eqn:H5; cbn [num_lt].
  - destruct (SFltb (Z2SF 0) f) eqn:H0; cbn [num_le].
    + split; by apply SFltb_SFleb.
    + by split.
  - by split.
Qed.

Lemma py_float_raises fos v e :
  py_float fos v = Raise e → e = OverflowError ∨ e = ValueError ∨ e = TypeError.
Proof.
  destruct v; cbn; try (intros [= <-]; auto); try done.
  - destruct (Z2SF z); intros [= <-]; auto.
  - destruct (fos s); intros [= <-]; auto.
Qed.

Lemma validate_unfold fos d :
  _validate_analysis_result fos d =
  match score_of fos d with
  | Ok sc =>
      Ok {| anniversary_type :=
              if eq_str (dict_get d "anniversary_type" VNone) "null" then VNone
              else dict_get d "anniversary_type" VNone;
            seasonal_tags :=
              take 3 (match dict_get d "seasonal_tags" (VList []) with VList l => l | _ => [] end);
            proactive_score := sc;
            reasoning := dict_get d "reasoning" (VStr "No reasoning provided.") |}
  | Raise e => Raise e
  end.
Proof.
  unfold _validate_analysis_result, score_of.
  destruct (py_float fos (dict_get d "proactive_score" (VInt 0))) as [f|e] eqn:Hf; [done|].
  by destruct (py_float_raises _ _ _ Hf) as [-> | [-> | ->]].
Qed.

(** Whenever the validation step returns, the score is in [0, 5] and the tags
    are the first three entries of the list (none when the value is no list). *)
Lemma validate_bounds fos d r :
  _validate_analysis_result fos d = Ok r →
  num_le (VInt 0) (proactive_score r) = true ∧ num_le (proactive_score r) (VInt 5) = true
  ∧ (length (seasonal_tags r) ≤ 3)%nat
  ∧ seasonal_tags r =
      match d !! "seasonal_tags" with
      | Some (VList l) => take 3 l
      | _ => []
      end.
Proof.
  rewrite validate_unfold. unfold score_of.
  destruct (py_float fos _) as [f|e]; [|destruct e]; intros [= <-]; cbn;
    (split_and!; [try apply clamp_in_range; done .. | rewrite length_take; lia | ]);
    unfold dict_get; by destruct (d !! "seasonal_tags") as [[]|].
Qed.

Example validate_out_of_range :
  _validate_analysis_result Scenario.float_of_digits Scenario.out_of_range_reply
  = Ok {| anniversary_type := VNone;
          seasonal_tags := [];
          proactive_score := VInt 5;
          reasoning := VStr "No reasoning provided." |}.
Proof. by vm_compute. Qed.

Example validate_five_tags :
  _validate_analysis_result Scenario.float_of_digits Scenario.five_tags_reply
  = Ok {| anniversary_type := VNone;
          seasonal_tags := [VStr "a"; VStr "b"; VStr "c"];
          proactive_score := VFloat (Z2SF 4);
          reasoning := VStr "No reasoning provided." |}.
Proof. by vm_compute. Qed.

(** The validation step raises only on an integer score beyond the floats. *)
Lemma validate_raises fos d e :
  _validate_analysis_result fos d = Raise e →
  e = OverflowError ∧ ∃ z s, d !! "proactive_score" = Some (VInt z) ∧ Z2SF z = S754_infinity s.
Proof.
  rewrite validate_unfold. unfold score_of, dict_get.
  destruct (d !! "proactive_score") as [v|] eqn:Hd; cbn; [|done].
  destruct v; cbn; try done.
  - destruct (Z2SF z) eqn:Hz; try done. intros [= <-]. eauto.
  - by destruct (fos s).
Qed.

Lemma validate_returns fos d :
  ¬ score_overflows d → ∃ r, _validate_analysis_result fos d = Ok r.
Proof.
  intros Hno. destruct (_validate_analysis_result fos d) as [r|e] eqn:Hv; [eauto|].
  destruct Hno. by apply validate_raises in Hv as [_ ?].
Qed.

(** C1, at the reply [{"anniversary_type": "work", "seasonal_tags": ["summer"],
    "proactive_score": 10^400}]: [float(10**400)] raises [OverflowError],
    which the [except (ValueError, TypeError)] of the validation step does not
    catch; the step raises instead of returning score 0 with the tag list
    kept, and [analyze_memory] answers with the default result, whose tag
    list is empty. *)
Theorem validate_overflow_score_escapes :
  (∀ fos, _validate_analysis_result fos Scenario.overflow_reply = Raise OverflowError)
  ∧ (analyze_memory Scenario.float_of_digits Scenario.json_loads
       (Scenario.chat_const (Ok Scenario.overflow_raw)) true
       "Graduation" "Anna receives her diploma" "photo" None None None []).1
    = Ok _get_default_analysis
  ∧ seasonal_tags _get_default_analysis = []
  ∧ Scenario.overflow_reply !! "seasonal_tags" = Some (VList [VStr "summer"]).
Proof.
  split_and!.
  - intros fos. rewrite validate_unfold. by vm_compute.
  - by vm_compute.
  - done.
  - by vm_compute.
Qed.

(** C7: when the component is not ready, or the model call raises, or
    [json.loads] raises on the model's reply, [analyze_memory] returns the
    fixed default result (no anniversary type, no seasonal tag, score 0, the
    placeholder reasoning) and raises nothing. *)
Theorem analyze_memory_default_on_failure fos loads chat ready
    title descr ty date loc people t :
  ready = false
  ∨ (∃ e, chat (_construct_analysis_prompt title descr ty date loc people) = Raise e)
  ∨ (∃ raw e, chat (_construct_analysis_prompt title descr ty date loc people) = Ok raw
              ∧ loads raw = Raise e) →
  (analyze_memory fos loads chat ready title descr ty date loc people t).1
    = Ok {| anniversary_type := VNone;
            seasonal_tags := [];
            proactive_score := VInt 0;
            reasoning := VStr "Analysis failed, using default values." |}.
Proof.
  unfold analyze_memory.
  intros [-> | [[e He] | (raw & e & Hc & Hl)]]; [done | ..];
    destruct ready; try done; unfold try_catch, mbind, M_bind, call, lift;
    rewrite ?He, ?Hc, ?Hl; cbn [select_handler];
    by destruct (isinstance_exn e JSONDecodeError).
Qed.

Lemma analyze_memory_default_on_failure_witness :
  (analyze_memory Scenario.float_of_digits Scenario.json_loads
     (Scenario.chat_const (Ok Scenario.malformed_raw)) true
     "Graduation" "Anna receives her diploma" "photo" None None None []).1
  = Ok _get_default_analysis.
Proof.
  apply analyze_memory_default_on_failure.
  right; right. exists Scenario.malformed_raw, JSONDecodeError. split; reflexivity.
Defined.

(** C10: the validation step returns the reply's [anniversary_type] as it
    is, whatever the value, except that the string "null" and a missing key
    give [None]; no label set is enforced.  The step returns for every reply
    whose score is not an integer beyond the floats. *)
Theorem anniversary_type_passes_through fos (d : gmap string pyval) :
  (∀ r, _validate_analysis_result fos d = Ok r →
     (d !! "anniversary_type" = None → anniversary_type r = VNone)
     ∧ (d !! "anniversary_type" = Some (VStr "null") → anniversary_type r = VNone)
     ∧ (∀ v, d !! "anniversary_type" = Some v → v ≠ VStr "null" → anniversary_type r = v))
  ∧ (¬ score_overflows d → ∃ r, _validate_analysis_result fos d = Ok r).
Proof.
  split; [|apply validate_returns].
  intros r. rewrite validate_unfold.
  destruct (score_of fos d) as [sc|e]; [|done]. intros [= <-]. cbn. unfold dict_get.
  split_and!.
  - by intros ->.
  - by intros ->.
  - intros v -> Hv. cbn.
    destruct (eq_str v "null") eqn:E; [|done].
    destruct v; try done. cbn in E. apply String.eqb_eq in E. by subst.
Qed.

Lemma anniversary_type_passes_through_witness :
  ∃ r, _validate_analysis_result Scenario.float_of_digits Scenario.promotion_reply = Ok r
       ∧ anniversary_type r = VStr "promotion".
Proof.
  destruct (anniversary_type_passes_through Scenario.float_of_digits Scenario.promotion_reply)
    as [Hval Hret].
  destruct Hret as [r Hr].
  { intros (z & s & Hz & Hinf). vm_compute in Hz. injection Hz as <-. vm_compute in Hinf. discriminate. }
  exists r. split; [exact Hr|].
  destruct (Hval r Hr) as (_ & _ & Hv). apply Hv; [reflexivity | discriminate].
Defined.

End AnalysisFacts.

(** ** The director: prompt construction *)

Module ChatFacts.
Import Chat.

Lemma append_nil_r s : s +:+ EmptyString = s.
Proof. induction s as [|c s IH]; [done|]. change (String c (s +:+ EmptyString) = String c s). by rewrite IH. Qed.

Lemma append_assoc s1 s2 s3 : (s1 +:+ s2) +:+ s3 = s1 +:+ s2 +:+ s3.
Proof.
  induction s1 as [|c s1 IH]; [done|].
  change (String c ((s1 +:+ s2) +:+ s3) = String c (s1 +:+ s2 +:+ s3)). by rewrite IH.
Qed.

(** A loop whose body only appends to the prompt appends the pieces in
    order. *)
Lemma for_enumerate_appends {A} (body : string → nat → A → string) (piece : nat → A → string) :
  (∀ prompt i x, body prompt i x = prompt +:+ piece i x) →
  ∀ xs prompt, for_enumerate body xs prompt = prompt +:+ concat_all (imap piece xs).
Proof.
  intros Hbody xs. unfold for_enumerate, enumerate.
  assert (∀ (g : nat → nat) prompt,
    foldl (λ prompt ix, body prompt ix.1 ix.2) prompt (imap (λ i x, (g i, x)) xs)
    = prompt +:+ concat_all (imap (λ i x, piece (g i) x) xs)) as Hgen.
  { induction xs as [|x xs IH]; intros g prompt; cbn.
    - by rewrite append_nil_r.
    - rewrite (IH (g ∘ S)). cbn. by rewrite Hbody, append_assoc. }
  intros prompt. apply (Hgen (λ i, i)).
Qed.

Lemma scene_entry_appends prompt i mem :
  scene_entry prompt i mem = prompt +:+ scene_instruction i mem.
Proof.
  unfold scene_entry, scene_instruction. cbv zeta. rewrite Nat.add_1_r.
  destruct (String.eqb_spec (MemoryContext.type mem) "video") as [E|E].
  - rewrite bool_decide_eq_true_2 by done. by rewrite !append_assoc.
  - rewrite bool_decide_eq_false_2 by done. by rewrite append_nil_r.
Qed.

(** With a visual memory among the context memories, the memories section
    ends with the scene block, whatever the mode and the query. *)
Lemma memories_section_scenes request patient_name prompt :
  visual_memories request ≠ [] →
  memories_section request patient_name prompt
  = for_enumerate (memory_entry patient_name) (ChatRequest.context_memories request)
      (prompt +:+ nl +:+ nl +:+ "--- RELEVANT MEMORIES ---")
    +:+ scene_block (visual_memories request).
Proof.
  unfold visual_memories, memories_section. intros Hvis.
  destruct (ChatRequest.context_memories request) as [|m ms] eqn:Hm; [done|].
  destruct (List.filter is_visual (m :: ms)) as [|v vs] eqn:Hf; [done|].
  cbv zeta. rewrite (for_enumerate_appends _ _ scene_entry_appends).
  unfold scene_block. by rewrite !append_assoc.
Qed.

Lemma respond_section_appends request prompt :
  respond_section request prompt = prompt +:+ respond_section request EmptyString.
Proof.
  unfold respond_section. cbv zeta. case_bool_decide; by rewrite !append_assoc.
Qed.

Lemma prompt_ends_with_scenes request :
  visual_memories request ≠ [] →
  ∃ before, _construct_prompt request
            = before +:+ scene_block (visual_memories request)
                +:+ respond_section request EmptyString.
Proof.
  intros Hvis. unfold _construct_prompt. cbv zeta.
  destruct (patient_section request _) as [patient_name prompt].
  rewrite respond_section_appends, (memories_section_scenes _ _ _ Hvis), append_assoc.
  by eexists.
Qed.

(** C3: for a request that is not casual, whose query is not the
    photo-recognition literal and that has a photo or video memory, the
    prompt contains the scene block: its instructions are, in order, one per
    visual memory, the [i]-th carrying the number [i+1], the identifier and
    the category of the [i]-th visual memory, followed by the request for a
    short narration exactly when that memory is a video. *)
Theorem prompt_enumerates_visual_memories request :
  ChatRequest.conversation_type request ≠ Some "casual" →
  ChatRequest.query request ≠ photo_recognition_query →
  visual_memories request ≠ [] →
  let visual := visual_memories request in
  let instructions := imap scene_instruction visual in
  (∃ before after,
     _construct_prompt request
     = before +:+ nl +:+ "--- MANDATORY SCENE CREATION ---"
         +:+ nl +:+ "You MUST create " +:+ pretty (length visual) +:+ " scenes using these exact memory IDs:"
         +:+ concat_all instructions
         +:+ nl +:+ "DO NOT create fewer than " +:+ pretty (length visual) +:+ " scenes. Each visual memory MUST have its own scene."
         +:+ after)
  ∧ length instructions = length visual
  ∧ (∀ mem, mem ∈ visual ↔ mem ∈ ChatRequest.context_memories request
                            ∧ (MemoryContext.type mem = "photo" ∨ MemoryContext.type mem = "video"))
  ∧ (∀ i mem, visual !! i = Some mem →
       instructions !! i
       = Some (nl +:+ "- Scene " +:+ pretty (S i) +:+ ": memory_id '" +:+ MemoryContext.memory_id mem
                  +:+ "' (" +:+ MemoryContext.type mem +:+ ")"
                  +:+ (if bool_decide (MemoryContext.type mem = "video")
                       then " - KEEP NARRATION SHORT" else EmptyString))).
Proof.
  intros _ _ Hvis visual instructions. split_and!.
  - destruct (prompt_ends_with_scenes request Hvis) as (before & ->).
    exists before, (respond_section request EmptyString). unfold scene_block.
    generalize (respond_section request EmptyString) as after. intros after.
    by rewrite !append_assoc.
  - apply length_imap.
  - intros mem. unfold visual, visual_memories.
    rewrite !list_elem_of_In, filter_In. unfold is_visual.
    rewrite orb_true_iff, !String.eqb_eq. done.
  - intros i mem Hi. unfold instructions. rewrite list_lookup_imap, Hi. done.
Qed.

Lemma prompt_enumerates_visual_memories_witness :
  ∃ before after,
    _construct_prompt Scenario.memory_request
    = before +:+ nl +:+ "--- MANDATORY SCENE CREATION ---"
        +:+ nl +:+ "You MUST create 2 scenes using these exact memory IDs:"
        +:+ (nl +:+ "- Scene 1: memory_id 'm1' (photo)")
        +:+ (nl +:+ "- Scene 2: memory_id 'm2' (video) - KEEP NARRATION SHORT")
        +:+ nl +:+ "DO NOT create fewer than 2 scenes. Each visual memory MUST have its own scene."
        +:+ after.
Proof.
  destruct (prompt_enumerates_visual_memories Scenario.memory_request) as [(before & after & E) _].
  - discriminate.
  - discriminate.
  - discriminate.
  - exists before, after. rewrite E. f_equal.
Defined.

(** C4, at the casual request [casual_with_photo] (query "How are you
    today?", one photo memory "m1"): the prompt has the casual section that
    asks for the narrative format, and also the scene block that the memories
    section adds for every visual memory without looking at the mode; it
    requires one scene for "m1". *)
Theorem casual_prompt_still_requires_scenes :
  let prompt := _construct_prompt Scenario.casual_with_photo in
  ChatRequest.conversation_type Scenario.casual_with_photo = Some "casual"
  ∧ contains "Respond warmly and naturally using NARRATIVE format." prompt = true
  ∧ contains "--- MANDATORY SCENE CREATION ---" prompt = true
  ∧ contains "You MUST create 1 scenes using these exact memory IDs:" prompt = true
  ∧ contains "- Scene 1: memory_id 'm1' (photo)" prompt = true
  ∧ contains "Each visual memory MUST have its own scene." prompt = true
  ∧ requires_cinematic prompt = true.
Proof. by vm_compute. Qed.

(** Every later step of the construction only appends to the prompt. *)
Lemma rules_section_appends prompt :
  rules_section prompt = prompt +:+ rules_section EmptyString.
Proof. unfold rules_section. cbv zeta. by rewrite ?append_assoc. Qed.

Lemma patient_section_appends request prompt :
  patient_section request prompt
  = ((patient_section request EmptyString).1, prompt +:+ (patient_section request EmptyString).2).
Proof.
  unfold patient_section. cbv zeta.
  destruct (ChatRequest.patient_context request) as [pc|]; [|by rewrite append_nil_r].
  destruct (PatientContext.age pc) as [a|]; [destruct (a =? 0)%Z|];
    destruct (PatientContext.description pc); cbn [fst snd]; by rewrite ?append_assoc.
Qed.

Lemma memory_entry_appends patient_name prompt i mem :
  memory_entry patient_name prompt i mem = prompt +:+ memory_entry patient_name EmptyString i mem.
Proof.
  unfold memory_entry. cbv zeta.
  destruct patient_name; [|destruct (patient_is_present _ mem)]; by rewrite ?append_assoc.
Qed.

Lemma memories_section_appends request patient_name prompt :
  memories_section request patient_name prompt
  = prompt +:+ memories_section request patient_name EmptyString.
Proof.
  unfold memories_section. cbv zeta.
  destruct (ChatRequest.context_memories request) as [|m ms]; [by rewrite ?append_assoc|].
  rewrite !(for_enumerate_appends _ _ (memory_entry_appends patient_name)).
  destruct (List.filter is_visual (m :: ms)) as [|v vs]; [by rewrite ?append_assoc|].
  rewrite !(for_enumerate_appends _ _ scene_entry_appends). by rewrite ?append_assoc.
Qed.

(** C5, as stated, fails: for the photo-recognition query sent in
    memory-based mode with one photo memory, the prompt still carries the
    requirements of the cinematic format. *)
Lemma override_keeps_cinematic_requirements :
  ¬ (∀ request, ChatRequest.query request = photo_recognition_query →
                requires_cinematic (_construct_prompt request) = false).
Proof.
  intros H. specialize (H Scenario.override_with_photo eq_refl).
  vm_compute in H. discriminate.
Qed.

(** C5, amended: for the photo-recognition query the prompt holds the
    override section, which asks for the narrative format; the section comes
    right after the conversation-mode section and removes nothing from it: in
    memory-based mode with visual memories that section still requires the
    cinematic format. *)
Theorem override_section_follows_mode_section request :
  ChatRequest.query request = photo_recognition_query →
  (∃ after, _construct_prompt request
            = mode_section request preamble
                +:+ nl +:+ nl +:+ "--- PHOTO RECOGNITION OVERRIDE ---"
                +:+ nl +:+ "This is a specific photo the user showed. Use NARRATIVE format to describe this specific memory warmly."
                +:+ after)
  ∧ (ChatRequest.conversation_type request = Some "memory_based" →
     visual_memories request ≠ [] →
     ∃ n, n = length (visual_memories request)
          ∧ mode_section request preamble
            = preamble +:+ nl +:+ nl +:+ "--- MEMORY CONVERSATION MODE ---"
                +:+ nl +:+ "The user is asking about memories. Relevant memories have been provided below."
                +:+ nl +:+ "Since " +:+ pretty n +:+ " visual memories (photos/videos) are available, use CINEMATIC format."
                +:+ nl +:+ "You MUST create exactly " +:+ pretty n +:+ " scenes - one for each visual memory provided."
                +:+ nl +:+ "DO NOT skip any memories. Include ALL " +:+ pretty n +:+ " visual memories as separate scenes.").
Proof.
  intros Hq. split.
  - unfold _construct_prompt. cbv zeta.
    rewrite patient_section_appends, respond_section_appends, memories_section_appends,
      rules_section_appends.
    unfold override_section. rewrite Hq, String.eqb_refl. cbv zeta.
    eexists. rewrite !append_assoc. reflexivity.
  - intros Hmode Hvis. unfold mode_section. rewrite Hmode. cbv zeta.
    rewrite bool_decide_eq_false_2 by discriminate.
    rewrite bool_decide_eq_true_2 by reflexivity.
    unfold visual_memories in *.
    assert (existsb is_visual (ChatRequest.context_memories request) = true) as ->.
    { destruct (List.filter is_visual _) as [|v vs] eqn:Hf; [done|].
      apply existsb_exists. exists v.
      apply (filter_In is_visual v (ChatRequest.context_memories request)).
      rewrite Hf. by left. }
    eexists. split; [reflexivity|]. by rewrite !append_assoc.
Qed.

Lemma override_section_follows_mode_section_witness :
  ∃ after, _construct_prompt Scenario.override_with_photo
           = mode_section Scenario.override_with_photo preamble
               +:+ nl +:+ nl +:+ "--- PHOTO RECOGNITION OVERRIDE ---"
               +:+ nl +:+ "This is a specific photo the user showed. Use NARRATIVE format to describe this specific memory warmly."
               +:+ after.
Proof.
  destruct (override_section_follows_mode_section Scenario.override_with_photo) as [H _].
  - reflexivity.
  - exact H.
Defined.

End ChatFacts.

(** ** The director: interpretation of the model's reply *)

Module DirectorFacts.
Import Chat.

(** A ready director calls the model once and turns every failure into the
    apology. *)
Lemma generate_response_ready loads chat cs cm request t :
  generate_response loads chat cs cm true request t
  = (Ok (match parsed_reply loads chat (_construct_prompt request) ≫= interpret cs cm with
         | Ok response => response
         | Raise _ => NarrativeResponse apology_message
         end),
     t ++ [EvChat (_construct_prompt request)]).
Proof.
  unfold generate_response, parsed_reply, try_finally, try_catch, stats_finish,
    mbind, M_bind, res_bind, call, lift, mret, M_ret.
  cbn [negb]. generalize (_construct_prompt request) as prompt. intros prompt.
  destruct (chat prompt) as [raw|e]; [|done].
  destruct (loads raw) as [v|e]; [|done].
  by destruct (interpret cs cm v) as [response|e].
Qed.

Lemma eq_str_true v s : eq_str v s = true → v = VStr s.
Proof. destruct v; try done. cbn. by intros ->%String.eqb_eq. Qed.

Lemma interpret_cinematic cs cm d :
  d !! "response_type" = Some (VStr "cinematic_show") →
  interpret cs cm (VDict d) = CinematicShow_init cs cm d.
Proof. unfold interpret, get_response_type, dict_get. by intros ->. Qed.

Lemma interpret_narrative cs cm d :
  d !! "response_type" = Some (VStr "narrative") →
  interpret cs cm (VDict d) = NarrativeResponse_init cs d.
Proof. unfold interpret, get_response_type, dict_get. by intros ->. Qed.

Lemma interpret_other cs cm d :
  d !! "response_type" ≠ Some (VStr "cinematic_show") →
  d !! "response_type" ≠ Some (VStr "narrative") →
  interpret cs cm (VDict d) = Raise ValueError.
Proof.
  unfold interpret, get_response_type, dict_get. intros Hc Hn.
  destruct (d !! "response_type") as [v|]; [|done]. cbn.
  destruct (eq_str v "cinematic_show") eqn:Ec.
  { apply eq_str_true in Ec. by subst. }
  destruct (eq_str v "narrative") eqn:En; [|done].
  apply eq_str_true in En. by subst.
Qed.

Lemma interpret_not_dict cs cm v : (∀ d, v ≠ VDict d) → ∃ e, interpret cs cm v = Raise e.
Proof. destruct v; intros H; try (by eexists). by destruct (H d). Qed.

Lemma interpret_sound cs cm v response :
  interpret cs cm v = Ok response →
  ∃ d, v = VDict d
       ∧ ((d !! "response_type" = Some (VStr "cinematic_show")
           ∧ CinematicShow_init cs cm d = Ok response)
          ∨ (d !! "response_type" = Some (VStr "narrative")
             ∧ NarrativeResponse_init cs d = Ok response)).
Proof.
  destruct v; try done. intros H. exists d. split; [done|].
  unfold interpret, get_response_type, dict_get in H. cbn in H.
  destruct (d !! "response_type") as [v|] eqn:Hrt; cbn in H; [|done].
  destruct (eq_str v "cinematic_show") eqn:Ec.
  { apply eq_str_true in Ec. subst. by left. }
  destruct (eq_str v "narrative") eqn:En; [|done].
  apply eq_str_true in En. subst. by right.
Qed.

Example cinematic_reply_with_fields :
  (generate_response Scenario.json_loads (Scenario.chat_const (Ok Scenario.cinematic_one_raw))
     Scenario.no_str Scenario.no_model true Scenario.memory_request []).1
  = Ok (CinematicShow "Your day" [Scene.mk "m1" "The sea"]).
Proof. by vm_compute. Qed.

Example malformed_reply_is_apology :
  generate_response Scenario.json_loads (Scenario.chat_const (Ok Scenario.malformed_raw))
    Scenario.no_str Scenario.no_model true Scenario.memory_request []
  = (Ok (NarrativeResponse "I'm sorry, I had a little trouble organizing my thoughts."),
     [EvChat (_construct_prompt Scenario.memory_request)]).
Proof. by vm_compute. Qed.

(** C2, as stated, fails: the reply [{"response_type":"cinematic_show"}]
    parses as JSON with response type "cinematic_show", and the result is the
    apology narrative, not a cinematic show. *)
Lemma cinematic_reply_without_fields_is_apology :
  Scenario.json_loads Scenario.cinematic_bare_raw = Ok (VDict Scenario.cinematic_bare)
  ∧ Scenario.cinematic_bare !! "response_type" = Some (VStr "cinematic_show")
  ∧ (generate_response Scenario.json_loads (Scenario.chat_const (Ok Scenario.cinematic_bare_raw))
       Scenario.no_str Scenario.no_model true Scenario.memory_request []).1
    = Ok (NarrativeResponse apology_message)
  ∧ ¬ (∀ loads chat cs cm request raw d,
         chat (_construct_prompt request) = Ok raw →
         loads raw = Ok (VDict d) →
         d !! "response_type" = Some (VStr "cinematic_show") →
         ∃ title scs, (generate_response loads chat cs cm true request []).1
                      = Ok (CinematicShow title scs)).
Proof.
  assert ((generate_response Scenario.json_loads
             (Scenario.chat_const (Ok Scenario.cinematic_bare_raw))
             Scenario.no_str Scenario.no_model true Scenario.memory_request []).1
          = Ok (NarrativeResponse apology_message)) as Hrun by (by vm_compute).
  split_and!; [by vm_compute | by vm_compute | exact Hrun |].
  intros H.
  destruct (H Scenario.json_loads (Scenario.chat_const (Ok Scenario.cinematic_bare_raw))
              Scenario.no_str Scenario.no_model Scenario.memory_request
              Scenario.cinematic_bare_raw Scenario.cinematic_bare)
    as (title & scs & Hshow); [done | by vm_compute | by vm_compute |].
  rewrite Hrun in Hshow. discriminate.
Qed.

(** C2, amended: a ready director invokes the model exactly once and
    always returns a response.  A reply that parses as a JSON object with
    response type "cinematic_show", a string [show_title] and a list of
    [scenes] that validates gives the cinematic show built from them; with
    response type "narrative" and a string [message] (as in
    [{"response_type":"narrative","message":"Hi"}]) it gives the narrative
    with that message.  Every other result is the fixed apology: it is what
    comes out when the call or the parse raises, when the reply is no JSON
    object, when the response type is another one or missing, and when the
    fields of the announced variant are missing or rejected.  A director
    that is not ready answers without invoking the model. *)
Theorem generate_response_interprets_reply loads chat cs cm request t :
  let prompt := _construct_prompt request in
  let run := generate_response loads chat cs cm true request t in
  let apology := NarrativeResponse apology_message in
  (run.2 = t ++ [EvChat prompt] ∧ count_chat run.2 = S (count_chat t)
   ∧ ∃ response, run.1 = Ok response)
  ∧ (∀ d title vs scs,
       parsed_reply loads chat prompt = Ok (VDict d) →
       d !! "response_type" = Some (VStr "cinematic_show") →
       d !! "show_title" = Some (VStr title) →
       d !! "scenes" = Some (VList vs) →
       scene_items cs cm vs = Ok scs →
       run.1 = Ok (CinematicShow title scs))
  ∧ (∀ d message,
       parsed_reply loads chat prompt = Ok (VDict d) →
       d !! "response_type" = Some (VStr "narrative") →
       d !! "message" = Some (VStr message) →
       run.1 = Ok (NarrativeResponse message))
  ∧ (∀ response, run.1 = Ok response →
       response = apology
       ∨ ∃ d, parsed_reply loads chat prompt = Ok (VDict d)
              ∧ ((d !! "response_type" = Some (VStr "cinematic_show")
                  ∧ CinematicShow_init cs cm d = Ok response)
                 ∨ (d !! "response_type" = Some (VStr "narrative")
                    ∧ NarrativeResponse_init cs d = Ok response)))
  ∧ ((∃ e, parsed_reply loads chat prompt = Raise e) → run.1 = Ok apology)
  ∧ (∀ v, parsed_reply loads chat prompt = Ok v → (∀ d, v ≠ VDict d) → run.1 = Ok apology)
  ∧ (∀ d, parsed_reply loads chat prompt = Ok (VDict d) →
       d !! "response_type" ≠ Some (VStr "cinematic_show") →
       d !! "response_type" ≠ Some (VStr "narrative") →
       run.1 = Ok apology)
  ∧ (∀ d e, parsed_reply loads chat prompt = Ok (VDict d) →
       (d !! "response_type" = Some (VStr "cinematic_show") ∧ CinematicShow_init cs cm d = Raise e)
       ∨ (d !! "response_type" = Some (VStr "narrative") ∧ NarrativeResponse_init cs d = Raise e) →
       run.1 = Ok apology)
  ∧ generate_response loads chat cs cm false request t
    = (Ok (NarrativeResponse not_available_message), t).
Proof.
  intros prompt run apology. subst run. rewrite generate_response_ready. fold prompt. cbn [fst snd].
  split_and!.
  - done.
  - unfold count_chat. rewrite List.filter_app, length_app. cbn. lia.
  - by eexists.
  - intros d title vs scs -> Hrt Ht Hs Hscs. unfold mbind at 1, res_bind at 1. rewrite (interpret_cinematic _ _ _ Hrt).
    unfold CinematicShow_init, literal_field, required. rewrite Hrt, Ht, Hs. cbn. by rewrite Hscs.
  - intros d message -> Hrt Hm. unfold mbind at 1, res_bind at 1. rewrite (interpret_narrative _ _ _ Hrt).
    unfold NarrativeResponse_init, literal_field, required. by rewrite Hrt, Hm.
  - intros response [= <-].
    destruct (parsed_reply loads chat prompt) as [v|e]; unfold mbind, res_bind; [|by left].
    destruct (interpret cs cm v) as [response|e] eqn:Hi; [|by left].
    right. apply interpret_sound in Hi as (d & -> & Hd). by exists d.
  - by intros [e ->].
  - intros v -> Hv. unfold mbind, res_bind. by destruct (interpret_not_dict cs cm v Hv) as [e ->].
  - intros d -> Hc Hn. unfold mbind, res_bind. by rewrite interpret_other.
  - intros d e -> [[Hrt Hinit] | [Hrt Hinit]]; unfold mbind, res_bind.
    + by rewrite (interpret_cinematic _ _ _ Hrt), Hinit.
    + by rewrite (interpret_narrative _ _ _ Hrt), Hinit.
  - done.
Qed.

Lemma generate_response_interprets_reply_witness :
  (generate_response Scenario.json_loads (Scenario.chat_const (Ok Scenario.narrative_hi_raw))
     Scenario.no_str Scenario.no_model true Scenario.memory_request []).1
  = Ok (NarrativeResponse "Hi").
Proof.
  destruct (generate_response_interprets_reply Scenario.json_loads
              (Scenario.chat_const (Ok Scenario.narrative_hi_raw))
              Scenario.no_str Scenario.no_model Scenario.memory_request [])
    as (_ & _ & Hnarrative & _).
  apply (Hnarrative Scenario.narrative_hi "Hi"); reflexivity.
Defined.

End DirectorFacts.

(** ** Face matching *)

Module FaceFacts.
Import Face.

Section Matching.

Context {bytes image location encoding : Type}.
Variable b64decode : string → res bytes.
Variable load_image_file : bytes → res image.
Variable face_locations : image → res (list location).
Variable face_encodings : image → option (list location) → res (list encoding).
Variable face_distance : encoding → encoding → spec_float.

Local Abbreviation identify :=
  (identify_people b64decode load_image_file face_locations face_encodings face_distance).
Local Abbreviation references := (retained b64decode load_image_file face_encodings).
Local Abbreviation probe := (probe_result b64decode load_image_file face_locations face_encodings).
Local Abbreviation matching := (first_match face_distance).
Local Abbreviation close := (within_tolerance face_distance).

(** The calls on an image return what the composed calls return; only the
    trace grows. *)
Lemma avatar_encodings_of_run person_data t :
  ∃ t', avatar_encodings_of b64decode load_image_file face_encodings person_data t
        = (avatar_result b64decode load_image_file face_encodings person_data, t').
Proof.
  unfold avatar_encodings_of, avatar_result, mbind, M_bind, res_bind, call.
  destruct (b64decode _) as [b|e]; [|by eexists].
  destruct (load_image_file b) as [i|e]; by eexists.
Qed.

Lemma unknown_encodings_of_run photo t :
  ∃ t', unknown_encodings_of b64decode load_image_file face_locations face_encodings photo t
        = (probe photo, t').
Proof.
  unfold unknown_encodings_of, probe_result, mbind, M_bind, res_bind, call.
  destruct (b64decode _) as [b|e]; [|by eexists].
  destruct (load_image_file b) as [i|e]; [|by eexists].
  destruct (face_locations i) as [l|e]; by eexists.
Qed.

(** The loading loop keeps the two lists in step: it appends the retained
    references, encodings to one list and identities to the other. *)
Lemma load_known_run known :
  ∀ encs metas t,
    ∃ t', load_known b64decode load_image_file face_encodings known encs metas t
          = (Ok (encs ++ (references known).*1, metas ++ (references known).*2), t').
Proof.
  induction known as [|pd rest IH]; intros encs metas t.
  - exists t. cbn. by rewrite !app_nil_r.
  - cbn [load_known]. unfold mbind at 1, M_bind at 1, try_catch.
    unfold mbind at 1, M_bind at 1.
    destruct (avatar_encodings_of_run pd t) as [t1 ->].
    unfold retained. cbn [omap list_omap]. fold (references rest).
    unfold retained_reference.
    destruct (avatar_result _ _ _ pd) as [[|first more]|e]; cbn.
    + apply IH.
    + destruct (IH (encs ++ [first])
                  (metas ++ [Person.mk (KnownFacePayload.person_id pd) (KnownFacePayload.name pd)])
                  t1) as [t' ->].
      exists t'. by rewrite <- !app_assoc.
    + apply IH.
Qed.

(** [True in matches] and [matches.index(True)] find the first reference
    within the tolerance, and the metadata at that index is its identity. *)
Lemma first_match_index (refs : list (encoding * Person.t)) face :
  match List.find (λ ref, close ref.1 face) refs with
  | Some ref =>
      existsb (λ b : bool, b) (compare_faces face_distance refs.*1 face tolerance) = true
      ∧ ∃ i, index_true (compare_faces face_distance refs.*1 face tolerance) = Some i
             ∧ refs.*2 !! i = Some ref.2
  | None => existsb (λ b : bool, b) (compare_faces face_distance refs.*1 face tolerance) = false
  end.
Proof.
  induction refs as [|[enc p] refs IH]; [done|].
  cbn. unfold within_tolerance at 1. cbn.
  destruct (SFleb (face_distance enc face) tolerance) eqn:Hclose; cbn.
  - split; [done|]. by exists 0%nat.
  - destruct (List.find _ refs) as [ref|].
    + destruct IH as [Hex (i & Hi & Hl)]. split; [done|].
      exists (S i). unfold compare_faces in Hi. by rewrite Hi.
    + done.
Qed.

Lemma match_face_run (refs : list (encoding * Person.t)) recognized_people face t :
  ∃ t', match_face face_distance refs.*1 refs.*2 recognized_people face t
        = (Ok (record_match recognized_people (matching refs face)), t').
Proof.
  unfold match_face, mbind, M_bind, call, first_match.
  pose proof (first_match_index refs face) as H.
  destruct (List.find _ refs) as [[enc p]|]; cbn [fmap option_fmap option_map snd record_match].
  - destruct H as [-> (i & -> & ->)]. cbn [snd].
    destruct p as [pid name]. cbn [Person.person_id Person.name].
    destruct (already_recognized pid recognized_people); by eexists.
  - rewrite H. by eexists.
Qed.

Lemma match_faces_run (refs : list (encoding * Person.t)) faces :
  ∀ recognized_people t,
    ∃ t', match_faces face_distance refs.*1 refs.*2 faces recognized_people t
          = (Ok (foldl (λ acc face, record_match acc (matching refs face)) recognized_people faces), t').
Proof.
  induction faces as [|face faces IH]; intros recognized_people t; [by eexists|].
  cbn [match_faces foldl]. unfold mbind at 1, M_bind at 1.
  destruct (match_face_run refs recognized_people face t) as [t1 ->]. apply IH.
Qed.

Lemma already_recognized_spec pid (people : list Person.t) :
  already_recognized pid people = bool_decide (pid ∈ (Person.person_id <$> people)).
Proof.
  unfold already_recognized. induction people as [|p people IH]; [done|].
  cbn. rewrite IH. destruct (Z.eqb_spec (Person.person_id p) pid) as [->|Hne]; cbn.
  - symmetry. apply bool_decide_eq_true_2. by left.
  - apply bool_decide_ext. rewrite elem_of_cons. naive_solver.
Qed.

(** Recording the matches one after the other keeps the first occurrence of
    each identity. *)
Lemma record_matches_first_occurrences (refs : list (encoding * Person.t)) faces :
  ∀ acc,
    foldl (λ acc face, record_match acc (matching refs face)) acc faces
    = acc ++ first_occurrences (Person.person_id <$> acc) (omap (matching refs) faces).
Proof.
  induction faces as [|face faces IH]; intros acc; [by rewrite app_nil_r|].
  cbn [foldl omap list_omap]. rewrite IH.
  destruct (matching refs face) as [p|]; cbn [record_match first_occurrences]; [|done].
  rewrite already_recognized_spec. case_bool_decide; [done|].
  by rewrite fmap_app, <- app_assoc.
Qed.

Lemma first_occurrences_ids seen (people : list Person.t) pid :
  pid ∈ (Person.person_id <$> first_occurrences seen people)
  ↔ (pid ∉ seen) ∧ pid ∈ (Person.person_id <$> people).
Proof.
  revert seen. induction people as [|p people IH]; intros seen; cbn.
  - rewrite elem_of_nil. naive_solver.
  - case_bool_decide as Hseen; rewrite ?fmap_cons, ?elem_of_cons, IH.
    + naive_solver.
    + rewrite elem_of_app, list_elem_of_singleton.
      destruct (decide (pid = Person.person_id p)); naive_solver.
Qed.

Lemma first_occurrences_NoDup seen (people : list Person.t) :
  NoDup (Person.person_id <$> first_occurrences seen people).
Proof.
  revert seen. induction people as [|p people IH]; intros seen; cbn; [constructor|].
  case_bool_decide; [done|]. rewrite fmap_cons. constructor; [|done].
  rewrite first_occurrences_ids, elem_of_app, list_elem_of_singleton. naive_solver.
Qed.

(** Each recorded entry is the first of the matches with its identity. *)
Lemma first_occurrences_first seen (people : list Person.t) p :
  p ∈ first_occurrences seen people →
  ∃ i, people !! i = Some p
       ∧ ∀ j q, (j < i)%nat → people !! j = Some q → Person.person_id q ≠ Person.person_id p.
Proof.
  revert seen. induction people as [|p0 people IH]; intros seen; cbn; [by rewrite elem_of_nil|].
  case_bool_decide as Hseen.
  - intros Hp. pose proof Hp as Hin.
    apply IH in Hp as (i & Hi & Hfirst). exists (S i). split; [done|].
    intros [|j] q Hj Hq; cbn in Hq.
    + injection Hq as <-. intros Heq.
      assert (Person.person_id p ∈ (Person.person_id <$> first_occurrences seen people)) as Hid
        by (by apply list_elem_of_fmap_2).
      apply first_occurrences_ids in Hid as [Hnot _]. by rewrite Heq in Hseen.
    + apply (Hfirst j q); [lia | done].
  - rewrite elem_of_cons. intros [-> | Hp].
    + exists 0%nat. split; [done|]. intros j q Hj. lia.
    + pose proof Hp as Hin.
      apply IH in Hp as (i & Hi & Hfirst). exists (S i). split; [done|].
      intros [|j] q Hj Hq; cbn in Hq.
      * injection Hq as <-. intros Heq.
        assert (Person.person_id p ∈ (Person.person_id <$>
                  first_occurrences (seen ++ [Person.person_id p0]) people)) as Hid
          by (by apply list_elem_of_fmap_2).
        apply first_occurrences_ids in Hid as [Hnot _].
        apply Hnot. rewrite elem_of_app, list_elem_of_singleton. by right.
      * apply (Hfirst j q); [lia | done].
Qed.

Lemma recognized_nil faces : recognized face_distance [] faces = [].
Proof. unfold recognized. by induction faces. Qed.

(** A ready service returns, for every photo and every list of known faces,
    the identities the specification describes, and nothing when the photo
    cannot be processed. *)
Lemma identify_people_run photo known t :
  ∃ t', identify true photo known t
        = (Ok (match probe photo with
               | Ok faces => recognized face_distance (references known) faces
               | Raise _ => []
               end), t').
Proof.
  unfold identify_people. cbn [negb].
  destruct known as [|pd rest].
  { exists t. cbn. destruct (probe photo); [by rewrite recognized_nil | done]. }
  unfold mbind at 1, M_bind at 1.
  destruct (load_known_run (pd :: rest) [] [] t) as [t1 ->]. cbn [app].
  destruct (references (pd :: rest)) as [|ref refs] eqn:Hrefs.
  { exists t1. cbn. destruct (probe photo); [by rewrite recognized_nil | done]. }
  lazymatch goal with
  | |- context [match (ref :: refs).*1 with [] => ?a | _ :: _ => ?b end] =>
      change (match (ref :: refs).*1 with [] => a | _ :: _ => b end) with b
  end.
  unfold mbind at 1, M_bind at 1, try_catch. unfold mbind at 1, M_bind at 1.
  destruct (unknown_encodings_of_run photo t1) as [t2 ->].
  destruct (probe photo) as [faces|e]; cbn [mret M_ret select_handler isinstance_exn].
  - destruct (match_faces_run (ref :: refs) faces [] t2) as [t3 ->].
    exists t3. by rewrite record_matches_first_occurrences.
  - by eexists.
Qed.

(** C6: when the photo is processed, the people returned are obtained
    by taking, for each face of the photo in order, the first retained
    reference (in the order of the list of known faces, among those whose
    image gave an encoding) that is within the tolerance of the face, and by
    keeping an identity only the first time it comes up.  No identity is
    returned twice, the identities returned are exactly those matched by some
    face, and each entry is the earliest match with its identity. *)
Theorem identify_people_first_match_dedup photo known faces t :
  probe photo = Ok faces →
  let refs := references known in
  let matches := omap (matching refs) faces in
  let people := first_occurrences [] matches in
  (identify true photo known t).1 = Ok people
  ∧ refs = omap (retained_reference b64decode load_image_file face_encodings) known
  ∧ (∀ face p,
       matching refs face = Some p
       ↔ ∃ i enc, refs !! i = Some (enc, p) ∧ close enc face = true
                  ∧ ∀ j ref, (j < i)%nat → refs !! j = Some ref → close ref.1 face = false)
  ∧ NoDup (Person.person_id <$> people)
  ∧ (∀ pid, pid ∈ (Person.person_id <$> people) ↔ pid ∈ (Person.person_id <$> matches))
  ∧ (∀ p, p ∈ people →
       ∃ i, matches !! i = Some p
            ∧ ∀ j r, (j < i)%nat → matches !! j = Some r → Person.person_id r ≠ Person.person_id p).
Proof.
  intros Hprobe refs matches people. split_and!.
  - destruct (identify_people_run photo known t) as [t' ->]. cbn [fst]. by rewrite Hprobe.
  - done.
  - intros face p. unfold first_match. generalize refs as rs. clear.
    induction rs as [|[enc0 p0] rs IH]; cbn.
    + split; [done|]. by intros (i & enc & Hi & _).
    + destruct (close enc0 face) eqn:Hc; cbn.
      * split.
        -- intros [= <-]. exists 0%nat, enc0. split_and!; [done..|]. intros j ref Hj. lia.
        -- intros ([|i] & enc & Hi & Henc & Hfirst); cbn in Hi.
           ++ by injection Hi as <- <-.
           ++ specialize (Hfirst 0%nat (enc0, p0)). cbn in Hfirst.
              rewrite Hfirst in Hc; [done | lia | done].
      * rewrite IH. split.
        -- intros (i & enc & Hi & Henc & Hfirst). exists (S i), enc. split_and!; [done..|].
           intros [|j] ref Hj Hr; cbn in Hr; [by injection Hr as <- | apply (Hfirst j); [lia|done]].
        -- intros ([|i] & enc & Hi & Henc & Hfirst); cbn in Hi.
           ++ injection Hi as <- <-. by rewrite Henc in Hc.
           ++ exists i, enc. split_and!; [done..|].
              intros j ref Hj Hr. apply (Hfirst (S j)); [lia | done].
  - apply first_occurrences_NoDup.
  - intros pid. unfold people. rewrite first_occurrences_ids, elem_of_nil. naive_solver.
  - apply first_occurrences_first.
Qed.

(** C9: a ready service never raises.  With no known face it returns the
    empty list at once, before any call on the photo; and when decoding,
    loading, locating or encoding the photo raises, whatever the exception,
    it returns the empty list, as it does when no face is found. *)
Theorem identify_people_never_raises photo known t :
  (∃ people t', identify true photo known t = (Ok people, t'))
  ∧ identify true photo [] t = (Ok [], t)
  ∧ (∀ e, probe photo = Raise e → (identify true photo known t).1 = Ok [])
  ∧ (probe photo = Ok [] → (identify true photo known t).1 = Ok []).
Proof.
  split_and!.
  - destruct (identify_people_run photo known t) as [t' ->]. by eexists _, _.
  - done.
  - intros e He. destruct (identify_people_run photo known t) as [t' ->]. by rewrite He.
  - intros He. destruct (identify_people_run photo known t) as [t' ->]. by rewrite He.
Qed.

End Matching.

(** The first match need not be the closest reference: the face with
    encoding 98 is at distance 0 of Bob's reference and at distance 0.3 of
    Eve's, which comes first in the list. *)
Example first_match_is_not_the_closest :
  let refs := retained Scenario.b64decode Scenario.load_image_file Scenario.face_encodings
                Scenario.known_faces in
  refs = [(101%Z, Person.mk 1 "Eve"); (98%Z, Person.mk 2 "Bob")]
  ∧ first_match Scenario.face_distance refs 98%Z = Some (Person.mk 1 "Eve")
  ∧ SFltb (Scenario.face_distance 98 98) (Scenario.face_distance 101 98) = true.
Proof. by vm_compute. Qed.

Lemma identify_people_first_match_dedup_witness :
  (identify_people Scenario.b64decode Scenario.load_image_file Scenario.face_locations
     Scenario.face_encodings Scenario.face_distance true "b~k" Scenario.known_faces []).1
  = Ok [Person.mk 1 "Eve"].
Proof.
  destruct (identify_people_first_match_dedup Scenario.b64decode Scenario.load_image_file
              Scenario.face_locations Scenario.face_encodings Scenario.face_distance
              "b~k" Scenario.known_faces [98; 126; 107]%Z []) as [H _].
  - reflexivity.
  - exact H.
Defined.

Lemma identify_people_never_raises_witness :
  (identify_people Scenario.b64decode Scenario.load_image_file Scenario.face_locations
     Scenario.face_encodings Scenario.face_distance true "not an image" Scenario.known_faces []).1
  = Ok [].
Proof.
  destruct (identify_people_never_raises Scenario.b64decode Scenario.load_image_file
              Scenario.face_locations Scenario.face_encodings Scenario.face_distance
              "not an image" Scenario.known_faces []) as (_ & _ & H & _).
  apply (H (RuntimeError "cannot identify image file")). reflexivity.
Defined.

End FaceFacts.

(** ** Caption clean-up *)

Module VisionFacts.
Import Vision.








Lemma get_map_string f s i : String.get i (map_string f s) = f <$> String.get i s.
Proof. revert i. induction s as [|c s IH]; intros [|i]; cbn; auto. Qed.

Lemma length_map_string f s : String.length (map_string f s) = String.length s.
Proof. induction s; cbn; auto. Qed.




(** What the model raises goes on to the caller. *)
Lemma generate_caption_raises blip image_bytes e t :
  blip image_bytes = Raise e →
  generate_caption blip true true true image_bytes t = (Raise e, t ++ [EvCaption]).
Proof.
  intros Hblip. unfold generate_caption, try_catch, mbind, M_bind, call. cbn [negb orb].
  by rewrite Hblip.
Qed.


End VisionFacts.

(** * Further properties *)

(** ** Proactive analysis: the component and the validation step *)

Module AnalysisMore.
Import Analysis Shapes.

(** The score the validation step returns is the integer 0, the integer 5,
    or a float strictly between them. *)
Lemma score_of_shape fos d sc :
  score_of fos d = Ok sc → validated_score sc.
Proof.
  unfold score_of, validated_score.
  destruct (py_float fos _) as [f|e]; [|destruct e; intros [= <-]; auto].
  intros [= <-]. unfold py_max, py_min. cbn [num_lt].
  destruct (SFltb f (Z2SF 5)) eqn:H5; cbn [num_lt]; [|by right; left].
  destruct (SFltb (Z2SF 0) f) eqn:H0; [|by left].
  right; right. by exists f.
Qed.

(** The two shapes of a score in range. *)
Lemma score_shape_in_range sc :
  validated_score sc → score_in_range sc.
Proof.
  intros [-> | [-> | (f & -> & H5 & H0)]]; [by split | by split |].
  split; cbn [num_le]; by apply AnalysisFacts.SFltb_SFleb.
Qed.

Lemma analyze_memory_outcome fos loads chat ready title descr ty date loc people t :
  ∃ r, analyze_memory fos loads chat ready title descr ty date loc people t
       = (Ok r, if ready
                then t ++ [EvChat (_construct_analysis_prompt title descr ty date loc people)]
                else t)
       ∧ validated_score (proactive_score r)
       ∧ (length (seasonal_tags r) ≤ 3)%nat.
Proof.
  assert (validated_score (proactive_score _get_default_analysis)
          ∧ (length (seasonal_tags _get_default_analysis) ≤ 3)%nat) as Hdefault.
  { split; [by left | cbn; lia]. }
  unfold analyze_memory. destruct ready; cbn [negb].
  2: { by exists _get_default_analysis. }
  unfold try_catch, mbind, M_bind, call, lift.
  generalize (_construct_analysis_prompt title descr ty date loc people) as prompt.
  intros prompt.
  assert (∀ e : exn, ∃ r,
    match select_handler e
            [(JSONDecodeError, λ _ : exn, mret _get_default_analysis);
             (Exception, λ _ : exn, mret _get_default_analysis)] with
    | Some h => h (t ++ [EvChat prompt])
    | None => (Raise e, t ++ [EvChat prompt])
    end = (Ok r, t ++ [EvChat prompt])
    ∧ validated_score (proactive_score r) ∧ (length (seasonal_tags r) ≤ 3)%nat) as Hfail.
  { intros e. exists _get_default_analysis. cbn [select_handler].
    by destruct (isinstance_exn e JSONDecodeError). }
  destruct (chat prompt) as [raw|e]; [|apply Hfail].
  destruct (loads raw) as [v|e]; [|apply Hfail].
  destruct (validate_loaded fos v) as [r|e] eqn:Hv; [|apply Hfail].
  exists r. split; [done|].
  destruct v; try done. cbn in Hv. split.
  - rewrite AnalysisFacts.validate_unfold in Hv.
    destruct (score_of fos d) as [sc|e] eqn:Hsc; [|done]. injection Hv as <-.
    by apply score_of_shape in Hsc.
  - by apply AnalysisFacts.validate_bounds in Hv as (_ & _ & Hlen & _).
Qed.

(** The component as a whole: whatever the model answers and whatever
    [json.loads] and [float] do with it, [analyze_memory] returns a result,
    with a score in [0, 5] and at most three tags, after one call of the
    model when the component is ready and none when it is not.  This holds
    also where the validation step itself raises. *)
Theorem analyze_memory_total_and_bounded fos loads chat ready
    title descr ty date loc people t :
  ∃ r, analyze_memory fos loads chat ready title descr ty date loc people t
       = (Ok r, if ready
                then t ++ [EvChat (_construct_analysis_prompt title descr ty date loc people)]
                else t)
       ∧ score_in_range (proactive_score r)
       ∧ (length (seasonal_tags r) ≤ 3)%nat.
Proof.
  destruct (analyze_memory_outcome fos loads chat ready title descr ty date loc people t)
    as (r & Hrun & Hscore & Hlen).
  exists r. split_and!; [done | by apply score_shape_in_range | done].
Qed.

(** Special scores.  A float score for which [f < 5] is false becomes the
    integer 5: this is the case of NaN and of plus infinity; minus infinity
    becomes 0; a float strictly between 0 and 5 is returned as it is. *)
Theorem validate_special_scores fos (d : gmap string pyval) r f :
  _validate_analysis_result fos d = Ok r →
  d !! "proactive_score" = Some (VFloat f) →
  (f = S754_nan → proactive_score r = VInt 5)
  ∧ (f = S754_infinity false → proactive_score r = VInt 5)
  ∧ (f = S754_infinity true → proactive_score r = VInt 0)
  ∧ (SFltb f (Z2SF 5) = false → proactive_score r = VInt 5)
  ∧ (SFltb (Z2SF 0) f = true → SFltb f (Z2SF 5) = true → proactive_score r = VFloat f).
Proof.
  rewrite AnalysisFacts.validate_unfold. unfold score_of, dict_get. intros Hv Hd.
  rewrite Hd in Hv. cbn in Hv. injection Hv as <-. cbn [proactive_score].
  unfold py_max, py_min. cbn [num_lt].
  split_and!.
  - by intros ->.
  - by intros ->.
  - by intros ->.
  - by intros ->.
  - intros H0 H5. rewrite H5. cbn [num_lt]. by rewrite H0.
Qed.

Lemma validate_special_scores_witness :
  ∃ r, _validate_analysis_result Scenario.float_of_digits
         (<["proactive_score" := VFloat S754_nan]> ∅) = Ok r
       ∧ proactive_score r = VInt 5.
Proof.
  exists {| anniversary_type := VNone; seasonal_tags := []; proactive_score := VInt 5;
            reasoning := VStr "No reasoning provided." |}.
  split; [reflexivity|].
  refine (proj1 (validate_special_scores Scenario.float_of_digits
                   (<["proactive_score" := VFloat S754_nan]> ∅) _ S754_nan _ _) _);
    reflexivity.
Defined.

Lemma analysis_dict_lookup r :
  analysis_dict r !! "anniversary_type" = Some (anniversary_type r)
  ∧ analysis_dict r !! "seasonal_tags" = Some (VList (seasonal_tags r))
  ∧ analysis_dict r !! "proactive_score" = Some (proactive_score r)
  ∧ analysis_dict r !! "reasoning" = Some (reasoning r).
Proof. unfold analysis_dict. split_and!; by simplify_map_eq. Qed.

(** Validation is idempotent: the dictionary it returns, validated again,
    comes back unchanged. *)
Theorem validate_idempotent fos (d : gmap string pyval) r :
  _validate_analysis_result fos d = Ok r →
  _validate_analysis_result fos (analysis_dict r) = Ok r.
Proof.
  intros Hv.
  assert (eq_str (anniversary_type r) "null" = false
          ∧ (length (seasonal_tags r) ≤ 3)%nat
          ∧ score_of fos d = Ok (proactive_score r)) as (Ha & Hl & Hs).
  { rewrite AnalysisFacts.validate_unfold in Hv.
    destruct (score_of fos d) as [sc|e]; [|done]. injection Hv as <-. cbn. split_and!.
    - by destruct (eq_str (dict_get d "anniversary_type" VNone) "null") eqn:E.
    - rewrite length_take. lia.
    - done. }
  destruct (analysis_dict_lookup r) as (La & Lt & Ls & Lr).
  rewrite AnalysisFacts.validate_unfold. unfold score_of, dict_get.
  rewrite La, Lt, Ls, Lr. unfold default. cbn [from_option id]. rewrite Ha, (take_ge _ _ Hl).
  destruct (score_of_shape _ _ _ Hs) as [E | [E | (f & E & H5 & H0)]]; rewrite E.
  - destruct r. cbn in *. by subst.
  - destruct r. cbn in *. by subst.
  - cbn [py_float]. unfold py_max, py_min. cbn [num_lt]. rewrite H5. cbn [num_lt]. rewrite H0.
    destruct r. cbn in *. by subst.
Qed.

Lemma validate_idempotent_witness :
  ∃ r, _validate_analysis_result Scenario.float_of_digits Scenario.five_tags_reply = Ok r
       ∧ _validate_analysis_result Scenario.float_of_digits (analysis_dict r) = Ok r.
Proof.
  eexists. split; [reflexivity|].
  apply (validate_idempotent Scenario.float_of_digits Scenario.five_tags_reply). reflexivity.
Defined.

(** A reply object that has none of the four keys (such as [{}]) is not a
    failure: a ready component returns no anniversary, no tag, score 0 and
    the reasoning "No reasoning provided.", which tells it apart from the
    default of a failed analysis. *)
Theorem analyze_memory_empty_reply fos loads chat title descr ty date loc people t raw
    (d : gmap string pyval) :
  chat (_construct_analysis_prompt title descr ty date loc people) = Ok raw →
  loads raw = Ok (VDict d) →
  d !! "anniversary_type" = None → d !! "seasonal_tags" = None →
  d !! "proactive_score" = None → d !! "reasoning" = None →
  (analyze_memory fos loads chat true title descr ty date loc people t).1
  = Ok {| anniversary_type := VNone;
          seasonal_tags := [];
          proactive_score := VInt 0;
          reasoning := VStr "No reasoning provided." |}
  ∧ reasoning _get_default_analysis ≠ VStr "No reasoning provided.".
Proof.
  intros Hchat Hloads Ha Ht Hs Hr. split; [|done].
  unfold analyze_memory, try_catch, mbind, M_bind, call, lift. cbn [negb].
  rewrite Hchat, Hloads. cbn [validate_loaded].
  rewrite AnalysisFacts.validate_unfold. unfold score_of, dict_get.
  by rewrite Ha, Ht, Hs, Hr.
Qed.

Lemma analyze_memory_empty_reply_witness :
  (analyze_memory Scenario.float_of_digits (λ _, Ok (VDict ∅)) (Scenario.chat_const (Ok "{}"))
     true "Walk" "A walk in the park" "text" None None None []).1
  = Ok {| anniversary_type := VNone;
          seasonal_tags := [];
          proactive_score := VInt 0;
          reasoning := VStr "No reasoning provided." |}.
Proof.
  apply (analyze_memory_empty_reply Scenario.float_of_digits (λ _, Ok (VDict ∅))
           (Scenario.chat_const (Ok "{}")) "Walk" "A walk in the park" "text" None None None []
           "{}" ∅); reflexivity.
Defined.

(** A reply that is valid JSON but no object (a list, a string, a number,
    [null], ...) ends in the default result, like a parse error. *)
Theorem analyze_memory_non_object_reply fos loads chat title descr ty date loc people t raw v :
  chat (_construct_analysis_prompt title descr ty date loc people) = Ok raw →
  loads raw = Ok v →
  (∀ d, v ≠ VDict d) →
  (analyze_memory fos loads chat true title descr ty date loc people t).1
  = Ok _get_default_analysis.
Proof.
  intros Hchat Hloads Hv.
  unfold analyze_memory, try_catch, mbind, M_bind, call, lift. cbn [negb].
  rewrite Hchat, Hloads. destruct v; try done. by destruct (Hv d).
Qed.

Lemma analyze_memory_non_object_reply_witness :
  (analyze_memory Scenario.float_of_digits (λ _, Ok (VList [VInt 4]))
     (Scenario.chat_const (Ok "[4]")) true "Walk" "A walk in the park" "text" None None None []).1
  = Ok _get_default_analysis.
Proof.
  apply (analyze_memory_non_object_reply Scenario.float_of_digits (λ _, Ok (VList [VInt 4]))
           (Scenario.chat_const (Ok "[4]")) "Walk" "A walk in the park" "text" None None None []
           "[4]" (VList [VInt 4])); [reflexivity | reflexivity | discriminate].
Defined.

End AnalysisMore.

(** ** The director's prompt as a whole *)

Module PromptMore.
Import Chat PromptShapes.

Lemma mode_section_appends request prompt :
  mode_section request prompt = prompt +:+ mode_section request EmptyString.
Proof.
  unfold mode_section. cbv zeta.
  case_bool_decide; [by rewrite ?ChatFacts.append_assoc|].
  case_bool_decide; [|by rewrite ChatFacts.append_nil_r].
  destruct (existsb is_visual _); by rewrite ?ChatFacts.append_assoc.
Qed.

Lemma override_section_appends request prompt :
  override_section request prompt = prompt +:+ override_section request EmptyString.
Proof.
  unfold override_section. cbv zeta.
  destruct (String.eqb _ _); [by rewrite ?ChatFacts.append_assoc | by rewrite ChatFacts.append_nil_r].
Qed.

Lemma patient_section_name request prompt :
  (patient_section request prompt).1 = patient_name_of request.
Proof.
  unfold patient_section, patient_name_of.
  by destruct (ChatRequest.patient_context request).
Qed.

Lemma memory_entry_listed patient_name prompt i mem :
  memory_entry patient_name prompt i mem = prompt +:+ listed_memory patient_name i mem.
Proof.
  unfold memory_entry, listed_memory, status_line. cbv zeta. rewrite Nat.add_1_r.
  destruct patient_name; [|destruct (patient_is_present _ mem)];
    by rewrite ?ChatFacts.append_assoc.
Qed.

(** The memories section for a request that has memories. *)
Lemma memories_section_listing request patient_name prompt :
  ChatRequest.context_memories request ≠ [] →
  memories_section request patient_name prompt
  = prompt +:+ nl +:+ nl +:+ "--- RELEVANT MEMORIES ---"
      +:+ concat_all (imap (listed_memory patient_name) (ChatRequest.context_memories request))
      +:+ match visual_memories request with
          | [] => EmptyString
          | _ :: _ => scene_block (visual_memories request)
          end.
Proof.
  unfold memories_section, visual_memories. cbv zeta. intros Hmem.
  destruct (ChatRequest.context_memories request) as [|m ms]; [done|].
  rewrite (ChatFacts.for_enumerate_appends _ _ (memory_entry_listed patient_name)).
  destruct (List.filter is_visual (m :: ms)) as [|v vs].
  - by rewrite ChatFacts.append_nil_r, ?ChatFacts.append_assoc.
  - rewrite (ChatFacts.for_enumerate_appends _ _ ChatFacts.scene_entry_appends).
    unfold scene_block. by rewrite ?ChatFacts.append_assoc.
Qed.

Lemma respond_section_text request :
  respond_section request EmptyString
  = nl +:+ nl +:+ "--- RESPOND NOW ---"
       +:+ nl +:+ "User Query: '" +:+ ChatRequest.query request +:+ "'"
       +:+ nl +:+ closing_instruction request.
Proof.
  unfold respond_section, closing_instruction. cbv zeta.
  case_bool_decide; by rewrite ?ChatFacts.append_assoc.
Qed.

(** Every prompt begins with the fixed preamble, which names the two JSON
    shapes, and ends with the "RESPOND NOW" section: the user's query between
    single quotes, then the closing instruction, which asks for the narrative
    format in casual mode and refers to the memories and rules otherwise. *)
Theorem prompt_frame request :
  ∃ middle,
    _construct_prompt request
    = preamble +:+ middle
        +:+ nl +:+ nl +:+ "--- RESPOND NOW ---"
        +:+ nl +:+ "User Query: '" +:+ ChatRequest.query request +:+ "'"
        +:+ nl +:+ (if bool_decide (ChatRequest.conversation_type request = Some "casual")
                    then "Provide a warm, casual response using NARRATIVE format."
                    else "Provide an appropriate response based on the memories and rules above.").
Proof.
  unfold _construct_prompt. cbv zeta.
  rewrite ChatFacts.patient_section_appends, ChatFacts.respond_section_appends,
    ChatFacts.memories_section_appends, ChatFacts.rules_section_appends,
    override_section_appends, mode_section_appends, respond_section_text.
  unfold closing_instruction. cbn [fst snd].
  exists (mode_section request EmptyString +:+ override_section request EmptyString
            +:+ rules_section EmptyString +:+ (patient_section request EmptyString).2
            +:+ memories_section request (patient_section request EmptyString).1 EmptyString).
  by rewrite !ChatFacts.append_assoc.
Qed.

(** Without context memories the prompt says so: the section "NO RELEVANT
    MEMORIES" comes right before the "RESPOND NOW" section, and no memory is
    listed. *)
Theorem prompt_without_memories request :
  ChatRequest.context_memories request = [] →
  ∃ before,
    _construct_prompt request
    = before +:+ nl +:+ nl +:+ "--- NO RELEVANT MEMORIES ---"
        +:+ nl +:+ "No specific memories were found related to this query."
        +:+ nl +:+ nl +:+ "--- RESPOND NOW ---"
        +:+ nl +:+ "User Query: '" +:+ ChatRequest.query request +:+ "'"
        +:+ nl +:+ closing_instruction request.
Proof.
  intros Hmem. unfold _construct_prompt. cbv zeta.
  destruct (patient_section request _) as [patient_name prompt].
  rewrite ChatFacts.respond_section_appends, respond_section_text.
  unfold memories_section. rewrite Hmem. cbv zeta.
  exists prompt. by rewrite !ChatFacts.append_assoc.
Qed.

Lemma prompt_without_memories_witness :
  ∃ before,
    _construct_prompt (ChatRequest.mk "Hello" [] None (Some "casual"))
    = before +:+ nl +:+ nl +:+ "--- NO RELEVANT MEMORIES ---"
        +:+ nl +:+ "No specific memories were found related to this query."
        +:+ nl +:+ nl +:+ "--- RESPOND NOW ---"
        +:+ nl +:+ "User Query: 'Hello'"
        +:+ nl +:+ "Provide a warm, casual response using NARRATIVE format.".
Proof.
  destruct (prompt_without_memories (ChatRequest.mk "Hello" [] None (Some "casual")))
    as [before E]; [reflexivity|].
  exists before. exact E.
Defined.

(** With context memories the prompt lists every one of them, in order and
    numbered from 1, with its identifier and its description; each entry has
    a patient-status line exactly when the request names a patient.  The
    scene block follows when there is a visual memory, and nothing when there
    is none; then comes the "RESPOND NOW" section. *)
Theorem prompt_lists_memories request :
  ChatRequest.context_memories request ≠ [] →
  let memories := ChatRequest.context_memories request in
  let name := patient_name_of request in
  let entries := imap (listed_memory name) memories in
  (∃ before,
     _construct_prompt request
     = before +:+ nl +:+ nl +:+ "--- RELEVANT MEMORIES ---"
         +:+ concat_all entries
         +:+ match visual_memories request with
             | [] => EmptyString
             | _ :: _ => scene_block (visual_memories request)
             end
         +:+ respond_section request EmptyString)
  ∧ length entries = length memories
  ∧ (∀ i mem, memories !! i = Some mem →
       entries !! i
       = Some (nl +:+ "Memory " +:+ pretty (S i) +:+ " (ID: " +:+ MemoryContext.memory_id mem +:+ "):"
                  +:+ nl +:+ MemoryContext.description mem
                  +:+ status_line name mem +:+ nl))
  ∧ (∀ mem, name = EmptyString → status_line name mem = EmptyString)
  ∧ (∀ mem, name ≠ EmptyString → status_line name mem ≠ EmptyString).
Proof.
  intros Hmem memories name entries. split_and!.
  - unfold _construct_prompt. cbv zeta.
    pose proof (patient_section_name request
                  (rules_section (override_section request (mode_section request preamble)))) as Hn.
    destruct (patient_section request _) as [patient_name prompt]. cbn in Hn. subst patient_name.
    rewrite ChatFacts.respond_section_appends, (memories_section_listing _ _ _ Hmem).
    exists prompt. by rewrite !ChatFacts.append_assoc.
  - apply length_imap.
  - intros i mem Hi. unfold entries. by rewrite list_lookup_imap, Hi.
  - by intros mem ->.
  - intros mem Hne. unfold status_line. destruct name; [done|].
    by destruct (patient_is_present _ mem).
Qed.

Lemma prompt_lists_memories_witness :
  ∃ before,
    _construct_prompt Samples.request_with_patient
    = before +:+ nl +:+ nl +:+ "--- RELEVANT MEMORIES ---"
        +:+ (nl +:+ "Memory 1 (ID: m3):" +:+ nl +:+ "A letter from Tom"
               +:+ nl +:+ "Patient Status: PRESENT. The patient, Tom, is in this memory. You MUST refer to him as "
               +:+ q "you" +:+ "." +:+ nl)
        +:+ (nl +:+ "Memory 2 (ID: m2):" +:+ nl +:+ "A birthday party"
               +:+ nl +:+ "Patient Status: NOT PRESENT. The patient is NOT in this memory. You MUST refer to all people by their names."
               +:+ nl)
        +:+ scene_block [Scenario.party]
        +:+ respond_section Samples.request_with_patient EmptyString.
Proof.
  destruct (prompt_lists_memories Samples.request_with_patient) as [[before E] _];
    [discriminate|].
  exists before. exact E.
Defined.

Lemma existsb_filter_nil {A} (f : A → bool) xs :
  existsb f xs = false ↔ List.filter f xs = [].
Proof.
  induction xs as [|x xs IH]; [done|]. cbn. destruct (f x); cbn; [split; done | exact IH].
Qed.

(** The conversation-mode section has three cases.  Casual: the casual
    instructions.  Memory-based: the cinematic instructions, with the number
    of visual memories, when there is a visual memory, and the narrative
    instructions when there is none.  Any other mode, a missing one
    included: no mode section at all, so the rules follow the preamble (or the
    override section) directly. *)
Theorem mode_section_cases request prompt :
  let mode := ChatRequest.conversation_type request in
  let n := length (visual_memories request) in
  (mode = Some "casual" →
   mode_section request prompt
   = prompt +:+ nl +:+ nl +:+ "--- CASUAL CONVERSATION MODE ---"
       +:+ nl +:+ "The user is having a casual conversation with no specific memories provided."
       +:+ nl +:+ "Respond warmly and naturally using NARRATIVE format."
       +:+ nl +:+ "You can ask how they're feeling, what they'd like to talk about, or just be a friendly companion.")
  ∧ (mode = Some "memory_based" → visual_memories request ≠ [] →
     mode_section request prompt
     = prompt +:+ nl +:+ nl +:+ "--- MEMORY CONVERSATION MODE ---"
         +:+ nl +:+ "The user is asking about memories. Relevant memories have been provided below."
         +:+ nl +:+ "Since " +:+ pretty n +:+ " visual memories (photos/videos) are available, use CINEMATIC format."
         +:+ nl +:+ "You MUST create exactly " +:+ pretty n +:+ " scenes - one for each visual memory provided."
         +:+ nl +:+ "DO NOT skip any memories. Include ALL " +:+ pretty n +:+ " visual memories as separate scenes.")
  ∧ (mode = Some "memory_based" → visual_memories request = [] →
     mode_section request prompt
     = prompt +:+ nl +:+ nl +:+ "--- MEMORY CONVERSATION MODE ---"
         +:+ nl +:+ "The user is asking about memories. Relevant memories have been provided below."
         +:+ nl +:+ "Only text/voice memories are available, so use NARRATIVE format."
         +:+ nl +:+ "Weave the memory information naturally into your response.")
  ∧ (mode ≠ Some "casual" → mode ≠ Some "memory_based" →
     mode_section request prompt = prompt
     ∧ ∃ after, _construct_prompt request
                = override_section request preamble
                    +:+ nl +:+ nl +:+ "--- IMPORTANT RULES ---" +:+ after).
Proof.
  intros mode n. unfold mode_section. cbv zeta. fold mode. split_and!.
  - intros ->. rewrite bool_decide_eq_true_2 by done. by rewrite ?ChatFacts.append_assoc.
  - intros -> Hvis. rewrite bool_decide_eq_false_2 by done.
    rewrite bool_decide_eq_true_2 by done.
    destruct (existsb is_visual _) eqn:E.
    + by rewrite ?ChatFacts.append_assoc.
    + by apply existsb_filter_nil in E.
  - intros -> Hvis. rewrite bool_decide_eq_false_2 by done.
    rewrite bool_decide_eq_true_2 by done.
    apply existsb_filter_nil in Hvis. rewrite Hvis. by rewrite ?ChatFacts.append_assoc.
  - intros Hc Hm. rewrite !bool_decide_eq_false_2 by done. split; [done|].
    unfold _construct_prompt. cbv zeta.
    rewrite ChatFacts.patient_section_appends, ChatFacts.respond_section_appends,
      ChatFacts.memories_section_appends, ChatFacts.rules_section_appends.
    unfold mode_section. cbv zeta. fold mode. rewrite !bool_decide_eq_false_2 by done.
    unfold rules_section. cbv zeta.
    eexists. rewrite !ChatFacts.append_assoc. reflexivity.
Qed.

Lemma mode_section_cases_witness :
  ∃ after, _construct_prompt (ChatRequest.mk "Hello" [] None None)
           = preamble +:+ nl +:+ nl +:+ "--- IMPORTANT RULES ---" +:+ after.
Proof.
  destruct (mode_section_cases (ChatRequest.mk "Hello" [] None None) preamble)
    as (_ & _ & _ & H).
  destruct H as [_ [after E]]; [discriminate | discriminate |].
  exists after. exact E.
Defined.

End PromptMore.

(** ** The patient-status line *)

Module PresenceMore.
Import Chat PromptShapes.

Lemma lower_app a b : lower (a +:+ b) = lower a +:+ lower b.
Proof.
  unfold lower. induction a as [|c a IH]; [done|].
  change (String c a +:+ b) with (String c (a +:+ b)). cbn. by rewrite IH.
Qed.

Lemma prefix_append n s : String.prefix n (n +:+ s) = true.
Proof.
  induction n as [|c n IH]; [by destruct s|].
  change (String c n +:+ s) with (String c (n +:+ s)). cbn.
  by destruct (ascii_dec c c).
Qed.

Lemma contains_prefix n s : String.prefix n s = true → contains n s = true.
Proof. destruct s; cbn; by intros ->. Qed.

Lemma contains_append pre n post : contains n (pre +:+ n +:+ post) = true.
Proof.
  induction pre as [|c pre IH].
  - change (EmptyString +:+ n +:+ post) with (n +:+ post).
    apply contains_prefix, prefix_append.
  - change (String c pre +:+ n +:+ post) with (String c (pre +:+ n +:+ post)).
    cbn. rewrite IH. apply orb_true_r.
Qed.

(** For a patient name and a description of ASCII characters: a memory
    whose description mentions the patient's name somewhere, in whatever
    letter case, or begins with "you " in whatever letter case, is marked as
    one the patient is in: its entry carries the line "Patient Status:
    PRESENT", with the name as the request gives it. *)
Theorem named_patient_is_present patient_name prompt i mem :
  patient_name ≠ EmptyString →
  is_ascii patient_name = true →
  is_ascii (MemoryContext.description mem) = true →
  (∃ before mention after,
     MemoryContext.description mem = before +:+ mention +:+ after
     ∧ lower mention = lower patient_name)
  ∨ (∃ you rest, MemoryContext.description mem = you +:+ rest ∧ lower you = "you ") →
  patient_is_present patient_name mem = true
  ∧ memory_entry patient_name prompt i mem
    = prompt +:+ nl +:+ "Memory " +:+ pretty (S i) +:+ " (ID: " +:+ MemoryContext.memory_id mem +:+ "):"
        +:+ nl +:+ MemoryContext.description mem
        +:+ nl +:+ "Patient Status: PRESENT. The patient, " +:+ patient_name
        +:+ ", is in this memory. You MUST refer to him as " +:+ q "you" +:+ "."
        +:+ nl.
Proof.
  intros Hname _ _ Hdesc.
  assert (patient_is_present patient_name mem = true) as Hpresent.
  { unfold patient_is_present. cbv zeta.
    destruct Hdesc as [(before & mention & after & -> & Hl) | (you & rest & -> & Hl)].
    - rewrite !lower_app, Hl, contains_append. done.
    - unfold startswith. rewrite lower_app, Hl, prefix_append.
      by rewrite !orb_true_r. }
  split; [done|].
  rewrite PromptMore.memory_entry_listed. unfold listed_memory, status_line.
  rewrite Hpresent. destruct patient_name; [done|].
  by rewrite ?ChatFacts.append_assoc.
Qed.

Lemma named_patient_is_present_witness :
  patient_is_present "john"
    (MemoryContext.mk "m7" "text" "Kate and JOHN at the lake") = true.
Proof.
  refine (proj1 (named_patient_is_present "john" EmptyString 0
                   (MemoryContext.mk "m7" "text" "Kate and JOHN at the lake") _ _ _ _)).
  - discriminate.
  - reflexivity.
  - reflexivity.
  - left. exists "Kate and ", "JOHN", " at the lake". split; reflexivity.
Defined.

End PresenceMore.

(** ** The director: scenes and prescribed shapes *)

Module DirectorMore.
Import Chat Shapes.

Lemma scene_items_raises cs cm vs v e :
  v ∈ vs → scene_item cs cm v = Raise e → scene_items cs cm vs = Raise ValidationError.
Proof.
  induction vs as [|v0 vs IH]; [by rewrite elem_of_nil|].
  rewrite elem_of_cons. intros [<- | Hin] Hv; cbn.
  - by rewrite Hv.
  - rewrite (IH Hin Hv). by destruct (scene_item cs cm v0).
Qed.

(** A cinematic reply is taken whole or not at all: one scene that fails
    validation (a scene without narration, say) turns the whole reply into
    the apology, also when every other scene is well formed. *)
Theorem one_bad_scene_gives_apology loads chat cs cm request t raw
    (d : gmap string pyval) vs v e :
  chat (_construct_prompt request) = Ok raw →
  loads raw = Ok (VDict d) →
  d !! "response_type" = Some (VStr "cinematic_show") →
  d !! "scenes" = Some (VList vs) →
  v ∈ vs →
  scene_item cs cm v = Raise e →
  (generate_response loads chat cs cm true request t).1
  = Ok (NarrativeResponse apology_message).
Proof.
  intros Hchat Hloads Hrt Hscenes Hin Hv.
  rewrite DirectorFacts.generate_response_ready. cbn [fst].
  unfold parsed_reply, mbind, res_bind. rewrite Hchat, Hloads.
  rewrite (DirectorFacts.interpret_cinematic _ _ _ Hrt).
  unfold CinematicShow_init, literal_field, required, mbind, res_bind.
  rewrite Hrt, Hscenes. cbn.
  destruct (d !! "show_title") as [title|]; [|done].
  destruct (str_field cs title); [|done].
  by rewrite (scene_items_raises _ _ _ _ _ Hin Hv).
Qed.

Lemma one_bad_scene_gives_apology_witness :
  (generate_response
     (λ _, Ok (VDict (<["response_type" := VStr "cinematic_show"]>
                        (<["show_title" := VStr "Your day"]>
                           (<["scenes" := VList [scene_dict (Scene.mk "m1" "The sea");
                                                 VDict (<["memory_id" := VStr "m2"]> ∅)]]> ∅)))))
     (Scenario.chat_const (Ok "reply")) Scenario.no_str Scenario.no_model true
     Scenario.memory_request []).1
  = Ok (NarrativeResponse apology_message).
Proof.
  eapply (one_bad_scene_gives_apology _ _ _ _ _ _ "reply" _ _
            (VDict (<["memory_id" := VStr "m2"]> ∅)) ValidationError);
    [reflexivity | reflexivity | reflexivity | reflexivity | | reflexivity].
  apply elem_of_cons. right. apply elem_of_cons. by left.
Defined.

Lemma scene_items_dicts cs cm scs : scene_items cs cm (scene_dict <$> scs) = Ok scs.
Proof.
  induction scs as [|[memory_id narration] scs IH]; [done|].
  cbn [fmap list_fmap scene_items]. fold (scene_dict <$> scs). rewrite IH. by vm_compute.
Qed.

Lemma interpret_response_dict cs cm r : interpret cs cm (VDict (response_dict r)) = Ok r.
Proof.
  destruct r as [show_title scenes | message].
  - rewrite DirectorFacts.interpret_cinematic by done.
    unfold CinematicShow_init, literal_field, required, mbind, res_bind, response_dict.
    rewrite lookup_insert_eq. cbn [eq_str]. rewrite String.eqb_refl.
    rewrite (lookup_insert_ne _ "response_type" "show_title") by done.
    rewrite lookup_insert_eq. cbn [str_field].
    rewrite (lookup_insert_ne _ "response_type" "scenes") by done.
    rewrite (lookup_insert_ne _ "show_title" "scenes") by done.
    rewrite lookup_insert_eq. by rewrite scene_items_dicts.
  - rewrite DirectorFacts.interpret_narrative by done.
    unfold NarrativeResponse_init, literal_field, required, mbind, res_bind, response_dict.
    rewrite lookup_insert_eq. cbn [eq_str]. rewrite String.eqb_refl.
    rewrite (lookup_insert_ne _ "response_type" "message") by done.
    by rewrite lookup_insert_eq.
Qed.

(** Round trip with the shapes the prompt prescribes: a reply that is one of
    the two shapes, with strings in its fields, is read back as exactly that
    response, whatever pydantic's coercions.  Nothing of the request is
    consulted: the scenes are not counted against the visual memories and the
    memory identifiers are not looked up, so a show with no scene at all is
    accepted for a request with visual memories. *)
Theorem prescribed_shape_round_trip loads chat cs cm request t raw r :
  chat (_construct_prompt request) = Ok raw →
  loads raw = Ok (VDict (response_dict r)) →
  (generate_response loads chat cs cm true request t).1 = Ok r.
Proof.
  intros Hchat Hloads.
  rewrite DirectorFacts.generate_response_ready. cbn [fst].
  unfold parsed_reply, mbind, res_bind. rewrite Hchat, Hloads.
  by rewrite interpret_response_dict.
Qed.

Lemma prescribed_shape_round_trip_witness :
  visual_memories Scenario.memory_request = [Scenario.beach; Scenario.party]
  ∧ (generate_response (λ _, Ok (VDict (response_dict (CinematicShow "Nothing to show" []))))
       (Scenario.chat_const (Ok "reply")) Scenario.no_str Scenario.no_model true
       Scenario.memory_request []).1
    = Ok (CinematicShow "Nothing to show" []).
Proof.
  split; [reflexivity|].
  apply (prescribed_shape_round_trip _ _ _ _ _ _ "reply"); reflexivity.
Defined.

End DirectorMore.

(** ** Face matching: what is returned and what is called *)

Module FaceMore.
Import Face FaceTrace.

Section Matching.

Context {bytes image location encoding : Type}.
Variable b64decode : string → res bytes.
Variable load_image_file : bytes → res image.
Variable face_locations : image → res (list location).
Variable face_encodings : image → option (list location) → res (list encoding).
Variable face_distance : encoding → encoding → spec_float.

Local Abbreviation identify :=
  (identify_people b64decode load_image_file face_locations face_encodings face_distance).
Local Abbreviation references := (retained b64decode load_image_file face_encodings).
Local Abbreviation probe := (probe_result b64decode load_image_file face_locations face_encodings).
Local Abbreviation matching := (first_match face_distance).
Local Abbreviation loading := (load_known b64decode load_image_file face_encodings).

Lemma identify_people_value photo known t :
  (identify true photo known t).1
  = Ok (match probe photo with
        | Ok faces => recognized face_distance (references known) faces
        | Raise _ => []
        end).
Proof.
  by destruct (FaceFacts.identify_people_run b64decode load_image_file face_locations
                 face_encodings face_distance photo known t) as [t' ->].
Qed.

Lemma first_match_retained (refs : list (encoding * Person.t)) face p :
  matching refs face = Some p → ∃ enc, (enc, p) ∈ refs.
Proof.
  unfold first_match. destruct (List.find _ refs) as [[enc q]|] eqn:Hf; [|done].
  intros [= <-]. exists enc. apply List.find_some in Hf as [Hin _].
  by apply list_elem_of_In.
Qed.

Lemma first_occurrences_sub seen (people : list Person.t) p :
  p ∈ first_occurrences seen people → p ∈ people.
Proof.
  intros (i & Hi & _)%FaceFacts.first_occurrences_first.
  by eapply list_elem_of_lookup_2.
Qed.

Lemma first_occurrences_length seen (people : list Person.t) :
  (length (first_occurrences seen people) ≤ length people)%nat.
Proof.
  revert seen. induction people as [|p people IH]; intros seen; cbn; [lia|].
  case_bool_decide; cbn.
  - specialize (IH seen). lia.
  - specialize (IH (seen ++ [Person.person_id p])). lia.
Qed.

Lemma omap_length_le {A B} (f : A → option B) (xs : list A) :
  (length (omap f xs) ≤ length xs)%nat.
Proof. induction xs as [|x xs IH]; cbn; [lia|]. destruct (f x); cbn; lia. Qed.

(** Only known people are returned: each entry carries the identity and the
    name of one of the known faces given, one whose avatar was decoded,
    loaded and encoded with at least one face found. *)
Theorem identify_people_returns_known photo known t people :
  (identify true photo known t).1 = Ok people →
  ∀ p, p ∈ people →
    ∃ person_data first more,
      person_data ∈ known
      ∧ p = Person.mk (KnownFacePayload.person_id person_data)
                      (KnownFacePayload.name person_data)
      ∧ avatar_result b64decode load_image_file face_encodings person_data
        = Ok (first :: more).
Proof.
  rewrite identify_people_value. intros [= <-] p Hp.
  destruct (probe photo) as [faces|e]; [|by apply elem_of_nil in Hp].
  unfold recognized in Hp. apply first_occurrences_sub in Hp.
  apply list_elem_of_omap in Hp as (face & _ & Hmatch).
  apply first_match_retained in Hmatch as [enc Hin].
  unfold retained in Hin. apply list_elem_of_omap in Hin as (pd & Hpd & Href).
  unfold retained_reference in Href.
  destruct (avatar_result _ _ _ pd) as [[|first more]|e] eqn:Ha; try done.
  injection Href as <- <-. by exists pd, first, more.
Qed.

(** The result has at most one entry per face of the photo and at most one
    per retained reference, hence never more entries than known faces. *)
Theorem identify_people_length photo known faces t people :
  probe photo = Ok faces →
  (identify true photo known t).1 = Ok people →
  (length people ≤ length faces)%nat
  ∧ (length people ≤ length (references known))%nat
  ∧ (length (references known) ≤ length known)%nat.
Proof.
  rewrite identify_people_value. intros -> [= <-]. unfold recognized. split_and!.
  - etrans; [apply first_occurrences_length | apply omap_length_le].
  - rewrite <- (length_fmap Person.person_id), <- (length_fmap snd (references known)).
    rewrite <- (length_fmap Person.person_id (snd <$> references known)).
    apply submseteq_length, NoDup_submseteq; [apply FaceFacts.first_occurrences_NoDup|].
    intros pid (p & -> & Hp)%list_elem_of_fmap.
    apply first_occurrences_sub in Hp.
    apply list_elem_of_omap in Hp as (face & _ & Hmatch).
    apply first_match_retained in Hmatch as [enc Hin].
    apply list_elem_of_fmap. exists p. split; [done|].
    apply list_elem_of_fmap. by exists (enc, p).
  - apply omap_length_le.
Qed.

(** The faces of the photo are handled in order: a photo that shows the same
    faces followed by more gives the same people followed by more. *)
Theorem identify_people_more_faces photo photo' known faces more t t' :
  probe photo = Ok faces →
  probe photo' = Ok (faces ++ more) →
  ∃ people extra,
    (identify true photo known t).1 = Ok people
    ∧ (identify true photo' known t').1 = Ok (people ++ extra).
Proof.
  intros Hp Hp'. rewrite !identify_people_value, Hp, Hp'. unfold recognized.
  pose proof (FaceFacts.record_matches_first_occurrences face_distance
                (references known) faces []) as H1.
  pose proof (FaceFacts.record_matches_first_occurrences face_distance
                (references known) (faces ++ more) []) as H2.
  rewrite foldl_app, H1 in H2. cbn [app fmap list_fmap] in H1, H2.
  rewrite FaceFacts.record_matches_first_occurrences in H2.
  eexists _, _. split; [done|]. by rewrite <- H2.
Qed.

(** The loop over the known faces logs nothing but calls on the avatars. *)
Lemma avatar_encodings_of_events person_data t :
  ∃ evs, (avatar_encodings_of b64decode load_image_file face_encodings person_data t).2 = t ++ evs
         ∧ Forall (avatar_event [person_data]) evs.
Proof.
  unfold avatar_encodings_of, mbind, M_bind, call.
  assert (avatar_event [person_data] (EvB64decode (KnownFacePayload.avatar_base_64 person_data)))
    as Hd by (cbn; apply elem_of_cons; by left).
  destruct (b64decode _) as [b|e]; cbn.
  2: { exists [EvB64decode (KnownFacePayload.avatar_base_64 person_data)].
       split; [done|]. by repeat constructor. }
  destruct (load_image_file b) as [i|e]; cbn.
  - exists [EvB64decode (KnownFacePayload.avatar_base_64 person_data); EvLoadImage; EvFaceEncodings].
    split; [by rewrite <- !app_assoc|]. by repeat constructor.
  - exists [EvB64decode (KnownFacePayload.avatar_base_64 person_data); EvLoadImage].
    split; [by rewrite <- !app_assoc|]. by repeat constructor.
Qed.

Lemma avatar_event_mono known known' ev :
  (∀ pd, pd ∈ known → pd ∈ known') → avatar_event known ev → avatar_event known' ev.
Proof.
  intros Hsub. destruct ev; cbn; try done.
  intros (pd & -> & Hpd)%list_elem_of_fmap. apply list_elem_of_fmap. exists pd. auto.
Qed.

Lemma load_known_events known :
  ∀ encs metas t,
    ∃ evs, (loading known encs metas t).2 = t ++ evs ∧ Forall (avatar_event known) evs.
Proof.
  induction known as [|pd rest IH]; intros encs metas t.
  - exists []. by rewrite app_nil_r.
  - cbn [load_known]. unfold mbind at 1, M_bind at 1, try_catch.
    unfold mbind at 1, M_bind at 1.
    destruct (avatar_encodings_of_events pd t) as (evs1 & Ht1 & Hevs1).
    destruct (avatar_encodings_of _ _ _ pd t) as [r t1]. cbn [snd] in Ht1. subst t1.
    assert (∀ encs' metas',
      ∃ evs, (loading rest encs' metas' (t ++ evs1)).2 = t ++ evs
             ∧ Forall (avatar_event (pd :: rest)) evs) as Hrest.
    { intros encs' metas'. destruct (IH encs' metas' (t ++ evs1)) as (evs2 & -> & Hevs2).
      exists (evs1 ++ evs2). split; [by rewrite app_assoc|].
      apply Forall_app. split.
      - eapply Forall_impl; [exact Hevs1|]. intros ev. apply avatar_event_mono.
        intros x ->%list_elem_of_singleton. by left.
      - eapply Forall_impl; [exact Hevs2|]. intros ev. apply avatar_event_mono.
        intros x Hx. by right. }
    destruct r as [[|first more]|e]; cbn; apply Hrest.
Qed.

(** When no known face yields an encoding (bad data, no face in any avatar),
    the result is empty and the photo to check is not touched: every call
    made is a call of the loop on the avatars. *)
Theorem identify_people_without_reference photo known t :
  references known = [] →
  ∃ evs, identify true photo known t = (Ok [], t ++ evs)
         ∧ (loading known [] [] t).2 = t ++ evs
         ∧ Forall (avatar_event known) evs.
Proof.
  intros Hrefs. unfold identify_people. cbn [negb].
  destruct known as [|pd rest]; [by exists []; rewrite app_nil_r|].
  unfold mbind at 1, M_bind at 1.
  destruct (load_known_events (pd :: rest) [] [] t) as (evs & Ht & Hevs).
  destruct (FaceFacts.load_known_run b64decode load_image_file face_encodings
              (pd :: rest) [] [] t) as [t1 Hrun].
  rewrite Hrun in Ht |- *. cbn [snd] in Ht. subst t1.
  rewrite Hrefs. cbn. by exists evs.
Qed.

End Matching.

Lemma identify_people_length_witness :
  (length [Person.mk 1 "Eve"] ≤ length [98; 126; 107]%Z)%nat.
Proof.
  destruct (identify_people_length Scenario.b64decode Scenario.load_image_file
              Scenario.face_locations Scenario.face_encodings Scenario.face_distance
              "b~k" Scenario.known_faces [98; 126; 107]%Z [] [Person.mk 1 "Eve"]) as [H _].
  - reflexivity.
  - reflexivity.
  - exact H.
Defined.

Lemma identify_people_returns_known_witness :
  ∃ person_data, person_data ∈ Scenario.known_faces
                 ∧ Person.mk 1 "Eve" = Person.mk (KnownFacePayload.person_id person_data)
                                                 (KnownFacePayload.name person_data).
Proof.
  destruct (identify_people_returns_known Scenario.b64decode Scenario.load_image_file
              Scenario.face_locations Scenario.face_encodings Scenario.face_distance
              "b~k" Scenario.known_faces [] [Person.mk 1 "Eve"]) with (p := Person.mk 1 "Eve")
    as (pd & first & more & Hin & Hp & _).
  - reflexivity.
  - apply elem_of_cons. by left.
  - by exists pd.
Defined.

Lemma identify_people_more_faces_witness :
  ∃ people extra,
    (identify_people Scenario.b64decode Scenario.load_image_file Scenario.face_locations
       Scenario.face_encodings Scenario.face_distance true "~b" Scenario.known_faces []).1
    = Ok people
    ∧ (identify_people Scenario.b64decode Scenario.load_image_file Scenario.face_locations
         Scenario.face_encodings Scenario.face_distance true "~bk" Scenario.known_faces []).1
      = Ok (people ++ extra).
Proof.
  apply (identify_people_more_faces Scenario.b64decode Scenario.load_image_file
           Scenario.face_locations Scenario.face_encodings Scenario.face_distance
           "~b" "~bk" Scenario.known_faces [126; 98]%Z [107]%Z); reflexivity.
Defined.

Lemma identify_people_without_reference_witness :
  ∃ evs,
    identify_people Scenario.b64decode Scenario.load_image_file Scenario.face_locations
      Scenario.face_encodings Scenario.face_distance true "ab"
      [KnownFacePayload.mk 3 "Zed" "not base64"; KnownFacePayload.mk 4 "Ann" EmptyString] []
    = (Ok [], [] ++ evs)
    ∧ Forall (FaceTrace.avatar_event
                [KnownFacePayload.mk 3 "Zed" "not base64"; KnownFacePayload.mk 4 "Ann" EmptyString])
             evs.
Proof.
  cut (∃ evs,
    identify_people Scenario.b64decode Scenario.load_image_file Scenario.face_locations
      Scenario.face_encodings Scenario.face_distance true "ab"
      [KnownFacePayload.mk 3 "Zed" "not base64"; KnownFacePayload.mk 4 "Ann" EmptyString] []
    = (Ok [], [] ++ evs)
    ∧ (load_known Scenario.b64decode Scenario.load_image_file Scenario.face_encodings
         [KnownFacePayload.mk 3 "Zed" "not base64"; KnownFacePayload.mk 4 "Ann" EmptyString]
         [] [] []).2 = [] ++ evs
    ∧ Forall (FaceTrace.avatar_event
                [KnownFacePayload.mk 3 "Zed" "not base64"; KnownFacePayload.mk 4 "Ann" EmptyString])
             evs).
  { intros (evs & H1 & _ & H3). by exists evs. }
  apply (identify_people_without_reference Scenario.b64decode Scenario.load_image_file
           Scenario.face_locations Scenario.face_encodings Scenario.face_distance). reflexivity.
Defined.

End FaceMore.

(** ** The caption returned *)

Module VisionMore.
Import Vision.

Lemma is_lower_upper_char c : is_lower (upper_char c) = false.
Proof. by destruct c as [[] [] [] [] [] [] [] []]. Qed.

Lemma is_upper_lower_char c : is_upper (lower_char c) = false.
Proof. by destruct c as [[] [] [] [] [] [] [] []]. Qed.

Lemma upper_char_idem c : upper_char (upper_char c) = upper_char c.
Proof. by destruct c as [[] [] [] [] [] [] [] []]. Qed.

Lemma lower_char_idem c : lower_char (lower_char c) = lower_char c.
Proof. by destruct c as [[] [] [] [] [] [] [] []]. Qed.

Lemma lower_idem s : lower (lower s) = lower s.
Proof. unfold lower. induction s as [|c s IH]; cbn; [done|]. by rewrite lower_char_idem, IH. Qed.

Lemma is_ascii_lower_char c : is_ascii_char c = true → is_ascii_char (lower_char c) = true.
Proof. by destruct c as [[] [] [] [] [] [] [] []]. Qed.

Lemma is_ascii_upper_char c : is_ascii_char c = true → is_ascii_char (upper_char c) = true.
Proof. by destruct c as [[] [] [] [] [] [] [] []]. Qed.

Lemma is_ascii_lower s : is_ascii s = true → is_ascii (lower s) = true.
Proof.
  unfold lower. induction s as [|c s IH]; [done|]. cbn [is_ascii map_string].
  intros [Hc Hs]%andb_true_iff. by rewrite is_ascii_lower_char, IH.
Qed.

Lemma is_ascii_capitalize s : is_ascii s = true → is_ascii (capitalize s) = true.
Proof.
  destruct s as [|c s]; [done|]. cbn [is_ascii capitalize].
  intros [Hc Hs]%andb_true_iff. by rewrite is_ascii_upper_char, is_ascii_lower.
Qed.

Lemma is_ascii_drop_string n s : is_ascii s = true → is_ascii (drop_string n s) = true.
Proof.
  revert s. induction n as [|n IH]; intros [|c s]; cbn [drop_string is_ascii]; try done.
  intros [_ Hs]%andb_true_iff. by apply IH.
Qed.

Lemma is_ascii_lstrip s : is_ascii s = true → is_ascii (lstrip s) = true.
Proof.
  induction s as [|c s IH]; [done|]. cbn [lstrip]. destruct (is_space c); [|done].
  cbn [is_ascii]. intros [_ Hs]%andb_true_iff. by apply IH.
Qed.

Lemma is_ascii_rstrip s : is_ascii s = true → is_ascii (rstrip s) = true.
Proof.
  induction s as [|c s IH]; [done|]. cbn [rstrip is_ascii].
  intros [Hc Hs]%andb_true_iff. specialize (IH Hs).
  destruct (rstrip s) as [|c' s'].
  - destruct (is_space c); [done|]. cbn [is_ascii]. by rewrite Hc.
  - cbn [is_ascii] in *. by rewrite Hc, IH.
Qed.

Lemma is_ascii_clean_caption caption :
  is_ascii caption = true → is_ascii (clean_caption caption) = true.
Proof.
  intros Hc. unfold clean_caption. cbv zeta. apply is_ascii_capitalize.
  destruct (startswith _ _); [|done].
  unfold strip. by apply is_ascii_rstrip, is_ascii_lstrip, is_ascii_drop_string.
Qed.

(** For a caption of ASCII characters, whatever it is, the caption returned
    is in a fixed form: it is again of ASCII characters, it does not begin
    with a lower-case letter, it has no upper-case letter after its first
    character, and capitalizing it again changes nothing. *)
Theorem generate_caption_form blip image_bytes caption t result :
  blip image_bytes = Ok caption →
  is_ascii caption = true →
  (generate_caption blip true true true image_bytes t).1 = Ok result →
  is_ascii result = true
  ∧ (∀ c, String.get 0 result = Some c → is_lower c = false)
  ∧ (∀ i c, String.get (S i) result = Some c → is_upper c = false)
  ∧ capitalize result = result.
Proof.
  intros Hblip Hascii. unfold generate_caption, try_catch, mbind, M_bind, call. cbn [negb orb].
  rewrite Hblip. cbn. intros [= <-]. split; [by apply is_ascii_clean_caption|].
  unfold clean_caption. cbv zeta.
  generalize (if startswith (lower caption) artifact_prefix
              then strip (drop_string (String.length artifact_prefix) caption)
              else caption) as cleaned.
  intros [|a rest]; [done|]. unfold capitalize. split_and!.
  - cbn. intros c [= <-]. apply is_lower_upper_char.
  - cbn [String.get]. intros i c. unfold lower.
    rewrite VisionFacts.get_map_string.
    destruct (String.get i rest); [|done]. cbn. intros [= <-]. apply is_upper_lower_char.
  - by rewrite upper_char_idem, lower_idem.
Qed.

Lemma generate_caption_form_witness :
  capitalize "A dog in paris" = "A dog in paris".
Proof.
  refine (proj2 (proj2 (proj2
            (generate_caption_form (λ _, Ok "Arafed image of  a Dog in Paris ") []
               "Arafed image of  a Dog in Paris " [] "A dog in paris" _ _ _))));
    reflexivity.
Defined.

Lemma lstrip_all_space s : all_space s = true → lstrip s = EmptyString.
Proof.
  induction s as [|c s IH]; [done|]. cbn. destruct (is_space c); [|done]. exact IH.
Qed.

Lemma drop_string_app head rest :
  drop_string (String.length head) (head +:+ rest) = rest.
Proof.
  induction head as [|c head IH]; [by destruct rest|].
  change (String c head +:+ rest) with (String c (head +:+ rest)). cbn. exact IH.
Qed.

(** A caption that is only the artifact prefix, in whatever letter case,
    possibly followed by blanks, comes back as the empty string. *)
Theorem clean_caption_only_prefix head blanks :
  lower head = artifact_prefix →
  all_space blanks = true →
  clean_caption (head +:+ blanks) = EmptyString.
Proof.
  intros Hhead Hblanks. unfold clean_caption, startswith. cbv zeta.
  rewrite PresenceMore.lower_app, Hhead, PresenceMore.prefix_append.
  assert (String.length artifact_prefix = String.length head) as ->.
  { rewrite <- Hhead. unfold lower. by rewrite VisionFacts.length_map_string. }
  rewrite drop_string_app. unfold strip. by rewrite (lstrip_all_space _ Hblanks).
Qed.

Lemma clean_caption_only_prefix_witness :
  clean_caption "Arafed Image Of   " = EmptyString.
Proof.
  apply (clean_caption_only_prefix "Arafed Image Of" "   "); reflexivity.
Defined.

End VisionMore.

(** ** The application: start-up, health and routes *)

Module AppFacts.
Import Services App Samples.

Lemma lifespan_flags loads :
  (fun h => services h) (health_check (lifespan loads))
  = let vision := succeeded (load_vision_processor loads) && succeeded (load_vision_model loads) in
    [("chat_conversation", succeeded (load_chat loads));
     ("proactive_analysis", succeeded (load_proactive loads));
     ("blip_vision", vision);
     ("whisper_transcription", vision && succeeded (load_transcription loads));
     ("face_recognition", vision && succeeded (load_face loads));
     ("nomic_embedding", vision && succeeded (load_embedding loads));
     ("gtts_tts", vision && succeeded (load_tts loads))].
Proof.
  destruct loads as [c p vp vm tr f e tts]. cbn.
  by destruct c, p, vp, vm, tr, f, e, tts.
Qed.

(** After start-up the health check says "healthy" exactly when every
    loading succeeded, and "degraded" otherwise. *)
Theorem health_after_startup loads :
  let health := health_check (lifespan loads) in
  (status health = "healthy"
   ↔ succeeded (load_chat loads) = true ∧ succeeded (load_proactive loads) = true
     ∧ succeeded (load_vision_processor loads) = true ∧ succeeded (load_vision_model loads) = true
     ∧ succeeded (load_transcription loads) = true ∧ succeeded (load_face loads) = true
     ∧ succeeded (load_embedding loads) = true ∧ succeeded (load_tts loads) = true)
  ∧ (status health ≠ "healthy" → status health = "degraded")
  ∧ version health = "5.0.0".
Proof.
  intros health. unfold health.
  destruct loads as [c p vp vm tr f e tts]. cbn [load_chat load_proactive load_vision_processor
    load_vision_model load_transcription load_face load_embedding load_tts].
  split_and!; [| |done].
  - destruct c, p, vp, vm, tr, f, e, tts; cbn; split; (done || by intros (?&?&?&?&?&?&?&?)).
  - destruct c, p, vp, vm, tr, f, e, tts; cbn; done.
Qed.

(** The seven services are built one after the other inside a single
    [try], and the constructors of the vision and speech services pass their
    failure on: when the captioning model cannot be loaded, transcription,
    face recognition, embedding and speech are never built and are reported
    not ready, whether or not they could have been loaded; a failure of the
    speech service, the last one, affects no other; the five other services
    keep their failure to themselves. *)
Theorem vision_failure_masks_later_services loads :
  let reported := services (health_check (lifespan loads)) in
  (succeeded (load_vision_processor loads) && succeeded (load_vision_model loads) = false →
   reported = [("chat_conversation", succeeded (load_chat loads));
               ("proactive_analysis", succeeded (load_proactive loads));
               ("blip_vision", false);
               ("whisper_transcription", false);
               ("face_recognition", false);
               ("nomic_embedding", false);
               ("gtts_tts", false)])
  ∧ (succeeded (load_vision_processor loads) && succeeded (load_vision_model loads) = true →
     reported = [("chat_conversation", succeeded (load_chat loads));
                 ("proactive_analysis", succeeded (load_proactive loads));
                 ("blip_vision", true);
                 ("whisper_transcription", succeeded (load_transcription loads));
                 ("face_recognition", succeeded (load_face loads));
                 ("nomic_embedding", succeeded (load_embedding loads));
                 ("gtts_tts", succeeded (load_tts loads))]).
Proof.
  intros reported. unfold reported. rewrite lifespan_flags. cbv zeta.
  split; by intros ->.
Qed.

Lemma vision_failure_masks_later_services_witness :
  services (health_check (lifespan vision_down))
  = [("chat_conversation", true); ("proactive_analysis", true); ("blip_vision", false);
     ("whisper_transcription", false); ("face_recognition", false);
     ("nomic_embedding", false); ("gtts_tts", false)].
Proof.
  refine (proj1 (vision_failure_masks_later_services vision_down) _). reflexivity.
Defined.

Section Routes.

Variable float_of_str : string → option spec_float.
Variable json_loads : string → res pyval.
Variable director_chat : string → res string.
Variable analysis_chat : string → res string.
Variable coerce_str : pyval → option string.
Variable coerce_model : pyval → option (gmap string pyval).
Variable coerce_float : pyval → option spec_float.
Variable exn_text : exn → string.
Context {bytes image location encoding : Type}.
Variable b64decode : string → res bytes.
Variable load_image_file : bytes → res image.
Variable face_locations : image → res (list location).
Variable face_encodings : image → option (list location) → res (list encoding).
Variable face_distance : encoding → encoding → spec_float.
Variable blip_caption : list Byte.byte → res string.

Local Abbreviation chat_route := (chat json_loads director_chat coerce_str coerce_model).
Local Abbreviation analyze_route :=
  (analyze_memory float_of_str json_loads analysis_chat coerce_str coerce_float exn_text).
Local Abbreviation recognize_route :=
  (recognize_people_in_photo exn_text b64decode load_image_file face_locations face_encodings
     face_distance).
Local Abbreviation describe_route := (describe_image blip_caption).

(** The chat route never leaves an exception to the global handler.  It
    answers 503, without calling the model, when the service was not built
    or is not ready, and otherwise answers a director response after exactly
    one call of the model. *)
Theorem chat_route_answers g request t :
  served exn_text (chat_route g request) t = chat_route g request t
  ∧ (ready_if chat_is_ready (chat_service g) = false →
     chat_route g request t
     = (Ok (HTTPException 503 "Conversation service is not available."), t))
  ∧ (ready_if chat_is_ready (chat_service g) = true →
     ∃ response,
       chat_route g request t
       = (Ok (Respond response), t ++ [EvChat (Chat._construct_prompt request)])).
Proof.
  unfold served, try_catch, chat, ready_if.
  destruct (chat_service g) as [[ready]|]; cbn [chat_is_ready]; [|by split_and!].
  destruct ready; cbn [negb]; [|by split_and!].
  unfold mbind, M_bind. rewrite DirectorFacts.generate_response_ready.
  split_and!; [done | done |]. intros _. by eexists.
Qed.

(** The recognition route cannot answer 500: its [except] clause is never
    entered, since a ready service returns for every input.  It answers 503
    when the service was not built or is not ready, and a list of people
    otherwise. *)
Theorem recognize_route_answers g photo known t :
  (ready_if face_is_ready (face_recognition_service g) = false →
   recognize_route g photo known t
   = (Ok (HTTPException 503 "Face recognition service is not available."), t))
  ∧ (ready_if face_is_ready (face_recognition_service g) = true →
     ∃ people t', recognize_route g photo known t = (Ok (Respond (mkRecognition people)), t'))
  ∧ (∀ status_code detail,
       (recognize_route g photo known t).1 = Ok (HTTPException status_code detail) →
       status_code = 503%nat)
  ∧ served exn_text (recognize_route g photo known) t = recognize_route g photo known t.
Proof.
  unfold served, recognize_people_in_photo, ready_if.
  destruct (face_recognition_service g) as [[ready]|]; cbn [face_is_ready].
  2: { split_and!; try done. by intros ?? [= <- _]. }
  destruct ready; cbn [negb].
  2: { split_and!; try done. by intros ?? [= <- _]. }
  unfold try_catch at 2 3 4. unfold try_catch. unfold mbind, M_bind.
  destruct (FaceFacts.identify_people_run b64decode load_image_file face_locations
              face_encodings face_distance photo known t) as [t' ->].
  split_and!; [done | by eexists _, _ | done | done].
Qed.

Lemma str_items_length vs ss : str_items coerce_str vs = Ok ss → length ss = length vs.
Proof.
  revert ss. induction vs as [|v vs IH]; intros ss; cbn; [by intros [= <-]|].
  destruct (Chat.str_field coerce_str v); [|done].
  destruct (str_items coerce_str vs) as [ss'|]; [|done].
  intros [= <-]. cbn. by rewrite (IH ss').
Qed.

Lemma float_value_validated sc :
  Shapes.validated_score sc →
  ∃ f, float_value coerce_float sc = Ok f
       ∧ SFleb (Z2SF 0) f = true ∧ SFleb f (Z2SF 5) = true.
Proof.
  intros [-> | [-> | (f & -> & H5 & H0)]].
  - by exists (Z2SF 0).
  - by exists (Z2SF 5).
  - exists f. split_and!; [done | by apply AnalysisFacts.SFltb_SFleb ..].
Qed.

(** What the analysis route does with the result of the service. *)
Lemma analyze_route_run g title descr ty date loc people t :
  ready_if proactive_is_ready (proactive_analysis_service g) = true →
  ∃ r,
    Shapes.validated_score (Analysis.proactive_score r)
    ∧ (length (Analysis.seasonal_tags r) ≤ 3)%nat
    ∧ (Analysis.analyze_memory float_of_str json_loads analysis_chat true
         title descr ty date loc people t).1 = Ok r
    ∧ (analyze_route g title descr ty date loc people t).1
      = Ok (match MemoryAnalysisResponse_init coerce_str coerce_float (Shapes.analysis_dict r) with
            | Ok body => Respond body
            | Raise e => HTTPException 500 (exn_text e)
            end).
Proof.
  unfold analyze_memory, ready_if.
  destruct (proactive_analysis_service g) as [[ready]|]; cbn [proactive_is_ready]; [|done].
  intros ->. cbn [negb].
  destruct (AnalysisMore.analyze_memory_outcome float_of_str json_loads analysis_chat true
              title descr ty date loc people t) as (r & Hrun & Hscore & Hlen).
  exists r. split_and!; [done | done | by rewrite Hrun |].
  unfold try_catch, mbind, M_bind, lift. rewrite Hrun.
  by destruct (MemoryAnalysisResponse_init _ _ _).
Qed.

(** Whatever the model replied, a body the analysis route sends has a score
    between 0.0 and 5.0 and at most three tags, all of them strings; and the
    route itself never leaves an exception to the global handler. *)
Theorem analyze_route_bounds g title descr ty date loc people t :
  (∀ body, (analyze_route g title descr ty date loc people t).1 = Ok (Respond body) →
     SFleb (Z2SF 0) (proactive_score body) = true
     ∧ SFleb (proactive_score body) (Z2SF 5) = true
     ∧ (length (seasonal_tags body) ≤ 3)%nat)
  ∧ ∃ answer t', analyze_route g title descr ty date loc people t = (Ok answer, t').
Proof.
  destruct (ready_if proactive_is_ready (proactive_analysis_service g)) eqn:Hready.
  2: { unfold analyze_memory, ready_if in *.
       destruct (proactive_analysis_service g) as [[ready]|]; cbn [proactive_is_ready] in *.
       - subst ready. cbn. split; [done | by eexists _, _].
       - cbn. split; [done | by eexists _, _]. }
  destruct (analyze_route_run g title descr ty date loc people t Hready)
    as (r & Hscore & Hlen & _ & Hroute).
  split.
  - intros body. rewrite Hroute.
    unfold MemoryAnalysisResponse_init, mbind, res_bind,
      optional_str_field, str_list_field, float_field, str_default_field.
    destruct (AnalysisMore.analysis_dict_lookup r) as (-> & -> & -> & ->).
    destruct (float_value_validated _ Hscore) as (f & -> & H0 & H5).
    destruct (match Analysis.anniversary_type r with
              | VNone => Ok None
              | _ => _
              end) as [a|e]; [|done].
    destruct (str_items coerce_str (Analysis.seasonal_tags r)) as [ss|e] eqn:Hss; [|done].
    destruct (Chat.str_field coerce_str (Analysis.reasoning r)) as [s|e]; [|done].
    intros [= <-]. cbn. split_and!; [done | done |].
    apply str_items_length in Hss. lia.
  - destruct (analyze_route g title descr ty date loc people t) as [a t'] eqn:E.
    cbn in Hroute. subst a. by eexists _, _.
Qed.

(** When the model cannot be reached the analysis route still answers 200,
    with the default analysis in the response model's form: no anniversary,
    no tag, score 0.0 and the reasoning of the failed analysis. *)
Theorem analyze_route_on_failure g title descr ty date loc people t e :
  ready_if proactive_is_ready (proactive_analysis_service g) = true →
  analysis_chat (Analysis._construct_analysis_prompt title descr ty date loc people) = Raise e →
  (analyze_route g title descr ty date loc people t).1 = Ok (Respond typed_default).
Proof.
  intros Hready Hchat.
  destruct (analyze_route_run g title descr ty date loc people t Hready)
    as (r & _ & _ & Hrun & ->).
  unfold Analysis.analyze_memory, try_catch, mbind, M_bind, call, lift in Hrun.
  cbn [negb] in Hrun. rewrite Hchat in Hrun. cbn [select_handler] in Hrun.
  destruct (isinstance_exn e JSONDecodeError); by injection Hrun as <-.
Qed.

(** The validation step lets any anniversary value through; the route does
    not: when the value is neither a string nor [None] and pydantic does not
    coerce it, the response model rejects the result and the route answers
    500 with the text of the validation error. *)
Theorem analyze_route_rejects_anniversary g title descr ty date loc people t raw
    (d : gmap string pyval) r v :
  ready_if proactive_is_ready (proactive_analysis_service g) = true →
  analysis_chat (Analysis._construct_analysis_prompt title descr ty date loc people) = Ok raw →
  json_loads raw = Ok (VDict d) →
  Analysis._validate_analysis_result float_of_str d = Ok r →
  Analysis.anniversary_type r = v →
  v ≠ VNone → (∀ s, v ≠ VStr s) → coerce_str v = None →
  (analyze_route g title descr ty date loc people t).1
  = Ok (HTTPException 500 (exn_text ValidationError)).
Proof.
  intros Hready Hchat Hloads Hval Ha Hnone Hstr Hco.
  destruct (analyze_route_run g title descr ty date loc people t Hready)
    as (r' & _ & _ & Hrun & ->).
  assert (r' = r) as ->.
  { unfold Analysis.analyze_memory, try_catch, mbind, M_bind, call, lift in Hrun.
    cbn [negb] in Hrun. rewrite Hchat, Hloads in Hrun. cbn [Analysis.validate_loaded] in Hrun.
    rewrite Hval in Hrun. by injection Hrun. }
  unfold MemoryAnalysisResponse_init, mbind, res_bind, optional_str_field.
  destruct (AnalysisMore.analysis_dict_lookup r) as (-> & _).
  rewrite Ha. unfold Chat.str_field.
  destruct v; try done; try (by rewrite Hco). by destruct (Hstr s).
Qed.

(** The captioning route has no [try]: for a vision service that was
    built, a caption comes back cleaned, and whatever the model raises is
    answered by the global handler as a 500 whose detail starts with
    "Internal server error: ".  The service's own readiness error cannot
    occur there, as a built vision service is ready and has its model and
    processor. *)
Theorem describe_route_answers g load_processor load_model svc image_bytes t :
  new_VisionService load_processor load_model = Ok svc →
  vision_service g = Some svc →
  (∀ caption, blip_caption image_bytes = Ok caption →
     served exn_text (describe_route g image_bytes) t
     = (Ok (Respond (mkDescription (Vision.clean_caption caption))), t ++ [EvCaption]))
  ∧ (∀ e, blip_caption image_bytes = Raise e →
       served exn_text (describe_route g image_bytes) t
       = (Ok (HTTPException 500 ("Internal server error: " +:+ exn_text e)), t ++ [EvCaption])).
Proof.
  intros Hnew Hg. unfold new_VisionService in Hnew.
  destruct load_processor; [|done]. destruct load_model; [|done]. injection Hnew as <-.
  unfold served, describe_image, global_exception_handler. rewrite Hg. cbn [vision_is_ready negb
    vision_model vision_processor].
  unfold Vision.generate_caption, try_catch, mbind, M_bind, call. cbn [negb orb].
  split.
  - by intros caption ->.
  - by intros e ->.
Qed.

End Routes.

Lemma analyze_route_bounds_witness :
  let body := mkResponse (Some "birthday") ["a"; "b"; "c"] (Z2SF 5) "A birthday." in
  SFleb (Z2SF 0) (proactive_score body) = true
  ∧ SFleb (proactive_score body) (Z2SF 5) = true
  ∧ (length (seasonal_tags body) ≤ 3)%nat.
Proof.
  refine (proj1 (analyze_route_bounds Scenario.float_of_digits (λ _, Ok (VDict excessive_reply))
                   (Scenario.chat_const (Ok "reply")) Scenario.no_str no_float
                   exn_name (lifespan all_loaded)
                   "Walk" "A walk in the park" "text" None None None [])
            (mkResponse (Some "birthday") ["a"; "b"; "c"] (Z2SF 5) "A birthday.") _).
  reflexivity.
Defined.

Lemma analyze_route_on_failure_witness :
  (analyze_memory Scenario.float_of_digits Scenario.json_loads
     (Scenario.chat_const (Raise (RuntimeError "connection refused"))) Scenario.no_str no_float
     exn_name (lifespan all_loaded) "Walk" "A walk in the park" "text" None None None []).1
  = Ok (Respond typed_default).
Proof.
  apply (analyze_route_on_failure _ _ _ _ _ _ _ _ _ _ _ _ _ _ (RuntimeError "connection refused"));
    reflexivity.
Defined.

Lemma analyze_route_rejects_anniversary_witness :
  (analyze_memory Scenario.float_of_digits (λ _, Ok (VDict list_anniversary_reply))
     (Scenario.chat_const (Ok "reply")) Scenario.no_str no_float
     exn_name (lifespan all_loaded) "Walk" "A walk in the park" "text" None None None []).1
  = Ok (HTTPException 500 "ValidationError").
Proof.
  eapply (analyze_route_rejects_anniversary _ _ _ _ _ exn_name _ _ _ _ _ _ _ _ "reply"
            list_anniversary_reply _ (VList [VStr "work"; VStr "birthday"]));
    try reflexivity; discriminate.
Defined.

Lemma describe_route_answers_witness :
  served exn_name (describe_image (λ _, Raise (RuntimeError "cannot identify image file"))
                     (lifespan all_loaded) []) []
  = (Ok (HTTPException 500 "Internal server error: cannot identify image file"), [EvCaption]).
Proof.
  destruct (describe_route_answers exn_name
              (λ _, Raise (RuntimeError "cannot identify image file"))
              (lifespan all_loaded) (Ok tt) (Ok tt) (mkVision true true true) [] [])
    as [_ H]; [reflexivity | reflexivity |].
  apply (H (RuntimeError "cannot identify image file")). reflexivity.
Defined.

End AppFacts.

(** ** Temporary files of the transcription and speech services *)

Module FilesFacts.
Import Services App Files.

Section Temporary.

Variable temp_name : disk → string → outcome string.
Variable write_failure : list Byte.byte → option (failure * list Byte.byte).
Variable pipe_call : string → F pyval.
Variable tts_to_file : string → string → F unit.
Variable sf_read : list Byte.byte → outcome (nat * Z).
Variable failure_text : failure → string.

Local Abbreviation transcribe := (transcribe_audio temp_name write_failure pipe_call).
Local Abbreviation speak := (generate_speech temp_name tts_to_file sf_read).
Local Abbreviation spoken := (Files.spoken sf_read).

Lemma transcribe_audio_run svc data d path :
  transcription_is_ready svc = true → pipe svc = true →
  temp_name d ".webm" = Returned path →
  d !! path = None →
  write_failure data = None →
  (pipe_call path (<[path := data]> d)).2 = <[path := data]> d →
  transcribe svc (AudioBytes data) d
  = (transcribed (pipe_call path (<[path := data]> d)).1, d).
Proof.
  intros Hready Hpipe Hname Hfresh Hwrite Hkeeps.
  unfold transcribe_audio. rewrite Hready, Hpipe. cbn [negb orb].
  unfold try_except, finally, mbind, F_bind, NamedTemporaryFile, write, unlink, pure_step,
    mret, F_ret, fail.
  cbv beta. rewrite Hname. cbv beta iota. rewrite Hwrite, insert_insert_eq.
  destruct (pipe_call path (<[path := data]> d)) as [r d'] eqn:Hrun. cbn in Hkeeps. subst d'.
  rewrite lookup_insert_eq, delete_insert_id by done.
  destruct r as [result|e]; cbn [transcribed fst]; [|done].
  by destruct (transcript_of result).
Qed.


(** The inner [try] with its [os.unlink] starts after the [with] block: when
    the write of the bytes fails, the exception leaves [transcribe_audio]
    with the new file still on disk, holding what had been written; the
    pipeline is not run. *)
Theorem transcribe_audio_failed_write_leaves_file svc data d path e kept :
  transcription_is_ready svc = true → pipe svc = true →
  temp_name d ".webm" = Returned path →
  write_failure data = Some (e, kept) →
  let ran := transcribe_audio temp_name write_failure pipe_call svc (AudioBytes data) d in
  ran.1 = Raised e
  ∧ ran.2 = <[path := kept]> d
  ∧ ran.2 !! path = Some kept.
Proof.
  intros Hready Hpipe Hname Hwrite ran. unfold ran, transcribe_audio.
  rewrite Hready, Hpipe. cbn [negb orb].
  unfold try_except, finally, mbind, F_bind, NamedTemporaryFile, write, fail.
  cbv beta. rewrite Hname. cbv beta iota. rewrite Hwrite, insert_insert_eq. cbn [fst snd].
  split_and!; [done | done | apply lookup_insert_eq].
Qed.

Lemma generate_speech_run svc text d path :
  tts_is_ready svc = true → _model svc = true →
  temp_name d ".wav" = Returned path →
  d !! path = None →
  (∀ other, other ≠ path →
     (tts_to_file text path (<[path := []]> d)).2 !! other = d !! other) →
  speak svc text d = (spoken path (tts_to_file text path (<[path := []]> d)), d).
Proof.
  intros Hready Hmodel Hname Hfresh Hframe.
  unfold generate_speech. rewrite Hready, Hmodel. cbn [negb orb].
  unfold try_except, finally, mbind, F_bind, NamedTemporaryFile, read_file, path_exists, unlink,
    pure_step, mret, F_ret, fail.
  cbv beta. rewrite Hname. cbv beta iota.
  destruct (tts_to_file text path (<[path := []]> d)) as [r d'] eqn:Hrun. cbn [snd] in Hframe.
  assert (∀ kept, d' !! path = Some kept → delete path d' = d) as Hdel.
  { intros kept _. apply map_eq. intros i. destruct (decide (i = path)) as [->|Hne].
    - by rewrite lookup_delete_eq.
    - rewrite lookup_delete_ne by done. by apply Hframe. }
  assert (d' !! path = None → d' = d) as Hsame.
  { intros Hnone. apply map_eq. intros i. destruct (decide (i = path)) as [->|Hne].
    - by rewrite Hnone.
    - by apply Hframe. }
  unfold Files.spoken.
  destruct r as [[]|e]; cbv beta iota.
  - destruct (d' !! path) as [audio_bytes|] eqn:Hfile; cbv beta iota.
    + destruct (sf_read audio_bytes) as [read|e];
        [destruct (duration_ms_of read.1 read.2)|]; cbv beta iota;
        rewrite ?Hfile, bool_decide_eq_true_2 by done; cbv beta iota;
        rewrite ?Hfile; by rewrite (Hdel audio_bytes).
    + rewrite ?Hfile, bool_decide_eq_false_2 by apply is_Some_None. cbv beta iota.
      by rewrite Hsame.
  - destruct (d' !! path) as [kept|] eqn:Hfile; cbv beta iota.
    + rewrite ?Hfile, bool_decide_eq_true_2 by done. cbv beta iota.
      rewrite ?Hfile. by rewrite (Hdel kept).
    + rewrite ?Hfile, bool_decide_eq_false_2 by apply is_Some_None. cbv beta iota.
      by rewrite Hsame.
Qed.

(** The speech service asks the model to write a new file, reads it and
    removes it in a [finally] that first checks the file is there: when the
    model touches no other file, the files are afterwards as they were
    before, whether the model wrote the file, failed, or removed it; and the
    audio returned is the content the model left in the file. *)
Theorem generate_speech_leaves_no_file svc text d path :
  tts_is_ready svc = true → _model svc = true →
  temp_name d ".wav" = Returned path →
  d !! path = None →
  (∀ other, other ≠ path →
     (tts_to_file text path (<[path := []]> d)).2 !! other = d !! other) →
  let ran := generate_speech temp_name tts_to_file sf_read svc text d in
  ran.2 = d
  ∧ (∀ e, (tts_to_file text path (<[path := []]> d)).1 = Raised e → ran.1 = Raised e)
  ∧ (∀ audio_bytes duration_ms, ran.1 = Returned (audio_bytes, duration_ms) →
       (tts_to_file text path (<[path := []]> d)).2 !! path = Some audio_bytes
       ∧ ∃ frames sample_rate,
           sf_read audio_bytes = Returned (frames, sample_rate)
           ∧ duration_ms_of frames sample_rate = Returned duration_ms).
Proof.
  intros Hready Hmodel Hname Hfresh Hframe ran. unfold ran.
  rewrite (generate_speech_run svc text d path) by done. cbn [fst snd].
  destruct (tts_to_file text path (<[path := []]> d)) as [r d'].
  split_and!; [done | by intros e [= ->] |].
  intros audio_bytes duration_ms. unfold spoken. cbn [fst snd].
  destruct r as [[]|e]; [|done].
  destruct (d' !! path) as [found|]; [|done].
  destruct (sf_read found) as [[frames sample_rate]|e] eqn:Hread; [|done]. cbn [fst snd].
  destruct (duration_ms_of frames sample_rate) as [ms|e] eqn:Hms; [|done].
  intros [= <- <-]. split; [done|]. by exists frames, sample_rate.
Qed.

(** The transcription route has no [try].  For a service as its constructor
    leaves it: 503 when the pipeline could not be loaded; otherwise the
    transcript, or, for whatever the pipeline or the reading of its result
    raises, the global handler's 500 with "Internal server error: " before
    the text of the exception.  In each case the route answers and the files
    are as before. *)
Theorem transcribe_route_answers g load data d path :
  transcription_service g = Some (new_TranscriptionService load) →
  temp_name d ".webm" = Returned path →
  d !! path = None →
  write_failure data = None →
  (pipe_call path (<[path := data]> d)).2 = <[path := data]> d →
  served failure_text (transcribe_audio_route temp_name write_failure pipe_call g data) d
  = (Returned
       match load with
       | Raise _ => HTTPException 503 "Audio transcription service is not available."
       | Ok _ =>
           match transcribed (pipe_call path (<[path := data]> d)).1 with
           | Returned transcript => Respond transcript
           | Raised e => HTTPException 500 ("Internal server error: " +:+ failure_text e)
           end
       end, d).
Proof.
  intros Hg Hname Hfresh Hwrite Hkeeps.
  unfold served, transcribe_audio_route, try_except. rewrite Hg.
  destruct load as [[]|e]; cbn [new_TranscriptionService transcription_is_ready negb]; [|done].
  unfold mbind, F_bind. rewrite (transcribe_audio_run _ data d path) by done.
  by destruct (transcribed _).
Qed.

(** The speech route catches everything.  For a service as its constructor
    leaves it, the route answers either the audio the model wrote, as
    "audio/mp3" with the duration in decimal in the header
    X-Audio-Duration-Ms, or 500 with the text of the exception (without the
    global handler's prefix); the files are as before. *)
Theorem speech_route_answers g load svc text d path :
  new_TtsService load = Ok svc →
  tts_service g = Some svc →
  temp_name d ".wav" = Returned path →
  d !! path = None →
  (∀ other, other ≠ path →
     (tts_to_file text path (<[path := []]> d)).2 !! other = d !! other) →
  generate_speech_route temp_name tts_to_file sf_read failure_text g text d
  = (Returned
       match spoken path (tts_to_file text path (<[path := []]> d)) with
       | Returned (audio_bytes, duration_ms) =>
           Respond (mkStreaming audio_bytes "audio/mp3"
                      [("X-Audio-Duration-Ms", pretty duration_ms)])
       | Raised e => HTTPException 500 (failure_text e)
       end, d).
Proof.
  intros Hnew Hg Hname Hfresh Hframe.
  unfold new_TtsService in Hnew. destruct load; [|done]. injection Hnew as <-.
  unfold generate_speech_route, try_except. rewrite Hg. cbn [tts_is_ready negb].
  unfold mbind, F_bind. rewrite (generate_speech_run _ text d path) by done.
  by destruct (spoken _ _) as [[audio_bytes duration_ms]|e].
Qed.

End Temporary.


Lemma transcribe_audio_failed_write_leaves_file_witness :
  (transcribe_audio sample_temp_name
     (λ _, Some (OSError "No space left on device", [Byte.x01])) sample_pipe
     (mkTranscription true true) (AudioBytes [Byte.x01; Byte.x02]) some_disk).2
    !! "/tmp/tmpk3x.webm" = Some [Byte.x01].
Proof.
  refine (proj2 (proj2 (transcribe_audio_failed_write_leaves_file sample_temp_name
                          (λ _, Some (OSError "No space left on device", [Byte.x01]))
                          sample_pipe (mkTranscription true true) [Byte.x01; Byte.x02]
                          some_disk "/tmp/tmpk3x.webm" (OSError "No space left on device")
                          [Byte.x01] _ _ _ _))); reflexivity.
Defined.

Lemma generate_speech_leaves_no_file_witness :
  (generate_speech sample_temp_name failing_tts sample_sf_read (mkTts true true)
     "Good morning" some_disk).2 = some_disk.
Proof.
  refine (proj1 (generate_speech_leaves_no_file sample_temp_name failing_tts sample_sf_read
                   (mkTts true true) "Good morning" some_disk "/tmp/tmpk3x.wav" _ _ _ _ _));
    reflexivity.
Defined.

Lemma transcribe_route_answers_witness :
  served failure_name
    (transcribe_audio_route sample_temp_name (λ _, None) failing_pipe
       (lifespan Samples.all_loaded) [Byte.x01; Byte.x02]) some_disk
  = (Returned (HTTPException 500 "Internal server error: ffmpeg could not decode the audio"),
     some_disk).
Proof.
  apply (transcribe_route_answers sample_temp_name (λ _, None) failing_pipe failure_name
           (lifespan Samples.all_loaded) (Ok tt) [Byte.x01; Byte.x02] some_disk
           "/tmp/tmpk3x.webm"); reflexivity.
Defined.

Lemma speech_route_answers_witness :
  generate_speech_route sample_temp_name sample_tts sample_sf_read failure_name
    (lifespan Samples.all_loaded) "Good morning" some_disk
  = (Returned (Respond (mkStreaming [Byte.x52; Byte.x49; Byte.x46] "audio/mp3"
                          [("X-Audio-Duration-Ms", "1500")])),
     some_disk).
Proof.
  refine (speech_route_answers sample_temp_name sample_tts sample_sf_read failure_name
            (lifespan Samples.all_loaded) (Ok tt) (mkTts true true) "Good morning" some_disk
            "/tmp/tmpk3x.wav" _ _ _ _ _); try reflexivity.
  intros other Hne. cbn. by rewrite lookup_insert_ne, lookup_insert_ne.
Defined.

End FilesFacts.
